(** * gear: a shallow embedding of the Gearman client library

    The development follows [gear/__init__.py]: the wire codec
    ([Packet.toBinary], [Connection.readPacket]), the framing of
    administrative responses ([AdminRequest.isComplete]), the echo registry
    of a [Connection], the connection pool of a [BaseClient]
    ([getConnection], [_lostConnection]), the client role ([submitJob],
    [setOption], the WORK_* handlers) and the worker role (the constructor
    and the sleep/grab state machine).

    Python objects that are shared and mutated in place (connections, jobs,
    tasks) live in heaps indexed by references; methods are state
    transformers that may raise, and a raise keeps the mutations made
    before it, as in Python. *)

From Stdlib Require Import ZArith Lia Bool DecimalString.
From Stdlib Require Import Strings.Byte Strings.String.
From stdpp Require Import base option list gmap strings.

Local Open Scope Z_scope.

(** ** Bytes *)

Abbreviation bytes := (list byte).

#[global] Instance byte_eq_decision : EqDecision byte := Byte.byte_eq_dec.

#[global] Instance byte_countable : Countable byte :=
  inj_countable Byte.to_N Byte.of_N Byte.of_to_N.

(** A bytes literal written as a string: [b "ping"] is [b'ping']. *)
Definition b (s : string) : bytes := list_byte_of_string s.

Definition NUL : byte := x00.
Definition LF : byte := x0a.
Definition CR : byte := x0d.
Definition DOT : byte := x2e.

(** Python truthiness of a bytes value: [if data:]. *)
Definition truthy {A} (l : list A) : bool :=
  match l with [] => false | _ => true end.

(** [Z]-valued [len]. *)
Definition len {A} (l : list A) : Z := Z.of_nat (length l).

(** *** Slices

    [seq[lo:hi]] with Python's rules: a negative bound counts from the end,
    bounds are clamped to [0..len], an empty range gives the empty
    sequence. *)
Definition clamp_index (n i : Z) : Z :=
  if i <? 0 then Z.max 0 (i + n) else Z.min i n.

Definition slice {A} (lo hi : option Z) (l : list A) : list A :=
  let n := len l in
  let i := clamp_index n (default 0 lo) in
  let j := clamp_index n (default n hi) in
  take (Z.to_nat (j - i)) (drop (Z.to_nat i) l).

(** [seq[i]] for a literal, non-negative [i]: [None] stands for IndexError. *)
Definition index {A} (l : list A) (i : nat) : option A := l !! i.

(** *** find, startswith, split, join *)

Fixpoint startswith (data pre : bytes) : bool :=
  match pre, data with
  | [], _ => true
  | p :: pre', d :: data' => if decide (d = p) then startswith data' pre' else false
  | _ :: _, [] => false
  end.

(** [data.find(sub)]: the lowest index where [sub] occurs, or [-1]. *)
Fixpoint find (data sub : bytes) : Z :=
  if startswith data sub then 0
  else match data with
       | [] => -1
       | _ :: data' =>
           let r := find data' sub in
           if r =? -1 then -1 else r + 1
       end.

(** [data.split(sep)] for a one-byte separator. *)
Fixpoint split (sep : byte) (data : bytes) : list bytes :=
  match data with
  | [] => [[]]
  | c :: data' =>
      if decide (c = sep) then [] :: split sep data'
      else match split sep data' with
           | p :: ps => (c :: p) :: ps
           | [] => [[c]]
           end
  end.

(** [sep.join(parts)]. *)
Fixpoint join (sep : bytes) (parts : list bytes) : bytes :=
  match parts with
  | [] => []
  | [p] => p
  | p :: ps => p ++ sep ++ join sep ps
  end.

(** ** struct.pack / struct.unpack with the format [!4sii] *)

Definition byte_of_Z (z : Z) : byte :=
  default x00 (Byte.of_N (Z.to_N (z mod 256))).

Definition Z_of_byte (c : byte) : Z := Z.of_N (Byte.to_N c).

Definition int32_min : Z := - 2 ^ 31.
Definition int32_max : Z := 2 ^ 31 - 1.

Definition is_int32 (z : Z) : bool := (int32_min <=? z) && (z <=? int32_max).

(** Field [4s]: the bytes, cut or NUL-padded to four. *)
Definition pack_4s (s : bytes) : bytes := take 4 (s ++ replicate 4 NUL).

(** Field [i], network order: four bytes of the two's complement;
    [None] stands for struct.error on a value that does not fit. *)
Definition pack_i (z : Z) : option bytes :=
  if is_int32 z then
    let u := z mod 2 ^ 32 in
    Some [byte_of_Z (Z.shiftr u 24); byte_of_Z (Z.shiftr u 16);
          byte_of_Z (Z.shiftr u 8); byte_of_Z u]
  else None.

Definition unpack_i (s : bytes) : option Z :=
  match s with
  | [b3; b2; b1; b0] =>
      let u := Z.lor (Z.shiftl (Z_of_byte b3) 24)
                 (Z.lor (Z.shiftl (Z_of_byte b2) 16)
                    (Z.lor (Z.shiftl (Z_of_byte b1) 8) (Z_of_byte b0))) in
      Some (if u <? 2 ^ 31 then u else u - 2 ^ 32)
  | _ => None
  end.

(** [struct.pack('!4sii', code, ptype, n)]. *)
Definition pack_4sii (code : bytes) (ptype n : Z) : option bytes :=
  match pack_i ptype, pack_i n with
  | Some t, Some l => Some (pack_4s code ++ t ++ l)
  | _, _ => None
  end.

(** [struct.unpack('!4sii', s)]: [s] must hold exactly twelve bytes. *)
Definition unpack_4sii (s : bytes) : option (bytes * Z * Z) :=
  if len s =? 12 then
    match unpack_i (take 4 (drop 4 s)), unpack_i (take 4 (drop 8 s)) with
    | Some t, Some l => Some (take 4 s, t, l)
    | _, _ => None
    end
  else None.

(** ** Exceptions and the state-and-exception monad *)

Inductive exn : Type :=
  | ConnectionError
  | InvalidDataError
  | ConfigurationError
  | NoConnectedServersError
  | UnknownJobError
  | InterruptedError
  | TimeoutError
  | GearmanError
  | RetryIOError
  | Exception (msg : string)
  (* built-in exceptions of the interpreter and of its libraries *)
  | TypeError
  | IndexError
  | KeyError
  | AttributeError
  | RuntimeError
  | StructError
  | SocketError
  (* the model's own: see [the_connection] and [Client_submitJob] *)
  | NoSuchObject
  | OutOfFuel.

#[global] Instance exn_eq_decision : EqDecision exn.
Proof. solve_decision. Defined.

Inductive result (A : Type) : Type :=
  | Ok (a : A)
  | Raise (e : exn).
Arguments Ok {A} a.
Arguments Raise {A} e.

(** A method on a state [S]: it returns or raises, and in both cases leaves
    a state behind. *)
Definition M (S A : Type) : Type := S -> result A * S.

Definition ret {S A} (a : A) : M S A := fun s => (Ok a, s).
Definition raise {S A} (e : exn) : M S A := fun s => (Raise e, s).
Definition bind {S A B} (m : M S A) (k : A -> M S B) : M S B :=
  fun s => match m s with
           | (Ok a, s') => k a s'
           | (Raise e, s') => (Raise e, s')
           end.
Definition get {S} : M S S := fun s => (Ok s, s).
Definition gets {S A} (f : S -> A) : M S A := fun s => (Ok (f s), s).
Definition modify {S} (f : S -> S) : M S unit := fun s => (Ok tt, f s).

(** [try: m except Exception: h]. *)
Definition try_except {S A} (m : M S A) (h : exn -> M S A) : M S A :=
  fun s => match m s with
           | (Ok a, s') => (Ok a, s')
           | (Raise e, s') => h e s'
           end.

(** [try: m finally: f]. *)
Definition try_finally {S A} (m : M S A) (f : M S unit) : M S A :=
  fun s => match m s with
           | (r, s') => match f s' with
                        | (Ok _, s'') => (r, s'')
                        | (Raise e, s'') => (Raise e, s'')
                        end
           end.

#[global] Instance M_ret {S} : MRet (M S) := fun A => @ret S A.
#[global] Instance M_bind {S} : MBind (M S) := fun A B k m => @bind S A B m k.

Definition when {S} (c : bool) (m : M S unit) : M S unit :=
  if c then m else ret tt.

(** ** Packet *)

Module Packet.

Record t : Type := mk {
  code : bytes;
  ptype : Z;
  data : bytes;
}.

(** [Packet.__init__]: the arguments are bytes and an int here, which
    leaves the check on the first byte of the magic code. The
    [connection] attribute of a received packet is passed alongside the
    packet to the handlers; [Packet.__eq__] does not look at it. *)
Definition init (code : bytes) (ptype : Z) (data : bytes) : result t :=
  if decide (slice (Some 0) (Some 1) code = [NUL])
  then Ok (mk code ptype data)
  else Raise InvalidDataError.

(** [Packet.toBinary]; [None] stands for struct.error. *)
Definition toBinary (p : t) : option bytes :=
  match pack_4sii (code p) (ptype p) (len (data p)) with
  | Some h => Some (h ++ data p)
  | None => None
  end.

(** [Packet.getArgument(index, last)]. *)
Definition getArgument (p : t) (i : nat) (last : bool) : result bytes :=
  let parts := split NUL (data p) in
  if last then Ok (join [NUL] (drop i parts))
  else match index parts i with
       | Some a => Ok a
       | None => Raise IndexError
       end.

End Packet.

#[global] Instance Packet_eq_decision : EqDecision Packet.t.
Proof. solve_decision. Defined.

(** ** AdminRequest and its subclasses *)

Module AdminRequest.

Inductive class : Type :=
  | StatusAdminRequest
  | ShowJobsAdminRequest
  | ShowUniqueJobsAdminRequest
  | CancelJobAdminRequest
  | VersionAdminRequest
  | WorkersAdminRequest.

Record t : Type := mk {
  cls : class;
  arguments : list bytes;
  response : option bytes;
  wait_event : bool;
}.

Definition command (c : class) : bytes :=
  match c with
  | StatusAdminRequest => b "status"
  | ShowJobsAdminRequest => b "show jobs"
  | ShowUniqueJobsAdminRequest => b "show unique jobs"
  | CancelJobAdminRequest => b "cancel job"
  | VersionAdminRequest => b "version"
  | WorkersAdminRequest => b "workers"
  end.

Definition init (c : class) (arguments : list bytes) : t :=
  mk c arguments None false.

Definition set_response (r : bytes) (self : t) : t :=
  mk (cls self) (arguments self) (Some r) (wait_event self).

Definition setComplete (self : t) : t :=
  mk (cls self) (arguments self) (response self) true.

Definition getCommand (self : t) : bytes :=
  let cmd := command (cls self) in
  let cmd := if truthy (arguments self)
             then cmd ++ b " " ++ join (b " ") (arguments self) else cmd in
  cmd ++ [LF].

(** [AdminRequest.isComplete], inherited by the status, show jobs, show
    unique jobs and workers requests. It returns the pair and the request
    with its [response] attribute set. *)
Definition isComplete_base (self : t) (data : bytes) : (bool * bytes) * t :=
  let x := -1 in
  let end_index_newline := find data [LF; DOT; LF] in
  let end_index_return := find data [CR; LF; DOT; CR; LF] in
  let x :=
    if negb (end_index_newline =? -1) then end_index_newline + 3
    else if negb (end_index_return =? -1) then end_index_return + 5
    else if startswith data [DOT; LF] then 2
    else if startswith data [DOT; CR; LF] then 3
    else x in
  if negb (x =? -1)
  then ((true, slice (Some x) None data),
        set_response (slice None (Some x) data) self)
  else ((false, data), self).

(** [CancelJobAdminRequest.isComplete] and
    [VersionAdminRequest.isComplete], which have the same body. *)
Definition isComplete_line (self : t) (data : bytes) : (bool * bytes) * t :=
  let end_index_newline := find data [LF] in
  if negb (end_index_newline =? -1)
  then
    let x := end_index_newline + 1 in
    ((true, slice (Some x) None data),
     set_response (slice None (Some x) data) self)
  else ((false, data), self).

(** Method resolution. *)
Definition isComplete (self : t) (data : bytes) : (bool * bytes) * t :=
  match cls self with
  | CancelJobAdminRequest | VersionAdminRequest => isComplete_line self data
  | _ => isComplete_base self data
  end.

End AdminRequest.

(** ** Jobs, tasks, sockets and connections

    The heaps of the object graph are indexed by natural numbers; an
    attribute that holds an object holds its reference. *)

Module Job.

(** A client-side [Job]; [fraction_complete], a float, is left out. *)
Record t : Type := mk {
  name : bytes;
  arguments : bytes;
  unique : option bytes;
  handle : option bytes;
  connection : option nat;
  data : list bytes;
  exception : option bytes;
  warning : bool;
  complete : bool;
  failure : bool;
  numerator : option bytes;
  denominator : option bytes;
  known : option bool;
  running : option bool;
}.

(** [Job.__init__(name, arguments, unique)]. *)
Definition init (name arguments : bytes) (unique : option bytes) : t :=
  mk name arguments unique None None [] None false false false
     None None None None.

Definition with_name (f : bytes -> bytes) (self : t) : t :=
  mk (f (name self)) (arguments self) (unique self) (handle self) (connection self) (data self) (exception self) (warning self) (complete self) (failure self) (numerator self) (denominator self) (known self) (running self).

Definition with_arguments (f : bytes -> bytes) (self : t) : t :=
  mk (name self) (f (arguments self)) (unique self) (handle self) (connection self) (data self) (exception self) (warning self) (complete self) (failure self) (numerator self) (denominator self) (known self) (running self).

Definition with_unique (f : option bytes -> option bytes) (self : t) : t :=
  mk (name self) (arguments self) (f (unique self)) (handle self) (connection self) (data self) (exception self) (warning self) (complete self) (failure self) (numerator self) (denominator self) (known self) (running self).

Definition with_handle (f : option bytes -> option bytes) (self : t) : t :=
  mk (name self) (arguments self) (unique self) (f (handle self)) (connection self) (data self) (exception self) (warning self) (complete self) (failure self) (numerator self) (denominator self) (known self) (running self).

Definition with_connection (f : option nat -> option nat) (self : t) : t :=
  mk (name self) (arguments self) (unique self) (handle self) (f (connection self)) (data self) (exception self) (warning self) (complete self) (failure self) (numerator self) (denominator self) (known self) (running self).

Definition with_data (f : list bytes -> list bytes) (self : t) : t :=
  mk (name self) (arguments self) (unique self) (handle self) (connection self) (f (data self)) (exception self) (warning self) (complete self) (failure self) (numerator self) (denominator self) (known self) (running self).

Definition with_exception (f : option bytes -> option bytes) (self : t) : t :=
  mk (name self) (arguments self) (unique self) (handle self) (connection self) (data self) (f (exception self)) (warning self) (complete self) (failure self) (numerator self) (denominator self) (known self) (running self).

Definition with_warning (f : bool -> bool) (self : t) : t :=
  mk (name self) (arguments self) (unique self) (handle self) (connection self) (data self) (exception self) (f (warning self)) (complete self) (failure self) (numerator self) (denominator self) (known self) (running self).

Definition with_complete (f : bool -> bool) (self : t) : t :=
  mk (name self) (arguments self) (unique self) (handle self) (connection self) (data self) (exception self) (warning self) (f (complete self)) (failure self) (numerator self) (denominator self) (known self) (running self).

Definition with_failure (f : bool -> bool) (self : t) : t :=
  mk (name self) (arguments self) (unique self) (handle self) (connection self) (data self) (exception self) (warning self) (complete self) (f (failure self)) (numerator self) (denominator self) (known self) (running self).

Definition with_numerator (f : option bytes -> option bytes) (self : t) : t :=
  mk (name self) (arguments self) (unique self) (handle self) (connection self) (data self) (exception self) (warning self) (complete self) (failure self) (f (numerator self)) (denominator self) (known self) (running self).

Definition with_denominator (f : option bytes -> option bytes) (self : t) : t :=
  mk (name self) (arguments self) (unique self) (handle self) (connection self) (data self) (exception self) (warning self) (complete self) (failure self) (numerator self) (f (denominator self)) (known self) (running self).

Definition with_known (f : option bool -> option bool) (self : t) : t :=
  mk (name self) (arguments self) (unique self) (handle self) (connection self) (data self) (exception self) (warning self) (complete self) (failure self) (numerator self) (denominator self) (f (known self)) (running self).

Definition with_running (f : option bool -> option bool) (self : t) : t :=
  mk (name self) (arguments self) (unique self) (handle self) (connection self) (data self) (exception self) (warning self) (complete self) (failure self) (numerator self) (denominator self) (known self) (f (running self)).

End Job.

Module WorkerJob.

Record t : Type := mk {
  handle : bytes;
  name : bytes;
  arguments : bytes;
  unique : option bytes;
  connection : option nat;
}.

(** [WorkerJob.__init__(handle, name, arguments, unique)]. *)
Definition init (handle name arguments : bytes) (unique : option bytes) : t :=
  mk handle name arguments unique None.

Definition set_connection (c : nat) (self : t) : t :=
  mk (handle self) (name self) (arguments self) (unique self) (Some c).

End WorkerJob.

Module Task.

Inductive class : Type :=
  | SubmitJobTask (job : nat)
  | OptionReqTask.

Record t : Type := mk {
  cls : class;
  _wait_event : bool;
}.

Definition init (c : class) : t := mk c false.

Definition setComplete (self : t) : t := mk (cls self) true.

End Task.

Module Condition.

(** A [threading.Condition]: what matters of it is whether its waiters
    have been notified. *)
Record t : Type := mk {
  notified : bool;
}.

Definition init : t := mk false.

(** [notifyAll] as the threading module has it: it raises RuntimeError
    (cannot notify on un-acquired lock) unless the calling thread holds
    the lock of the condition. *)
Definition notifyAll (owned : bool) (self : t) : result t :=
  if owned then Ok (mk true) else Raise RuntimeError.

End Condition.

Module Socket.

(** The socket of a connection, seen from this side: [sent] holds the
    argument of every successful [send], [incoming] what the successive
    calls of [recv(4096)] return (so each element has at most 4096 bytes,
    and [b''] means that the peer closed), [broken] makes [send] raise
    socket.error. *)
Record t : Type := mk {
  sent : list bytes;
  incoming : list bytes;
  broken : bool;
}.

Definition with_sent (f : list bytes -> list bytes) (self : t) : t :=
  mk (f (sent self)) (incoming self) (broken self).

Definition with_incoming (f : list bytes -> list bytes) (self : t) : t :=
  mk (sent self) (f (incoming self)) (broken self).

Definition with_broken (f : bool -> bool) (self : t) : t :=
  mk (sent self) (incoming self) (f (broken self)).

End Socket.

Module Connection.

(** The host, port and TLS attributes, the lock and the timestamps are
    left out. *)
Record t : Type := mk {
  conn : option Socket.t;
  connected : bool;
  input_buffer : bytes;
  need_bytes : bool;
  related_jobs : gmap bytes nat;
  pending_tasks : list nat;
  admin_requests : list nat;
  echo_conditions : gmap bytes Condition.t;
  options : gset bytes;
  state : string;
}.

Definition with_conn (f : option Socket.t -> option Socket.t) (self : t) : t :=
  mk (f (conn self)) (connected self) (input_buffer self) (need_bytes self) (related_jobs self) (pending_tasks self) (admin_requests self) (echo_conditions self) (options self) (state self).

Definition with_connected (f : bool -> bool) (self : t) : t :=
  mk (conn self) (f (connected self)) (input_buffer self) (need_bytes self) (related_jobs self) (pending_tasks self) (admin_requests self) (echo_conditions self) (options self) (state self).

Definition with_input_buffer (f : bytes -> bytes) (self : t) : t :=
  mk (conn self) (connected self) (f (input_buffer self)) (need_bytes self) (related_jobs self) (pending_tasks self) (admin_requests self) (echo_conditions self) (options self) (state self).

Definition with_need_bytes (f : bool -> bool) (self : t) : t :=
  mk (conn self) (connected self) (input_buffer self) (f (need_bytes self)) (related_jobs self) (pending_tasks self) (admin_requests self) (echo_conditions self) (options self) (state self).

Definition with_related_jobs (f : gmap bytes nat -> gmap bytes nat) (self : t) : t :=
  mk (conn self) (connected self) (input_buffer self) (need_bytes self) (f (related_jobs self)) (pending_tasks self) (admin_requests self) (echo_conditions self) (options self) (state self).

Definition with_pending_tasks (f : list nat -> list nat) (self : t) : t :=
  mk (conn self) (connected self) (input_buffer self) (need_bytes self) (related_jobs self) (f (pending_tasks self)) (admin_requests self) (echo_conditions self) (options self) (state self).

Definition with_admin_requests (f : list nat -> list nat) (self : t) : t :=
  mk (conn self) (connected self) (input_buffer self) (need_bytes self) (related_jobs self) (pending_tasks self) (f (admin_requests self)) (echo_conditions self) (options self) (state self).

Definition with_echo_conditions (f : gmap bytes Condition.t -> gmap bytes Condition.t) (self : t) : t :=
  mk (conn self) (connected self) (input_buffer self) (need_bytes self) (related_jobs self) (pending_tasks self) (admin_requests self) (f (echo_conditions self)) (options self) (state self).

Definition with_options (f : gset bytes -> gset bytes) (self : t) : t :=
  mk (conn self) (connected self) (input_buffer self) (need_bytes self) (related_jobs self) (pending_tasks self) (admin_requests self) (echo_conditions self) (f (options self)) (state self).

Definition with_state (f : string -> string) (self : t) : t :=
  mk (conn self) (connected self) (input_buffer self) (need_bytes self) (related_jobs self) (pending_tasks self) (admin_requests self) (echo_conditions self) (options self) (f (state self)).

End Connection.

Module FunctionRecord.

Record t : Type := mk {
  name : bytes;
  timeout : option bytes;
}.

End FunctionRecord.

(** ** The object graph

    A [World] is one [Client] or [Worker] instance ([role] is its class)
    with the objects it reaches: its connections, the jobs and tasks of its
    callers, the administrative requests in flight. The attributes of
    [BaseClientServer], [BaseClient], [Client] and [Worker] are the fields;
    the threads, the locks, the wake pipe and the loggers are left out. *)

Inductive Role : Type := ClientRole | WorkerRole.

Record World : Type := mkWorld {
  role : Role;
  client_id : option bytes;
  running : bool;
  connections : gmap nat Connection.t;
  active_connections : list nat;
  inactive_connections : list nat;
  connection_index : Z;
  jobs : gmap nat Job.t;
  tasks : gmap nat Task.t;
  admins : gmap nat AdminRequest.t;
  options : gset bytes;
  worker_id : option bytes;
  functions : gmap bytes FunctionRecord.t;
  waiting_for_jobs : Z;
  job_queue : list (option WorkerJob.t);
}.

Definition with_role (f : Role -> Role) (self : World) : World :=
  mkWorld (f (role self)) (client_id self) (running self) (connections self) (active_connections self) (inactive_connections self) (connection_index self) (jobs self) (tasks self) (admins self) (options self) (worker_id self) (functions self) (waiting_for_jobs self) (job_queue self).

Definition with_client_id (f : option bytes -> option bytes) (self : World) : World :=
  mkWorld (role self) (f (client_id self)) (running self) (connections self) (active_connections self) (inactive_connections self) (connection_index self) (jobs self) (tasks self) (admins self) (options self) (worker_id self) (functions self) (waiting_for_jobs self) (job_queue self).

Definition with_running (f : bool -> bool) (self : World) : World :=
  mkWorld (role self) (client_id self) (f (running self)) (connections self) (active_connections self) (inactive_connections self) (connection_index self) (jobs self) (tasks self) (admins self) (options self) (worker_id self) (functions self) (waiting_for_jobs self) (job_queue self).

Definition with_connections (f : gmap nat Connection.t -> gmap nat Connection.t) (self : World) : World :=
  mkWorld (role self) (client_id self) (running self) (f (connections self)) (active_connections self) (inactive_connections self) (connection_index self) (jobs self) (tasks self) (admins self) (options self) (worker_id self) (functions self) (waiting_for_jobs self) (job_queue self).

Definition with_active_connections (f : list nat -> list nat) (self : World) : World :=
  mkWorld (role self) (client_id self) (running self) (connections self) (f (active_connections self)) (inactive_connections self) (connection_index self) (jobs self) (tasks self) (admins self) (options self) (worker_id self) (functions self) (waiting_for_jobs self) (job_queue self).

Definition with_inactive_connections (f : list nat -> list nat) (self : World) : World :=
  mkWorld (role self) (client_id self) (running self) (connections self) (active_connections self) (f (inactive_connections self)) (connection_index self) (jobs self) (tasks self) (admins self) (options self) (worker_id self) (functions self) (waiting_for_jobs self) (job_queue self).

Definition with_connection_index (f : Z -> Z) (self : World) : World :=
  mkWorld (role self) (client_id self) (running self) (connections self) (active_connections self) (inactive_connections self) (f (connection_index self)) (jobs self) (tasks self) (admins self) (options self) (worker_id self) (functions self) (waiting_for_jobs self) (job_queue self).

Definition with_jobs (f : gmap nat Job.t -> gmap nat Job.t) (self : World) : World :=
  mkWorld (role self) (client_id self) (running self) (connections self) (active_connections self) (inactive_connections self) (connection_index self) (f (jobs self)) (tasks self) (admins self) (options self) (worker_id self) (functions self) (waiting_for_jobs self) (job_queue self).

Definition with_tasks (f : gmap nat Task.t -> gmap nat Task.t) (self : World) : World :=
  mkWorld (role self) (client_id self) (running self) (connections self) (active_connections self) (inactive_connections self) (connection_index self) (jobs self) (f (tasks self)) (admins self) (options self) (worker_id self) (functions self) (waiting_for_jobs self) (job_queue self).

Definition with_admins (f : gmap nat AdminRequest.t -> gmap nat AdminRequest.t) (self : World) : World :=
  mkWorld (role self) (client_id self) (running self) (connections self) (active_connections self) (inactive_connections self) (connection_index self) (jobs self) (tasks self) (f (admins self)) (options self) (worker_id self) (functions self) (waiting_for_jobs self) (job_queue self).

Definition with_options (f : gset bytes -> gset bytes) (self : World) : World :=
  mkWorld (role self) (client_id self) (running self) (connections self) (active_connections self) (inactive_connections self) (connection_index self) (jobs self) (tasks self) (admins self) (f (options self)) (worker_id self) (functions self) (waiting_for_jobs self) (job_queue self).

Definition with_worker_id (f : option bytes -> option bytes) (self : World) : World :=
  mkWorld (role self) (client_id self) (running self) (connections self) (active_connections self) (inactive_connections self) (connection_index self) (jobs self) (tasks self) (admins self) (options self) (f (worker_id self)) (functions self) (waiting_for_jobs self) (job_queue self).

Definition with_functions (f : gmap bytes FunctionRecord.t -> gmap bytes FunctionRecord.t) (self : World) : World :=
  mkWorld (role self) (client_id self) (running self) (connections self) (active_connections self) (inactive_connections self) (connection_index self) (jobs self) (tasks self) (admins self) (options self) (worker_id self) (f (functions self)) (waiting_for_jobs self) (job_queue self).

Definition with_waiting_for_jobs (f : Z -> Z) (self : World) : World :=
  mkWorld (role self) (client_id self) (running self) (connections self) (active_connections self) (inactive_connections self) (connection_index self) (jobs self) (tasks self) (admins self) (options self) (worker_id self) (functions self) (f (waiting_for_jobs self)) (job_queue self).

Definition with_job_queue (f : list (option WorkerJob.t) -> list (option WorkerJob.t)) (self : World) : World :=
  mkWorld (role self) (client_id self) (running self) (connections self) (active_connections self) (inactive_connections self) (connection_index self) (jobs self) (tasks self) (admins self) (options self) (worker_id self) (functions self) (waiting_for_jobs self) (f (job_queue self)).

(** Attribute access through a reference. [NoSuchObject] is the model's
    own: a reference outside its heap, which Python cannot produce. *)
Definition the_connection (c : nat) : M World Connection.t :=
  fun w => match connections w !! c with
           | Some x => (Ok x, w)
           | None => (Raise NoSuchObject, w)
           end.

Definition the_job (j : nat) : M World Job.t :=
  fun w => match jobs w !! j with
           | Some x => (Ok x, w)
           | None => (Raise NoSuchObject, w)
           end.

Definition the_task (t : nat) : M World Task.t :=
  fun w => match tasks w !! t with
           | Some x => (Ok x, w)
           | None => (Raise NoSuchObject, w)
           end.

Definition the_admin (a : nat) : M World AdminRequest.t :=
  fun w => match admins w !! a with
           | Some x => (Ok x, w)
           | None => (Raise NoSuchObject, w)
           end.

Definition update_connection (c : nat) (f : Connection.t -> Connection.t) : M World unit :=
  modify (with_connections (alter f c)).

Definition update_job (j : nat) (f : Job.t -> Job.t) : M World unit :=
  modify (with_jobs (alter f j)).

Definition update_task (t : nat) (f : Task.t -> Task.t) : M World unit :=
  modify (with_tasks (alter f t)).

Definition update_admin (a : nat) (f : AdminRequest.t -> AdminRequest.t) : M World unit :=
  modify (with_admins (alter f a)).

(** A new object on the task heap. *)
Definition new_task (t : Task.t) : M World nat :=
  fun w => let r := fresh (dom (tasks w)) in
           (Ok r, with_tasks (insert r t) w).

(** Lifting a result that does not touch the state. *)
Definition lift {S A} (r : result A) : M S A := fun s => (r, s).

(** What the other threads do while the calling thread is blocked in a
    wait: a blocking method takes it as an argument and lets it run at the
    wait. *)
Definition Interleaving : Type := World -> World.

Definition blocked (during : Interleaving) : M World unit := modify during.

(** ** Constants *)

Definition PRECEDENCE_NORMAL : Z := 0.
Definition PRECEDENCE_LOW : Z := 1.
Definition PRECEDENCE_HIGH : Z := 2.

Module constants.

(** Modelled from the spec: the module [gear/constants.py] is not among
    the sources. The two magic codes are the ones the data model gives,
    [\x00REQ] and [\x00RES]. *)
Definition REQ : bytes := NUL :: b "REQ".
Definition RES : bytes := NUL :: b "RES".

(** The numeric packet types that the methods below use are taken as
    parameters: nothing here depends on their values, except that a
    packet can only be packed when its type is a 32-bit integer. *)
Record t : Type := mk {
  PRE_SLEEP : Z;
  SUBMIT_JOB : Z;
  SUBMIT_JOB_BG : Z;
  SUBMIT_JOB_HIGH : Z;
  SUBMIT_JOB_HIGH_BG : Z;
  SUBMIT_JOB_LOW : Z;
  SUBMIT_JOB_LOW_BG : Z;
  ECHO_REQ : Z;
  OPTION_REQ : Z;
  GRAB_JOB_UNIQ : Z;
}.

Definition all (K : t) : list Z :=
  [PRE_SLEEP K; SUBMIT_JOB K; SUBMIT_JOB_BG K; SUBMIT_JOB_HIGH K;
   SUBMIT_JOB_HIGH_BG K; SUBMIT_JOB_LOW K; SUBMIT_JOB_LOW_BG K;
   ECHO_REQ K; OPTION_REQ K; GRAB_JOB_UNIQ K].

Definition int32 (K : t) : bool := forallb is_int32 (all K).

End constants.

(** ** Connection *)

Module RP.

(** The local variables of [Connection.readPacket], with the two pieces
    of state that its loop changes besides the socket: the queue of
    outstanding administrative requests and the request objects. *)
Record t : Type := mk {
  raw_bytes : bytes;
  need_bytes : bool;
  admin : option bool;
  admin_request : option nat;
  header : option (bytes * Z * Z);   (* code, ptype, datalen *)
  admin_requests : list nat;
  admins : gmap nat AdminRequest.t;
}.

Inductive exit : Type :=
  | Returns (v : option (Packet.t + nat))
  | Raises (e : exn).

Definition set_raw (r : bytes) (s : t) : t :=
  mk r (need_bytes s) (admin s) (admin_request s) (header s)
     (admin_requests s) (admins s).

Definition set_need (n : bool) (s : t) : t :=
  mk (raw_bytes s) n (admin s) (admin_request s) (header s)
     (admin_requests s) (admins s).

Definition set_header (h : option (bytes * Z * Z)) (s : t) : t :=
  mk (raw_bytes s) (need_bytes s) (admin s) (admin_request s) h
     (admin_requests s) (admins s).

(** [admin = False]. *)
Definition set_binary (s : t) : t :=
  mk (raw_bytes s) (need_bytes s) (Some false) (admin_request s) (header s)
     (admin_requests s) (admins s).

(** [admin = True; admin_request = self._getAdminRequest()], the queue
    being [a :: rest]. *)
Definition set_admin (a : nat) (rest : list nat) (s : t) : t :=
  mk (raw_bytes s) (need_bytes s) (Some true) (Some a) (header s)
     rest (admins s).

Definition set_admins (h : gmap nat AdminRequest.t) (s : t) : t :=
  mk (raw_bytes s) (need_bytes s) (admin s) (admin_request s) (header s)
     (admin_requests s) h.

(** [self._putAdminRequest(req)]. *)
Definition putAdminRequest (a : nat) (s : t) : t :=
  mk (raw_bytes s) (need_bytes s) (admin s) (admin_request s) (header s)
     (a :: admin_requests s) (admins s).

(** The part of the loop body after the read, lines [if admin is None:]
    to the two [return]s: [Some e] leaves the loop, [None] falls through
    to [need_bytes = True]. *)
Definition frame (s : t) : option exit * t :=
  let r :=
    match admin s with
    | Some _ => Ok s
    | None =>
        if decide (slice (Some 0) (Some 1) (raw_bytes s) = [NUL])
        then Ok (set_binary s)
        else match admin_requests s with
             | a :: rest => Ok (set_admin a rest s)
             | [] => Raise IndexError          (* pop from empty list *)
             end
    end in
  match r with
  | Raise e => (Some (Raises e), s)
  | Ok s =>
      if default false (admin s) then
        match admin_request s with
        | Some a =>
            match admins s !! a with
            | Some req =>
                let '((complete, remainder), req') :=
                  AdminRequest.isComplete req (raw_bytes s) in
                let s := set_raw remainder (set_admins (<[a := req']> (admins s)) s) in
                if complete then (Some (Returns (Some (inr a))), s)
                else (None, s)
            | None => (Some (Raises NoSuchObject), s)
            end
        | None => (Some (Raises AttributeError), s)
        end
      else
        let length := len (raw_bytes s) in
        let r :=
          match header s with
          | None =>
              if 12 <=? length then
                match unpack_4sii (slice None (Some 12) (raw_bytes s)) with
                | Some h => Ok (set_header (Some h) s)
                | None => Raise StructError
                end
              else Ok s
          | Some _ => Ok s
          end in
        match r with
        | Raise e => (Some (Raises e), s)
        | Ok s =>
            let datalen := match header s with Some (_, _, d) => d | None => 0 end in
            if datalen + 12 <=? length then
              let end_ := 12 + datalen in
              match header s with
              | Some (code, ptype, _) =>
                  match Packet.init code ptype
                          (slice (Some 12) (Some end_) (raw_bytes s)) with
                  | Ok p =>
                      (Some (Returns (Some (inl p))),
                       set_raw (slice (Some end_) None (raw_bytes s)) s)
                  | Raise e => (Some (Raises e), s)
                  end
              | None => (Some (Raises TypeError), s)   (* Packet(None, ...) *)
              end
            else (None, s)
        end
  end.

(** The iterations that start with a read, [segs] being what the socket
    still has to deliver. When it has nothing more, [recv] stops the
    loop with [stall]: a reader that does not block raises RetryIOError
    there (a blocking one waits for the next segment, which is this loop
    with a longer [segs]). *)
Fixpoint loop (stall : exn) (segs : list bytes) (s : t) : exit * t * list bytes :=
  match segs with
  | [] =>
      let s := if decide (stall = RetryIOError)
               then match admin_request s with
                    | Some a => putAdminRequest a s
                    | None => s
                    end
               else s in
      (Raises stall, s, [])
  | segment :: segs' =>
      if truthy segment then
        let s := set_need false (set_raw (raw_bytes s ++ segment) s) in
        match frame s with
        | (Some e, s) => (e, s, segs')
        | (None, s) => loop stall segs' (set_need true s)
        end
      else (Returns None, s, segs')
  end.

(** The whole [while True:]: the first iteration reads only when the
    buffer is empty or a frame is in progress. *)
Definition run (stall : exn) (segs : list bytes) (s : t) : exit * t * list bytes :=
  if negb (truthy (raw_bytes s)) || need_bytes s then loop stall segs s
  else match frame s with
       | (Some e, s) => (e, s, segs)
       | (None, s) => loop stall segs (set_need true s)
       end.

End RP.

Section Gear.

Variable K : constants.t.

(** [Connection.changeState]. *)
Definition Connection_changeState (self : nat) (state : string) : M World unit :=
  update_connection self (Connection.with_state (fun _ => state)).

(** [Connection.sendRaw]; without TLS the loop runs once. *)
Definition Connection_sendRaw (self : nat) (data : bytes) : M World unit :=
  conn ← the_connection self;
  match Connection.conn conn with
  | None => raise AttributeError
  | Some s =>
      if Socket.broken s then raise SocketError
      else update_connection self
             (Connection.with_conn
                (fmap (Socket.with_sent (fun l => l ++ [data]))))
  end.

(** [Connection.sendPacket]. *)
Definition Connection_sendPacket (self : nat) (packet : Packet.t) : M World unit :=
  match Packet.toBinary packet with
  | Some bs => Connection_sendRaw self bs
  | None => raise StructError
  end.

(** [Connection.readPacket]: the result is [None] when the peer closed,
    a packet, or the reference of the administrative request whose
    response is complete. The [finally] clause stores the buffer and
    [need_bytes] on every way out. *)
Definition Connection_readPacket (self : nat) : M World (option (Packet.t + nat)) :=
  fun w =>
    match connections w !! self with
    | None => (Raise NoSuchObject, w)
    | Some conn =>
        let s := RP.mk (Connection.input_buffer conn) (Connection.need_bytes conn)
                   None None None (Connection.admin_requests conn) (admins w) in
        let '(stall, segs) :=
          match Connection.conn conn with
          | Some sock => (RetryIOError, Socket.incoming sock)
          | None => (AttributeError, [])
          end in
        let '(e, s, segs) := RP.run stall segs s in
        let conn :=
          Connection.with_input_buffer (fun _ => RP.raw_bytes s)
            (Connection.with_need_bytes (fun _ => RP.need_bytes s)
               (Connection.with_admin_requests (fun _ => RP.admin_requests s)
                  (Connection.with_conn
                     (fmap (Socket.with_incoming (fun _ => segs))) conn))) in
        let w := with_admins (fun _ => RP.admins s)
                   (with_connections (<[self := conn]>) w) in
        match e with
        | RP.Returns v => (Ok v, w)
        | RP.Raises e => (Raise e, w)
        end
    end.

(** [Connection.hasPendingData]. *)
Definition Connection_hasPendingData (self : nat) : M World bool :=
  conn ← the_connection self;
  mret (truthy (Connection.input_buffer conn)).

(** The reads that [_pollLoop] makes on one connection, with the results
    collected instead of dispatched: [readPacket] is called as long as the
    socket is readable (the POLLIN event) or the buffer has pending data,
    and a [None] ends the polling of the connection. [fuel] bounds the
    number of reads. *)
Fixpoint readPackets (fuel : nat) (self : nat) : M World (list (Packet.t + nat)) :=
  match fuel with
  | O => raise OutOfFuel
  | S fuel =>
      conn ← the_connection self;
      let readable := match Connection.conn conn with
                      | Some sock => truthy (Socket.incoming sock)
                      | None => false
                      end in
      pending ← Connection_hasPendingData self;
      if pending || readable then
        p ← Connection_readPacket self;
        match p with
        | Some x =>
            rest ← readPackets fuel self;
            mret (x :: rest)
        | None => mret []
        end
      else mret []
  end.

(** The byte stream of a sequence of packets: their [toBinary] images,
    one after the other. *)
Fixpoint toBinary_all (ps : list Packet.t) : option bytes :=
  match ps with
  | [] => Some []
  | p :: ps' =>
      match Packet.toBinary p, toBinary_all ps' with
      | Some e, Some r => Some (e ++ r)
      | _, _ => None
      end
  end.

(** [Connection.sendAdminRequest]; [during] is what happens while the
    caller waits for the event of the request. *)
Definition Connection_sendAdminRequest (self : nat) (request : nat)
    (during : Interleaving) : M World unit :=
  update_connection self (Connection.with_admin_requests (fun l => l ++ [request]));;
  req ← the_admin request;
  Connection_sendRaw self (AdminRequest.getCommand req);;
  blocked during;;
  req ← the_admin request;
  let complete := AdminRequest.wait_event req in
  if negb complete then raise TimeoutError else mret tt.

(** [Connection.sendEchoReq]. *)
Definition Connection_sendEchoReq (self : nat) (data : bytes) : M World unit :=
  p ← lift (Packet.init constants.REQ (constants.ECHO_REQ K) data);
  Connection_sendPacket self p.

(** [Connection.echo] for a given payload; [during] is what happens while
    the caller waits on the condition. *)
Definition Connection_echo (self : nat) (data : bytes)
    (during : Interleaving) : M World bytes :=
  conn ← the_connection self;
  (if decide (is_Some (Connection.echo_conditions conn !! data))
   then raise InvalidDataError else mret tt);;
  let condition := Condition.init in
  update_connection self
    (Connection.with_echo_conditions (<[data := condition]>));;
  Connection_sendEchoReq self data;;
  blocked during;;
  conn ← the_connection self;
  if decide (is_Some (Connection.echo_conditions conn !! data))
  then mret data
  else raise TimeoutError.

(** [Connection.handleEchoRes]. The handler runs in the poll thread, which
    does not hold the lock of the condition when it notifies. *)
Definition Connection_handleEchoRes (self : nat) (data : bytes) : M World bool :=
  conn ← the_connection self;
  let condition := Connection.echo_conditions conn !! data in
  match condition with
  | Some _ => update_connection self (Connection.with_echo_conditions (delete data))
  | None => mret tt
  end;;
  match condition with
  | None => mret false
  | Some cond =>
      _ ← lift (Condition.notifyAll false cond);
      mret true
  end.

(** [Connection.handleOptionRes]. *)
Definition Connection_handleOptionRes (self : nat) (option : bytes) : M World unit :=
  update_connection self (Connection.with_options (fun s => {[option]} ∪ s)).

(** ** BaseClient: the connection pool *)

(** [list.remove(x)]: the first occurrence goes. *)
Fixpoint remove_first (x : nat) (l : list nat) : list nat :=
  match l with
  | [] => []
  | y :: l' => if decide (y = x) then l' else y :: remove_first x l'
  end.

(** [seq[i]] for a computed integer [i]: a negative index counts from the
    end; [None] stands for IndexError. *)
Definition pyindex {A} (l : list A) (i : Z) : option A :=
  if i <? 0 then (if 0 <=? i + len l then l !! Z.to_nat (i + len l) else None)
  else l !! Z.to_nat i.

(** [self.handleDisconnect(job)]: [Client] defines it (it returns the
    job); [Worker] inherits none. *)
Definition handleDisconnect (job : nat) : M World unit :=
  w ← get;
  match role w with
  | ClientRole => mret tt
  | WorkerRole => raise AttributeError
  end.

Fixpoint for_each {A} (l : list A) (body : A -> M World unit) : M World unit :=
  match l with
  | [] => mret tt
  | x :: l' => body x;; for_each l' body
  end.

(** [BaseClientServer._lostConnection]. *)
Definition _lostConnection (conn : nat) : M World unit :=
  c ← the_connection conn;
  let jobs := (map_to_list (Connection.related_jobs c)).*2 in
  modify (fun w =>
    let w := if decide (conn ∈ active_connections w)
             then with_active_connections (remove_first conn) w else w in
    if decide (conn ∈ inactive_connections w) then w
    else with_inactive_connections (fun l => l ++ [conn]) w);;
  for_each jobs handleDisconnect.

(** [BaseClient.getConnection]. *)
Definition getConnection : M World nat :=
  w ← get;
  if negb (truthy (active_connections w))
  then raise NoConnectedServersError
  else
    modify (with_connection_index (fun i => i + 1));;
    w ← get;
    (if len (active_connections w) <=? connection_index w
     then modify (with_connection_index (fun _ => 0)) else mret tt);;
    w ← get;
    match pyindex (active_connections w) (connection_index w) with
    | Some conn => mret conn
    | None => raise IndexError
    end.

(** [k] calls of [getConnection] in a row, with the connections they
    return. *)
Fixpoint getConnection_times (k : nat) : M World (list nat) :=
  match k with
  | O => mret []
  | S k =>
      conn ← getConnection;
      conns ← getConnection_times k;
      mret (conn :: conns)
  end.

(** [BaseClient.sendPacket]. *)
Definition sendPacket (packet : Packet.t) (connection : nat) : M World unit :=
  try_except (Connection_sendPacket connection packet)
    (fun e => _lostConnection connection;; raise e).

(** [BaseClient.broadcast]. *)
Definition broadcast (packet : Packet.t) : M World unit :=
  w ← get;
  let connections := active_connections w in
  for_each connections (fun connection =>
    try_except (sendPacket packet connection) (fun _ => mret tt)).

(** [BaseClient.handleEchoRes]; [connection] is [packet.connection]. *)
Definition handleEchoRes (connection : nat) (packet : Packet.t) : M World unit :=
  data ← lift (Packet.getArgument packet 0 true);
  _ ← Connection_handleEchoRes connection data;
  mret tt.

(** [BaseClient.handleError]. *)
Definition handleError (connection : nat) (packet : Packet.t) : M World unit :=
  _ ← lift (Packet.getArgument packet 0 false);
  _ ← lift (Packet.getArgument packet 1 false);
  try_except
    (c ← the_connection connection;
     match Connection.pending_tasks c with
     | task :: rest =>
         update_connection connection (Connection.with_pending_tasks (fun _ => rest));;
         _ ← the_task task;
         update_task task Task.setComplete
     | [] => raise IndexError
     end)
    (fun _ => _lostConnection connection).

(** ** Client *)

(** [Client._setOptionConnection]: the task, or [None] when the send
    failed. *)
Definition _setOptionConnection (name : bytes) (conn : nat) : M World (option nat) :=
  packet ← lift (Packet.init constants.REQ (constants.OPTION_REQ K) name);
  task ← new_task (Task.init Task.OptionReqTask);
  try_except
    (update_connection conn (Connection.with_pending_tasks (fun l => l ++ [task]));;
     sendPacket packet conn;;
     mret (Some task))
    (fun _ => mret None).

(** The first loop of [Client.setOption]; [tasks] is the dictionary from
    task to connection, in insertion order. *)
Fixpoint setOption_send (name : bytes) (connections : list nat)
    (tasks : list (nat * nat)) : M World (list (nat * nat)) :=
  match connections with
  | [] => mret tasks
  | connection :: rest =>
      task ← _setOptionConnection name connection;
      setOption_send name rest
        (match task with
         | Some t => tasks ++ [(t, connection)]
         | None => tasks
         end)
  end.

(** The second loop of [Client.setOption]; the head of [durings] is what
    happens during the wait on the first task. *)
Fixpoint setOption_wait (name : bytes) (tasks : list (nat * nat))
    (durings : list Interleaving) (success : bool) : M World bool :=
  match tasks with
  | [] => mret success
  | (task, conn) :: rest =>
      blocked (hd id durings);;
      t ← the_task task;
      let complete := Task._wait_event t in
      if negb complete then
        _lostConnection conn;;
        setOption_wait name rest (tl durings) success
      else
        c ← the_connection conn;
        setOption_wait name rest (tl durings)
          (if decide (name ∈ Connection.options c) then success else false)
  end.

(** [Client.setOption]. *)
Definition setOption (name : bytes) (durings : list Interleaving) : M World bool :=
  modify (with_options (fun s => {[name]} ∪ s));;
  w ← get;
  let connections := active_connections w in
  tasks ← setOption_send name connections [];
  setOption_wait name tasks durings true.

(** [Client.submitJob], up to the construction of the packet. *)
Definition submitJob_packet (job : Job.t) (background : bool) (precedence : Z)
    : result Packet.t :=
  let unique := match Job.unique job with
                | None => []
                | Some u => u
                end in
  let data := join [NUL] [Job.name job; unique; Job.arguments job] in
  let cmd :=
    if background then
      if precedence =? PRECEDENCE_NORMAL then Ok (constants.SUBMIT_JOB_BG K)
      else if precedence =? PRECEDENCE_LOW then Ok (constants.SUBMIT_JOB_LOW_BG K)
      else if precedence =? PRECEDENCE_HIGH then Ok (constants.SUBMIT_JOB_HIGH_BG K)
      else Raise ConfigurationError
    else
      if precedence =? PRECEDENCE_NORMAL then Ok (constants.SUBMIT_JOB K)
      else if precedence =? PRECEDENCE_LOW then Ok (constants.SUBMIT_JOB_LOW K)
      else if precedence =? PRECEDENCE_HIGH then Ok (constants.SUBMIT_JOB_HIGH K)
      else Raise ConfigurationError in
  match cmd with
  | Ok cmd => Packet.init constants.REQ cmd data
  | Raise e => Raise e
  end.

(** One turn of the loop of [Client.submitJob], from [getConnection] to
    the send: the connection, the task, and whether the send went
    through. *)
Definition submitJob_send (job : nat) (packet : Packet.t) : M World (nat * nat * bool) :=
  conn ← getConnection;
  task ← new_task (Task.init (Task.SubmitJobTask job));
  update_connection conn (Connection.with_pending_tasks (fun l => l ++ [task]));;
  sent ← try_except (sendPacket packet conn;; mret true) (fun _ => mret false);
  mret (conn, task, sent).

(** The rest of the turn, once [task.wait(timeout)] is over: [true] is
    the [return], [false] a [continue]. *)
Definition submitJob_finish (job conn task : nat) : M World bool :=
  t ← the_task task;
  let complete := Task._wait_event t in
  if negb complete then
    _lostConnection conn;;
    mret false
  else
    j ← the_job job;
    if negb (truthy (default [] (Job.handle j))) then mret false
    else
      update_job job (Job.with_connection (fun _ => Some conn));;
      mret true.

(** The loop of [Client.submitJob]; [fuel] bounds the number of turns,
    the head of [durings] is what happens during the next wait. *)
Fixpoint submitJob_loop (fuel : nat) (job : nat) (packet : Packet.t)
    (attempted_connections : gset nat) (durings : list Interleaving) : M World unit :=
  match fuel with
  | O => raise OutOfFuel
  | S fuel =>
      w ← get;
      if decide (attempted_connections = list_to_set (active_connections w))
      then raise GearmanError
      else
        '(conn, task, sent) ← submitJob_send job packet;
        let attempted_connections := {[conn]} ∪ attempted_connections in
        if negb sent
        then submitJob_loop fuel job packet attempted_connections durings
        else
          blocked (hd id durings);;
          returned ← submitJob_finish job conn task;
          if returned : bool then ret tt
          else submitJob_loop fuel job packet attempted_connections (tl durings)
  end.

(** [Client.submitJob]. *)
Definition submitJob (fuel : nat) (job : nat) (background : bool) (precedence : Z)
    (durings : list Interleaving) : M World unit :=
  j ← the_job job;
  packet ← lift (submitJob_packet j background precedence);
  submitJob_loop fuel job packet ∅ durings.

(** [Packet.getJob]; [connection] is [packet.connection]. *)
Definition Packet_getJob (connection : nat) (packet : Packet.t) : M World nat :=
  handle ← lift (Packet.getArgument packet 0 false);
  c ← the_connection connection;
  match Connection.related_jobs c !! handle with
  | Some job => mret job
  | None => raise UnknownJobError
  end.

(** [del packet.connection.related_jobs[job.handle]]. *)
Definition del_related_jobs (connection : nat) (handle : option bytes) : M World unit :=
  c ← the_connection connection;
  match handle with
  | Some h =>
      if decide (is_Some (Connection.related_jobs c !! h))
      then update_connection connection (Connection.with_related_jobs (delete h))
      else raise KeyError
  | None => raise KeyError
  end.

(** [Client.handleJobCreated]. *)
Definition handleJobCreated (connection : nat) (packet : Packet.t) : M World nat :=
  c ← the_connection connection;
  match Connection.pending_tasks c with
  | [] => raise IndexError
  | task :: rest =>
      update_connection connection (Connection.with_pending_tasks (fun _ => rest));;
      t ← the_task task;
      match Task.cls t with
      | Task.OptionReqTask =>
          _lostConnection connection;;
          raise GearmanError
      | Task.SubmitJobTask job =>
          update_job job (Job.with_handle (fun _ => Some (Packet.data packet)));;
          update_connection connection
            (Connection.with_related_jobs (<[Packet.data packet := job]>));;
          update_task task Task.setComplete;;
          mret job
      end
  end.

(** [Client.handleWorkComplete]. *)
Definition handleWorkComplete (connection : nat) (packet : Packet.t) : M World nat :=
  job ← Packet_getJob connection packet;
  data ← lift (Packet.getArgument packet 1 true);
  (if truthy data
   then update_job job (Job.with_data (fun l => l ++ [data]))
   else mret tt);;
  update_job job (Job.with_complete (fun _ => true));;
  update_job job (Job.with_failure (fun _ => false));;
  j ← the_job job;
  del_related_jobs connection (Job.handle j);;
  mret job.

(** [Client.handleWorkFail]. *)
Definition handleWorkFail (connection : nat) (packet : Packet.t) : M World nat :=
  job ← Packet_getJob connection packet;
  update_job job (Job.with_complete (fun _ => true));;
  update_job job (Job.with_failure (fun _ => true));;
  j ← the_job job;
  del_related_jobs connection (Job.handle j);;
  mret job.

(** [Client.handleWorkException]. *)
Definition handleWorkException (connection : nat) (packet : Packet.t) : M World nat :=
  job ← Packet_getJob connection packet;
  exception ← lift (Packet.getArgument packet 1 true);
  update_job job (Job.with_exception (fun _ => Some exception));;
  update_job job (Job.with_complete (fun _ => true));;
  update_job job (Job.with_failure (fun _ => true));;
  j ← the_job job;
  del_related_jobs connection (Job.handle j);;
  mret job.

(** [Client.handleWorkData]. *)
Definition handleWorkData (connection : nat) (packet : Packet.t) : M World nat :=
  job ← Packet_getJob connection packet;
  data ← lift (Packet.getArgument packet 1 true);
  (if truthy data
   then update_job job (Job.with_data (fun l => l ++ [data]))
   else mret tt);;
  mret job.

(** [Client.handleWorkWarning]. *)
Definition handleWorkWarning (connection : nat) (packet : Packet.t) : M World nat :=
  job ← Packet_getJob connection packet;
  data ← lift (Packet.getArgument packet 1 true);
  (if truthy data
   then update_job job (Job.with_data (fun l => l ++ [data]))
   else mret tt);;
  update_job job (Job.with_warning (fun _ => true));;
  mret job.

(** [Client.handleOptionRes]. *)
Definition handleOptionRes (connection : nat) (packet : Packet.t) : M World unit :=
  c ← the_connection connection;
  match Connection.pending_tasks c with
  | [] => raise IndexError
  | task :: rest =>
      update_connection connection (Connection.with_pending_tasks (fun _ => rest));;
      t ← the_task task;
      match Task.cls t with
      | Task.SubmitJobTask _ =>
          _lostConnection connection;;
          raise GearmanError
      | Task.OptionReqTask =>
          option ← lift (Packet.getArgument packet 0 false);
          Connection_handleOptionRes connection option;;
          update_task task Task.setComplete
      end
  end.

(** ** Worker *)

(** [Worker.__init__]: the instance, or the exception of the guard. *)
Definition Worker_init (client_id worker_id : option bytes) : result World :=
  if negb (truthy (default [] client_id)) || truthy (default [] worker_id)
  then Raise (Exception "A client_id must be provided")
  else
    let client_id := if truthy (default [] worker_id) then worker_id else client_id in
    Ok {| role := WorkerRole;
          client_id := if truthy (default [] client_id) then client_id else None;
          running := true;
          connections := ∅;
          active_connections := [];
          inactive_connections := [];
          connection_index := -1;
          jobs := ∅;
          tasks := ∅;
          admins := ∅;
          options := ∅;
          worker_id := client_id;
          functions := ∅;
          waiting_for_jobs := 0;
          job_queue := [] |}.

(** [Worker._sendPreSleep]. *)
Definition _sendPreSleep (connection : nat) : M World unit :=
  p ← lift (Packet.init constants.REQ (constants.PRE_SLEEP K) []);
  sendPacket p connection.

(** [Worker._sendGrabJobUniq]. *)
Definition _sendGrabJobUniq (connection : option nat) : M World unit :=
  p ← lift (Packet.init constants.REQ (constants.GRAB_JOB_UNIQ K) []);
  match connection with
  | Some c => sendPacket p c
  | None => broadcast p
  end.

(** [Worker._updateStateMachines]. *)
Definition _updateStateMachines : M World unit :=
  w ← get;
  let connections := active_connections w in
  for_each connections (fun connection =>
    c ← the_connection connection;
    w ← get;
    (if bool_decide (Connection.state c = "IDLE") && (0 <? waiting_for_jobs w)
     then _sendGrabJobUniq (Some connection);;
          Connection_changeState connection "GRAB_WAIT"
     else mret tt);;
    c ← the_connection connection;
    w ← get;
    if negb (bool_decide (Connection.state c = "IDLE")) && (waiting_for_jobs w <? 1)
    then Connection_changeState connection "IDLE"
    else mret tt).

(** [Worker.handleNoop]; [connection] is [packet.connection]. *)
Definition handleNoop (connection : nat) (packet : Packet.t) : M World unit :=
  c ← the_connection connection;
  if bool_decide (Connection.state c = "SLEEP")
  then _sendGrabJobUniq (Some connection);;
       Connection_changeState connection "GRAB_WAIT"
  else mret tt.

(** [Worker.handleNoJob]. *)
Definition handleNoJob (connection : nat) (packet : Packet.t) : M World unit :=
  c ← the_connection connection;
  if bool_decide (Connection.state c = "GRAB_WAIT")
  then _sendPreSleep connection;;
       Connection_changeState connection "SLEEP"
  else mret tt.

(** [Worker._handleJobAssignment]. *)
Definition _handleJobAssignment (connection : nat) (packet : Packet.t)
    (handle name arguments : bytes) (unique : option bytes) : M World unit :=
  let job := WorkerJob.init handle name arguments unique in
  let job := WorkerJob.set_connection connection job in
  Connection_changeState connection "IDLE";;
  modify (with_waiting_for_jobs (fun n => n - 1));;
  modify (with_job_queue (fun q => q ++ [Some job]));;
  _updateStateMachines.

(** [Worker.handleJobAssign]. *)
Definition handleJobAssign (connection : nat) (packet : Packet.t) : M World unit :=
  handle ← lift (Packet.getArgument packet 0 false);
  name ← lift (Packet.getArgument packet 1 false);
  arguments ← lift (Packet.getArgument packet 2 true);
  _handleJobAssignment connection packet handle name arguments None.

(** [Worker.handleJobAssignUnique]. *)
Definition handleJobAssignUnique (connection : nat) (packet : Packet.t) : M World unit :=
  handle ← lift (Packet.getArgument packet 0 false);
  name ← lift (Packet.getArgument packet 1 false);
  unique ← lift (Packet.getArgument packet 2 false);
  let unique := if decide (unique = []) then None else Some unique in
  arguments ← lift (Packet.getArgument packet 3 true);
  _handleJobAssignment connection packet handle name arguments unique.

End Gear.

(** ** The rest of the protocol *)

Module protocol.

(** The packet types that [constants.t] does not hold, with it; as there,
    the numbers are parameters. *)
Record t : Type := mk {
  K : constants.t;
  JOB_CREATED : Z;
  WORK_COMPLETE : Z;
  WORK_FAIL : Z;
  WORK_EXCEPTION : Z;
  WORK_DATA : Z;
  WORK_WARNING : Z;
  WORK_STATUS : Z;
  STATUS_RES : Z;
  GET_STATUS : Z;
  JOB_ASSIGN_UNIQ : Z;
  JOB_ASSIGN : Z;
  NO_JOB : Z;
  NOOP : Z;
  SUBMIT_JOB_SCHED : Z;
  SUBMIT_JOB_EPOCH : Z;
  GRAB_JOB : Z;
  SET_CLIENT_ID : Z;
  CAN_DO : Z;
  CAN_DO_TIMEOUT : Z;
  CANT_DO : Z;
  RESET_ABILITIES : Z;
  ECHO_RES : Z;
  ERROR : Z;
  ALL_YOURS : Z;
  OPTION_RES : Z;
}.

End protocol.

(** [str(n).encode('utf8')] for an integer [n]. *)
Definition str (n : Z) : bytes := b (NilZero.string_of_int (Z.to_int n)).

(** A Python dict keeps its keys in the order of their first insertion:
    [d[k] = v] on an association list. *)
Fixpoint dict_setitem {V} (k : bytes) (v : V) (d : list (bytes * V)) : list (bytes * V) :=
  match d with
  | [] => [(k, v)]
  | (k', v') :: d' =>
      if decide (k' = k) then (k, v) :: d' else (k', v') :: dict_setitem k v d'
  end.

Section Protocol.

Variable P : protocol.t.

(** *** Connection *)

(** [Connection._init], for a connection that exists. *)
Definition Connection__init (self : nat) : M World unit :=
  update_connection self (fun c =>
    Connection.mk None false (Connection.input_buffer c) (Connection.need_bytes c)
      ∅ [] [] ∅ ∅ (Connection.state c));;
  Connection_changeState self "INIT".

(** [Connection.disconnect]: closing the socket cannot fail here. *)
Definition Connection_disconnect (self : nat) : M World unit :=
  _ ← the_connection self;
  Connection__init self.

(** *** BaseClientServer *)

(** [BaseClientServer._defaultPacketHandler]: it logs. *)
Definition _defaultPacketHandler (packet : Packet.t) : M World unit := mret tt.

(** [BaseClientServer.handleAdminRequest]. *)
Definition handleAdminRequest (request : nat) : M World unit :=
  _ ← the_admin request;
  update_admin request AdminRequest.setComplete.

(** *** Client *)

(** [Client.handleWorkStatus]; the attribute [fraction_complete], which
    [Job.t] leaves out, is computed under a [try] that catches every
    exception. *)
Definition handleWorkStatus (connection : nat) (packet : Packet.t) : M World nat :=
  job ← Packet_getJob connection packet;
  numerator ← lift (Packet.getArgument packet 1 false);
  update_job job (Job.with_numerator (fun _ => Some numerator));;
  denominator ← lift (Packet.getArgument packet 2 false);
  update_job job (Job.with_denominator (fun _ => Some denominator));;
  mret job.

(** [Client.handleStatusRes]; [fraction_complete] as above. *)
Definition handleStatusRes (connection : nat) (packet : Packet.t) : M World nat :=
  job ← Packet_getJob connection packet;
  known ← lift (Packet.getArgument packet 1 false);
  update_job job (Job.with_known (fun _ => Some (bool_decide (known = b "1"))));;
  running ← lift (Packet.getArgument packet 2 false);
  update_job job (Job.with_running (fun _ => Some (bool_decide (running = b "1"))));;
  numerator ← lift (Packet.getArgument packet 3 false);
  update_job job (Job.with_numerator (fun _ => Some numerator));;
  denominator ← lift (Packet.getArgument packet 4 false);
  update_job job (Job.with_denominator (fun _ => Some denominator));;
  mret job.

(** *** The dispatch of received packets *)

(** [BaseClientServer.handlePacket], with the handlers that the class of
    the instance resolves to: [Client] and [Worker] override the ones
    named in their branch, [BaseClient] gives both [handleEchoRes] and
    [handleError], and every other handler is the default one. The
    timing report does nothing. *)
Definition handlePacket (connection : nat) (packet : Packet.t) : M World unit :=
  w ← get;
  let ptype := Packet.ptype packet in
  let client (A : Type) (handler : nat -> Packet.t -> M World A) : M World unit :=
    match role w with
    | ClientRole => _ ← handler connection packet; mret tt
    | WorkerRole => _defaultPacketHandler packet
    end in
  let worker (handler : nat -> Packet.t -> M World unit) : M World unit :=
    match role w with
    | ClientRole => _defaultPacketHandler packet
    | WorkerRole => handler connection packet
    end in
  let K := protocol.K P in
  if ptype =? protocol.JOB_CREATED P then client _ (handleJobCreated)
  else if ptype =? protocol.WORK_COMPLETE P then client _ handleWorkComplete
  else if ptype =? protocol.WORK_FAIL P then client _ handleWorkFail
  else if ptype =? protocol.WORK_EXCEPTION P then client _ handleWorkException
  else if ptype =? protocol.WORK_DATA P then client _ handleWorkData
  else if ptype =? protocol.WORK_WARNING P then client _ handleWorkWarning
  else if ptype =? protocol.WORK_STATUS P then client _ handleWorkStatus
  else if ptype =? protocol.STATUS_RES P then client _ handleStatusRes
  else if ptype =? protocol.GET_STATUS P then _defaultPacketHandler packet
  else if ptype =? protocol.JOB_ASSIGN_UNIQ P then worker (handleJobAssignUnique K)
  else if ptype =? protocol.JOB_ASSIGN P then worker (handleJobAssign K)
  else if ptype =? protocol.NO_JOB P then worker (handleNoJob K)
  else if ptype =? protocol.NOOP P then worker (handleNoop K)
  else if ptype =? constants.SUBMIT_JOB K then _defaultPacketHandler packet
  else if ptype =? constants.SUBMIT_JOB_BG K then _defaultPacketHandler packet
  else if ptype =? constants.SUBMIT_JOB_HIGH K then _defaultPacketHandler packet
  else if ptype =? constants.SUBMIT_JOB_HIGH_BG K then _defaultPacketHandler packet
  else if ptype =? constants.SUBMIT_JOB_LOW K then _defaultPacketHandler packet
  else if ptype =? constants.SUBMIT_JOB_LOW_BG K then _defaultPacketHandler packet
  else if ptype =? protocol.SUBMIT_JOB_SCHED P then _defaultPacketHandler packet
  else if ptype =? protocol.SUBMIT_JOB_EPOCH P then _defaultPacketHandler packet
  else if ptype =? constants.GRAB_JOB_UNIQ K then _defaultPacketHandler packet
  else if ptype =? protocol.GRAB_JOB P then _defaultPacketHandler packet
  else if ptype =? constants.PRE_SLEEP K then _defaultPacketHandler packet
  else if ptype =? protocol.SET_CLIENT_ID P then _defaultPacketHandler packet
  else if ptype =? protocol.CAN_DO P then _defaultPacketHandler packet
  else if ptype =? protocol.CAN_DO_TIMEOUT P then _defaultPacketHandler packet
  else if ptype =? protocol.CANT_DO P then _defaultPacketHandler packet
  else if ptype =? protocol.RESET_ABILITIES P then _defaultPacketHandler packet
  else if ptype =? constants.ECHO_REQ K then _defaultPacketHandler packet
  else if ptype =? protocol.ECHO_RES P then handleEchoRes connection packet
  else if ptype =? protocol.ERROR P then handleError connection packet
  else if ptype =? protocol.ALL_YOURS P then _defaultPacketHandler packet
  else if ptype =? constants.OPTION_REQ K then _defaultPacketHandler packet
  else if ptype =? protocol.OPTION_RES P then client _ handleOptionRes
  else mret tt.

(** The part of [BaseClientServer._pollLoop] that serves a connection
    whose socket reported POLLIN: the result tells whether [_pollLoop]
    returns there (it does once the connection is lost) or goes on
    polling. [fuel] bounds the number of reads. *)
Fixpoint _pollLoop_input (fuel : nat) (conn : nat) : M World bool :=
  match fuel with
  | O => raise OutOfFuel
  | S fuel =>
      p ← Connection_readPacket conn;
      match p with
      | None => _lostConnection conn;; mret true
      | Some p =>
          match p with
          | inl packet => handlePacket conn packet
          | inr request => handleAdminRequest request
          end;;
          pending ← Connection_hasPendingData conn;
          if negb pending then mret false else _pollLoop_input fuel conn
      end
  end.

(** The other events of [_pollLoop] on a connection (POLLERR, POLLHUP,
    POLLNVAL). *)
Definition _pollLoop_error (conn : nat) : M World bool :=
  _lostConnection conn;; mret true.

(** [BaseClientServer._shutdown]. *)
Definition BaseClientServer__shutdown : M World unit :=
  modify (with_running (fun _ => false)).

(** [BaseClientServer._cleanup], the two threads having exited. *)
Definition _cleanup : M World unit :=
  w ← get;
  for_each (active_connections w) Connection_disconnect;;
  modify (with_active_connections (fun _ => []));;
  modify (with_inactive_connections (fun _ => [])).

(** *** Worker: the functions *)

(** [Worker._sendCanDo]. *)
Definition _sendCanDo (name : bytes) : M World unit :=
  p ← lift (Packet.init constants.REQ (protocol.CAN_DO P) name);
  broadcast p.

(** [Worker._sendCanDoTimeout]. *)
Definition _sendCanDoTimeout (name timeout : bytes) : M World unit :=
  let data := name ++ [NUL] ++ timeout in
  p ← lift (Packet.init constants.REQ (protocol.CAN_DO_TIMEOUT P) data);
  broadcast p.

(** [Worker._sendCantDo]. *)
Definition _sendCantDo (name : bytes) : M World unit :=
  p ← lift (Packet.init constants.REQ (protocol.CANT_DO P) name);
  broadcast p.

(** [Worker._sendResetAbilities]. *)
Definition _sendResetAbilities : M World unit :=
  p ← lift (Packet.init constants.REQ (protocol.RESET_ABILITIES P) []);
  broadcast p.

(** [Worker.registerFunction], for a name and a timeout that are bytes. *)
Definition registerFunction (name : bytes) (timeout : option bytes) : M World unit :=
  modify (with_functions (<[name := FunctionRecord.mk name timeout]>));;
  if truthy (default [] timeout)
  then _sendCanDoTimeout name (default [] timeout)
  else _sendCanDo name.

(** [Worker.unRegisterFunction]. *)
Definition unRegisterFunction (name : bytes) : M World unit :=
  w ← get;
  (if decide (is_Some (functions w !! name))
   then modify (with_functions (delete name))
   else raise KeyError);;
  _sendCantDo name.

(** [Worker.setFunctions], for a list of [FunctionRecord]s: the second
    loop runs over the values of the new dict, in its order. *)
Definition setFunctions (functions : list FunctionRecord.t) : M World unit :=
  _sendResetAbilities;;
  let d := foldl (fun d f => dict_setitem (FunctionRecord.name f) f d) [] functions in
  modify (with_functions (fun _ => list_to_map d));;
  for_each d.*2 (fun f =>
    if truthy (default [] (FunctionRecord.timeout f))
    then _sendCanDoTimeout (FunctionRecord.name f) (default [] (FunctionRecord.timeout f))
    else _sendCanDo (FunctionRecord.name f)).

(** *** Worker: the queue of jobs *)

(** [self.job_queue.get(False)]: [None] stands for queue.Empty. *)
Definition job_queue_get_nowait : M World (option (option WorkerJob.t)) :=
  w ← get;
  match job_queue w with
  | [] => mret None
  | x :: q => modify (with_job_queue (fun _ => q));; mret (Some x)
  end.

(** [self.job_queue.get()]: the caller blocks while the queue is empty;
    each element of [durings] is what the other threads do during one
    such wait, and a caller that is still blocked after all of them
    stays so. *)
Fixpoint job_queue_get (durings : list Interleaving) : M World (option WorkerJob.t) :=
  w ← get;
  match job_queue w with
  | x :: q => modify (with_job_queue (fun _ => q));; mret x
  | [] =>
      match durings with
      | [] => raise OutOfFuel
      | during :: durings => blocked during;; job_queue_get durings
      end
  end.

(** [Worker.getJob]. *)
Definition getJob (durings : list Interleaving) : M World WorkerJob.t :=
  w ← get;
  (if negb (running w) then raise InterruptedError else mret tt);;
  modify (with_waiting_for_jobs (fun n => n + 1));;
  job ← (x ← job_queue_get_nowait;
         mret (match x with Some job => job | None => None end));
  (if negb (bool_decide (is_Some job)) then _updateStateMachines (protocol.K P)
   else mret tt);;
  job ← (if negb (bool_decide (is_Some job)) then job_queue_get durings
         else mret job);
  match job with
  | None => raise InterruptedError
  | Some job => mret job
  end.

(** The [for] loop of [Worker.stopWaitingForJobs]; [stale connection]
    tells whether [now - connection.state_time > 5]. *)
Fixpoint stopWaitingForJobs_scan (stale : nat -> bool) (connections : list nat)
    (ok : bool) : M World bool :=
  match connections with
  | [] => mret ok
  | connection :: rest =>
      c ← the_connection connection;
      if bool_decide (Connection.state c = "GRAB_WAIT") then
        if stale connection then
          _lostConnection connection;;
          stopWaitingForJobs_scan stale rest ok
        else stopWaitingForJobs_scan stale rest false
      else stopWaitingForJobs_scan stale rest ok
  end.

(** Its first [while] loop; [clock] gives [stale] at each turn, and the
    head of [durings] is what happens during the next sleep, the lock
    being released. *)
Fixpoint stopWaitingForJobs_wait (fuel : nat) (clock : list (nat -> bool))
    (durings : list Interleaving) : M World unit :=
  match fuel with
  | O => raise OutOfFuel
  | S fuel =>
      w ← get;
      let connections := active_connections w in
      ok ← stopWaitingForJobs_scan (hd (fun _ => false) clock) connections true;
      if ok : bool then mret tt
      else
        blocked (hd id durings);;
        stopWaitingForJobs_wait fuel (tl clock) (tl durings)
  end.

(** Its second [while] loop, which runs at most [n] times. *)
Fixpoint stopWaitingForJobs_drain (n : nat) : M World unit :=
  match n with
  | O => mret tt
  | S n =>
      w ← get;
      if 0 <? waiting_for_jobs w then
        modify (with_waiting_for_jobs (fun n => n - 1));;
        modify (with_job_queue (fun q => q ++ [None]));;
        stopWaitingForJobs_drain n
      else mret tt
  end.

(** [Worker.stopWaitingForJobs]. *)
Definition stopWaitingForJobs (fuel : nat) (clock : list (nat -> bool))
    (durings : list Interleaving) : M World unit :=
  stopWaitingForJobs_wait fuel clock durings;;
  w ← get;
  stopWaitingForJobs_drain (Z.to_nat (waiting_for_jobs w));;
  _updateStateMachines (protocol.K P).

(** [Worker._shutdown]. *)
Definition Worker__shutdown (fuel : nat) (clock : list (nat -> bool))
    (durings : list Interleaving) : M World unit :=
  BaseClientServer__shutdown;;
  stopWaitingForJobs fuel clock durings.

(** [BaseClientServer.shutdown], the method [_shutdown] being the one of
    the class of the instance. *)
Definition shutdown (fuel : nat) (clock : list (nat -> bool))
    (durings : list Interleaving) : M World unit :=
  w ← get;
  if running w then
    match role w with
    | ClientRole => BaseClientServer__shutdown
    | WorkerRole => Worker__shutdown fuel clock durings
    end;;
    _cleanup
  else mret tt.

(** *** WorkerJob *)

(** [WorkerJob.sendWorkData]. *)
Definition WorkerJob_sendWorkData (self : WorkerJob.t) (data : bytes) : M World unit :=
  let data := WorkerJob.handle self ++ [NUL] ++ data in
  p ← lift (Packet.init constants.REQ (protocol.WORK_DATA P) data);
  match WorkerJob.connection self with
  | Some connection => Connection_sendPacket connection p
  | None => raise AttributeError
  end.

(** [WorkerJob.sendWorkWarning]. *)
Definition WorkerJob_sendWorkWarning (self : WorkerJob.t) (data : bytes) : M World unit :=
  let data := WorkerJob.handle self ++ [NUL] ++ data in
  p ← lift (Packet.init constants.REQ (protocol.WORK_WARNING P) data);
  match WorkerJob.connection self with
  | Some connection => Connection_sendPacket connection p
  | None => raise AttributeError
  end.

(** [WorkerJob.sendWorkStatus], for two integers. *)
Definition WorkerJob_sendWorkStatus (self : WorkerJob.t) (numerator denominator : Z)
    : M World unit :=
  let data := WorkerJob.handle self ++ [NUL] ++ str numerator ++ [NUL]
              ++ str denominator in
  p ← lift (Packet.init constants.REQ (protocol.WORK_STATUS P) data);
  match WorkerJob.connection self with
  | Some connection => Connection_sendPacket connection p
  | None => raise AttributeError
  end.

(** [WorkerJob.sendWorkComplete]. *)
Definition WorkerJob_sendWorkComplete (self : WorkerJob.t) (data : bytes) : M World unit :=
  let data := WorkerJob.handle self ++ [NUL] ++ data in
  p ← lift (Packet.init constants.REQ (protocol.WORK_COMPLETE P) data);
  match WorkerJob.connection self with
  | Some connection => Connection_sendPacket connection p
  | None => raise AttributeError
  end.

(** [WorkerJob.sendWorkFail]. *)
Definition WorkerJob_sendWorkFail (self : WorkerJob.t) : M World unit :=
  p ← lift (Packet.init constants.REQ (protocol.WORK_FAIL P) (WorkerJob.handle self));
  match WorkerJob.connection self with
  | Some connection => Connection_sendPacket connection p
  | None => raise AttributeError
  end.

(** [WorkerJob.sendWorkException]. *)
Definition WorkerJob_sendWorkException (self : WorkerJob.t) (data : bytes) : M World unit :=
  let data := WorkerJob.handle self ++ [NUL] ++ data in
  p ← lift (Packet.init constants.REQ (protocol.WORK_EXCEPTION P) data);
  match WorkerJob.connection self with
  | Some connection => Connection_sendPacket connection p
  | None => raise AttributeError
  end.

End Protocol.

(** * The vocabulary of the statements *)

(** ** Occurrences of a terminator in a buffer *)

(** [sub] occurs in [data] after the prefix [pre]. *)
Definition occurs (sub data pre : bytes) : Prop :=
  exists post, data = pre ++ sub ++ post.

Definition contains (sub data : bytes) : Prop :=
  exists pre, occurs sub data pre.

(** The occurrence after [pre] is the first one. *)
Definition first_occurrence (sub data pre : bytes) : Prop :=
  occurs sub data pre /\
  forall pre', occurs sub data pre' -> (length pre <= length pre')%nat.

(** The two terminators of a multi-line response. *)
Definition NLDOT : bytes := [LF; DOT; LF].

Definition CRDOT : bytes := [CR; LF; DOT; CR; LF].

(** What [isComplete] says of a response that ends with a line holding a
    single dot. *)
Definition dot_framing (data : bytes) (complete : bool) (resp remainder : bytes) : Prop :=
  (complete = true <->
     contains NLDOT data \/ contains CRDOT data \/
     startswith data [DOT; LF] = true \/ startswith data [DOT; CR; LF] = true) /\
  (complete = true ->
     data = resp ++ remainder /\
     ((exists pre, first_occurrence NLDOT data pre /\ resp = pre ++ NLDOT) \/
      (~ contains NLDOT data /\
       exists pre, first_occurrence CRDOT data pre /\ resp = pre ++ CRDOT) \/
      (~ contains NLDOT data /\ ~ contains CRDOT data /\ resp = [DOT; LF]) \/
      (~ contains NLDOT data /\ ~ contains CRDOT data /\
       startswith data [DOT; LF] = false /\ resp = [DOT; CR; LF]))).

(** What it says of a response that is one line. *)
Definition line_framing (data : bytes) (complete : bool) (resp remainder : bytes) : Prop :=
  (complete = true <-> contains [LF] data) /\
  (complete = true ->
     data = resp ++ remainder /\
     exists pre, first_occurrence [LF] data pre /\ resp = pre ++ [LF]).

(** ** Packets on the wire *)

(** A packet as it travels: a magic code of four bytes, the first of them
    NUL. *)
Definition wire_packet (p : Packet.t) : Prop :=
  length (Packet.code p) = 4%nat /\ head (Packet.code p) = Some NUL.

Definition header_ok (p : Packet.t) (h : option (bytes * Z * Z)) : Prop :=
  h = None \/ h = Some (Packet.code p, Packet.ptype p, len (Packet.data p)).

Definition nonempty (seg : bytes) : Prop := seg <> [].

(** The connection [self] of [w] is ready to decode [stream]: its buffer
    followed by what its socket will deliver is [stream], and no frame is in
    progress. *)
Definition decoding (w : World) (self : nat) (stream : bytes) : Prop :=
  exists conn sock,
    connections w !! self = Some conn /\
    Connection.conn conn = Some sock /\
    Connection.need_bytes conn = false /\
    Connection.input_buffer conn ++ concat (Socket.incoming sock) = stream /\
    Forall nonempty (Socket.incoming sock).

(** ** The cursor and the two lists of the pool *)

(** The cursor after a call of [getConnection], [n] being the length of
    the active list and [i] the cursor before. *)
Definition next_index (n i : Z) : Z := if n <=? i + 1 then 0 else i + 1.

Definition set_connection_index (i : Z) (w : World) : World :=
  with_connection_index (fun _ => i) w.

(** How often [c] occurs in [l]. *)
Definition occurrences (c : nat) (l : list nat) : Z :=
  len (filter (fun x => x = c) l).

(** How often the position [q] comes up in [k] calls, the first of which
    moves the cursor to [p]. *)
Definition turns (n k p q : Z) : Z := (k + n - 1 - (q - p) mod n) / n.

(** The pool after [conn] was marked lost. *)
Definition marked_lost (conn : nat) (w : World) : World :=
  let w := if decide (conn ∈ active_connections w)
           then with_active_connections (remove_first conn) w else w in
  if decide (conn ∈ inactive_connections w) then w
  else with_inactive_connections (fun l => l ++ [conn]) w.

(** The two lists of the pool. *)
Definition pool (w : World) : list nat * list nat :=
  (active_connections w, inactive_connections w).

(** ** Sends and state changes *)

(** The world after [bs] went out on the socket of connection [c]. *)
Definition sent_on (c : nat) (bs : bytes) (w : World) : World :=
  with_connections
    (alter (Connection.with_conn (fmap (Socket.with_sent (fun l => l ++ [bs])))) c) w.

(** The world after connection [c] changed its state to [st]. *)
Definition in_state (c : nat) (st : string) (w : World) : World :=
  with_connections (alter (Connection.with_state (fun _ => st)) c) w.

(** A connection whose socket takes what is sent on it. *)
Definition writable (w : World) (c : nat) (conn : Connection.t) : Prop :=
  connections w !! c = Some conn /\
  exists sock, Connection.conn conn = Some sock /\ Socket.broken sock = false.

(** The world in which [_handleJobAssignment] runs the update of the state
    machines. *)
Definition assigned (c : nat) (job : WorkerJob.t) (w : World) : World :=
  with_job_queue (fun q => q ++ [Some job])
    (with_waiting_for_jobs (fun n => n - 1) (in_state c "IDLE" w)).

(** ** Submissions, handlers and the echo registry *)

(** The payload of a submit packet. *)
Definition submit_payload (job : Job.t) : bytes :=
  Job.name job ++ NUL :: default [] (Job.unique job) ++ NUL :: Job.arguments job.

Definition valid_precedence (precedence : Z) : Prop :=
  precedence = PRECEDENCE_NORMAL \/ precedence = PRECEDENCE_LOW \/
  precedence = PRECEDENCE_HIGH.

(** The three packets that end a job, and their handlers. *)
Inductive terminal : Type := WorkComplete | WorkFail | WorkException.

Definition terminal_handler (t : terminal) : nat -> Packet.t -> M World nat :=
  match t with
  | WorkComplete => handleWorkComplete
  | WorkFail => handleWorkFail
  | WorkException => handleWorkException
  end.


(** The payload is the handle alone, or the handle and a NUL with nothing
    after it. *)
Definition empty_after_handle (packet : Packet.t) (h : bytes) : Prop :=
  (NUL ∉ h) /\ (Packet.data packet = h \/ Packet.data packet = h ++ [NUL]).

(** The three handlers that append to [job.data]. *)
Inductive appending : Type := WorkData | WorkWarning | WorkCompleteData.

Definition appending_handler (t : appending) : nat -> Packet.t -> M World nat :=
  match t with
  | WorkData => handleWorkData
  | WorkWarning => handleWorkWarning
  | WorkCompleteData => handleWorkComplete
  end.

(** The world after [echo] registered its waiter for [data] on connection
    [c]. *)
Definition waiting_echo (c : nat) (data : bytes) (w : World) : World :=
  with_connections
    (alter (Connection.with_echo_conditions (<[data := Condition.init]>)) c) w.

(** The echo registry of connection [c]. *)
Definition echo_registry (w : World) (c : nat) : gmap bytes Condition.t :=
  default ∅ (Connection.echo_conditions <$> connections w !! c).

(** ** Instances for the examples *)

(** A table of packet types: the numbers of the Gearman protocol. *)
Definition gearman : constants.t :=
  constants.mk 4 7 18 21 32 33 34 16 26 30.

Definition demo_socket : Socket.t := Socket.mk [] [] false.

Definition demo_connection (state : string) : Connection.t :=
  Connection.mk (Some demo_socket) true [] false ∅ [] [] ∅ ∅ state.

Definition demo_job : Job.t := Job.init (b "reverse") (b "hello") None.

(** A client with three connected servers and one job not yet
    submitted. *)
Definition demo_client : World :=
  mkWorld ClientRole (Some (b "demo")) true
    {[ 0%nat := demo_connection "INIT"; 1%nat := demo_connection "INIT";
       2%nat := demo_connection "INIT" ]}
    [0%nat; 1%nat; 2%nat] [] (-1) {[ 0%nat := demo_job ]} ∅
    {[ 0%nat := AdminRequest.init AdminRequest.StatusAdminRequest [] ]}
    ∅ None ∅ 0 [].

(** A worker with one connection in the given state and one thread in
    [getJob]. *)
Definition demo_worker (state : string) : World :=
  mkWorld WorkerRole (Some (b "demo")) true
    {[ 0%nat := demo_connection state ]}
    [0%nat] [] (-1) ∅ ∅ ∅ ∅ (Some (b "demo")) ∅ 1 [].

(** The client after the server accepted the job with the handle [H:1]. *)
Definition demo_running : World :=
  (handleJobCreated 0 (Packet.mk constants.RES 8 (b "H:1"))
     (submitJob_send 0 (Packet.mk constants.REQ 7 (submit_payload demo_job))
        demo_client).2).2.

(** The client after a first turn of [submitJob] on which no answer came. *)
Definition demo_waiting : World :=
  Eval vm_compute in
    (submitJob_send 0 (Packet.mk constants.REQ 7 (submit_payload demo_job))
       demo_client).2.

Definition demo_packets : list Packet.t :=
  [Packet.mk constants.REQ 7 (b "reverse" ++ [NUL; NUL] ++ b "hello");
   Packet.mk constants.RES 13 (b "H:1" ++ [NUL; x00; xff; NUL]);
   Packet.mk constants.RES (-1) []].

Definition demo_stream : bytes :=
  Eval vm_compute in default [] (toBinary_all demo_packets).

(** The stream cut at places that fall inside headers and payloads. *)
Definition demo_segments : list bytes :=
  [take 5 demo_stream; take 20 (drop 5 demo_stream); drop 25 demo_stream].

Definition demo_reader : World :=
  mkWorld ClientRole None true
    {[ 0%nat := Connection.mk (Some (Socket.mk [] demo_segments false))
                  true [] false ∅ [] [] ∅ ∅ "INIT" ]}
    [0%nat] [] (-1) ∅ ∅ ∅ ∅ None ∅ 0 [].

Definition demo_exception : Packet.t :=
  Packet.mk constants.RES 25 (b "H:1" ++ [NUL] ++ b "boom").


Definition demo_empty_complete : Packet.t :=
  Packet.mk constants.RES 13 (b "H:1" ++ [NUL]).

Definition demo_accepted_connection : Connection.t :=
  Eval vm_compute in
    default (demo_connection "INIT") (connections demo_running !! 0%nat).

Definition demo_accepted_job : Job.t :=
  Eval vm_compute in default demo_job (jobs demo_running !! 0%nat).

(** ** The fields of a payload *)

(** The fields of a payload: none of them holds a NUL. *)
Definition fields (args : list bytes) : Prop := Forall (fun a => NUL ∉ a) args.

(** ** Losing a connection *)

(** The pool of a client is well formed when no connection is listed
    twice, in either list or across the two. *)
Definition pool_wf (w : World) : Prop :=
  NoDup (active_connections w ++ inactive_connections w).

(** The connections that a client knows. *)
Definition known_connections (w : World) : list nat :=
  active_connections w ++ inactive_connections w.

(** A worker has no [handleDisconnect]: it can only lose connections that
    have no related job. *)
Definition can_lose (w : World) (conn : Connection.t) : Prop :=
  role w = ClientRole \/ Connection.related_jobs conn = ∅.

(** The socket of connection [c] takes a send. *)
Definition can_send (w : World) (c : nat) : bool :=
  match connections w !! c with
  | Some conn =>
      match Connection.conn conn with
      | Some sock => negb (Socket.broken sock)
      | None => false
      end
  | None => false
  end.

(** ** [broadcast] *)

(** Every connection listed in [l] is an object of the heap that the
    instance can lose. *)
Definition losable (w : World) (l : list nat) : Prop :=
  forall c, c ∈ l -> exists conn, connections w !! c = Some conn /\ can_lose w conn.

(** What [broadcast] does with one connection. *)
Definition broadcast_step (bs : bytes) (w : World) (c : nat) : World :=
  if can_send w c then sent_on c bs w else marked_lost c w.

(** The connection after a send of [bs]. *)
Definition with_sent (bs : bytes) (conn : Connection.t) : Connection.t :=
  Connection.with_conn (fmap (Socket.with_sent (fun l => l ++ [bs]))) conn.

(** ** [submitJob] when no server takes the job *)

(** The world once a new task [t] waits, under the reference [task], at
    the end of the pending tasks of connection [conn]. *)
Definition queued (conn task : nat) (t : Task.t) (w : World) : World :=
  with_connections
    (alter (Connection.with_pending_tasks (fun l => l ++ [task])) conn)
    (with_tasks (insert task t) w).

(** No connection of the list takes a send. *)
Definition all_unwritable (w : World) (l : list nat) : Prop :=
  forall c, c ∈ l -> is_Some (connections w !! c) /\ can_send w c = false.

(** ** [submitJob] when the server accepts the job *)

(** The poll thread handles the packet [packet], received on connection
    [c], with the handler [handler]. *)
Definition handles {A} (handler : nat -> Packet.t -> M World A) (c : nat)
    (packet : Packet.t) : Interleaving :=
  fun w => (handler c packet w).2.

(** The world after [handleJobCreated] gave the handle [h] to the job [j]
    of the task [task], the oldest pending task of connection [conn]. *)
Definition created_on (conn task j : nat) (h : bytes) (rest : list nat)
    (w : World) : World :=
  with_tasks (alter Task.setComplete task)
    (with_connections (alter (Connection.with_related_jobs (<[h := j]>)) conn)
       (with_jobs (alter (Job.with_handle (fun _ => Some h)) j)
          (with_connections
             (alter (Connection.with_pending_tasks (fun _ => rest)) conn) w))).

(** The job once the server accepted it on connection [conn] under the
    handle [h]. *)
Definition accepted (conn : nat) (h : bytes) (job : Job.t) : Job.t :=
  Job.with_connection (fun _ => Some conn) (Job.with_handle (fun _ => Some h) job).

(** ** ERROR packets *)

(** The world after the oldest pending task [task] of connection [conn]
    was taken off the list and completed. *)
Definition completed_on (conn task : nat) (rest : list nat) (w : World) : World :=
  with_tasks (alter Task.setComplete task)
    (with_connections
       (alter (Connection.with_pending_tasks (fun _ => rest)) conn) w).

(** ** Bytes that [readPacket] cannot attribute *)

(** The connection as [readPacket] leaves it: the buffer, the flag and the
    segments that the socket still holds. *)
Definition reading (raw : bytes) (need : bool) (segs : list bytes)
    (conn : Connection.t) : Connection.t :=
  Connection.with_input_buffer (fun _ => raw)
    (Connection.with_need_bytes (fun _ => need)
       (Connection.with_conn (fmap (Socket.with_incoming (fun _ => segs))) conn)).

(** ** The reports of a worker about a job *)

(** The kinds of report that a worker sends about a job. *)
Inductive report : Type :=
  | ReportData | ReportWarning | ReportComplete | ReportException | ReportFail.

(** The method of [WorkerJob] that sends it. *)
Definition send_report (P : protocol.t) (k : report) (self : WorkerJob.t)
    (data : bytes) : M World unit :=
  match k with
  | ReportData => WorkerJob_sendWorkData P self data
  | ReportWarning => WorkerJob_sendWorkWarning P self data
  | ReportComplete => WorkerJob_sendWorkComplete P self data
  | ReportException => WorkerJob_sendWorkException P self data
  | ReportFail => WorkerJob_sendWorkFail P self
  end.

Definition report_type (P : protocol.t) (k : report) : Z :=
  match k with
  | ReportData => protocol.WORK_DATA P
  | ReportWarning => protocol.WORK_WARNING P
  | ReportComplete => protocol.WORK_COMPLETE P
  | ReportException => protocol.WORK_EXCEPTION P
  | ReportFail => protocol.WORK_FAIL P
  end.

Definition report_payload (k : report) (handle data : bytes) : bytes :=
  match k with
  | ReportFail => handle
  | _ => handle ++ NUL :: data
  end.

(** The handler of [Client] that receives it. *)
Definition report_handler (k : report) : nat -> Packet.t -> M World nat :=
  match k with
  | ReportData => handleWorkData
  | ReportWarning => handleWorkWarning
  | ReportComplete => handleWorkComplete
  | ReportException => handleWorkException
  | ReportFail => handleWorkFail
  end.

(** What the report makes of the job of the client. *)
Definition reported (k : report) (data : bytes) (job : Job.t) : Job.t :=
  let appended :=
    if truthy data then Job.with_data (fun l => l ++ [data]) job else job in
  match k with
  | ReportData => appended
  | ReportWarning => Job.with_warning (fun _ => true) appended
  | ReportComplete =>
      Job.with_failure (fun _ => false) (Job.with_complete (fun _ => true) appended)
  | ReportException =>
      Job.with_failure (fun _ => true)
        (Job.with_complete (fun _ => true)
           (Job.with_exception (fun _ => Some data) job))
  | ReportFail =>
      Job.with_failure (fun _ => true) (Job.with_complete (fun _ => true) job)
  end.

Definition report_ends (k : report) : bool :=
  match k with
  | ReportData | ReportWarning => false
  | _ => true
  end.

(** ** WORK_STATUS *)

(** The job after a WORK_STATUS report. *)
Definition with_status (numerator denominator : bytes) (job : Job.t) : Job.t :=
  Job.with_denominator (fun _ => Some denominator)
    (Job.with_numerator (fun _ => Some numerator) job).

(** The job after a STATUS_RES answer. *)
Definition with_status_res (known running numerator denominator : bytes)
    (job : Job.t) : Job.t :=
  with_status numerator denominator
    (Job.with_running (fun _ => Some (bool_decide (running = b "1")))
       (Job.with_known (fun _ => Some (bool_decide (known = b "1"))) job)).

(** ** [_updateStateMachines] *)

(** What [_updateStateMachines] makes of one connection, [n] being
    [waiting_for_jobs] and [bs] the bytes of GRAB_JOB_UNIQ. *)
Definition updated (bs : bytes) (n : Z) (conn : Connection.t) : Connection.t :=
  if bool_decide (Connection.state conn = "IDLE") then
    if 0 <? n
    then Connection.with_state (fun _ => "GRAB_WAIT") (with_sent bs conn)
    else conn
  else
    if n <? 1 then Connection.with_state (fun _ => "IDLE") conn else conn.

(** Every connection listed in [l] is an object of the heap, and when a
    thread waits for a job, the socket of an idle one takes a send. *)
Definition grabbable (w : World) (l : list nat) : Prop :=
  forall c, c ∈ l ->
    exists conn, connections w !! c = Some conn /\
      (0 < waiting_for_jobs w -> Connection.state conn = "IDLE" ->
       can_send w c = true).

(** The same, the packet GRAB_JOB_UNIQ being one that can be packed, to
    [bs], whenever it has to be sent. *)
Definition askable (K : constants.t) (bs : bytes) (w : World) (l : list nat) : Prop :=
  forall c, c ∈ l ->
    exists conn, connections w !! c = Some conn /\
      (0 < waiting_for_jobs w -> Connection.state conn = "IDLE" ->
       Packet.toBinary (Packet.mk constants.REQ (constants.GRAB_JOB_UNIQ K) [])
         = Some bs /\ can_send w c = true).

(** The world after [_updateStateMachines] visited connection [c]. *)
Definition visited (bs : bytes) (w : World) (c : nat) : World :=
  with_connections (alter (updated bs (waiting_for_jobs w)) c) w.

(** ** [getJob] and the assignment of a job *)

(** A connection of the worker after [getJob] returned the job that a
    server assigned: it is idle, and it got GRAB_JOB_UNIQ if it was idle
    before. *)
Definition served (bs : bytes) (conn : Connection.t) : Connection.t :=
  Connection.with_state (fun _ => "IDLE")
    (if bool_decide (Connection.state conn = "IDLE") then with_sent bs conn else conn).

(** The worker with one more thread in [getJob]. *)
Definition entered (w : World) : World :=
  with_waiting_for_jobs (fun n => n + 1) w.

(** ** [stopWaitingForJobs] *)

(** The connection [c] of [w] is in the state [st]. *)
Definition has_state (w : World) (st : string) (c : nat) : bool :=
  match connections w !! c with
  | Some conn => bool_decide (Connection.state conn = st)
  | None => false
  end.

(** What the scan of [stopWaitingForJobs] makes of one connection, [f]
    telling whether it gives up on it. *)
Definition given_up (f : nat -> bool) (w : World) (c : nat) : World :=
  if f c then marked_lost c w else w.

(** The worker after every thread in [getJob] was sent a [None]. *)
Definition interrupted (w : World) : World :=
  with_job_queue (fun q => q ++ replicate (Z.to_nat (waiting_for_jobs w)) None)
    (with_waiting_for_jobs (fun _ => 0) w).

(** ** STATUS_RES *)

(** What [handleStatusRes] makes of the job, [values] being the fields of
    the payload after the handle: each assignment is made as soon as its
    field was read. *)
Definition status_res (values : list bytes) (job : Job.t) : Job.t :=
  match values with
  | [] => job
  | [known] => Job.with_known (fun _ => Some (bool_decide (known = b "1"))) job
  | [known; running] =>
      Job.with_running (fun _ => Some (bool_decide (running = b "1")))
        (Job.with_known (fun _ => Some (bool_decide (known = b "1"))) job)
  | [known; running; numerator] =>
      Job.with_numerator (fun _ => Some numerator)
        (Job.with_running (fun _ => Some (bool_decide (running = b "1")))
           (Job.with_known (fun _ => Some (bool_decide (known = b "1"))) job))
  | known :: running :: numerator :: denominator :: _ =>
      with_status_res known running numerator denominator job
  end.

(** ** The packets that an instance ignores *)

(** The packet types for which the class of the instance has a handler of
    its own: those of [Client], and those of [Worker]. ECHO_RES and ERROR
    are handled by [BaseClient], for both. *)
Definition handled_types (P : protocol.t) (r : Role) : list Z :=
  match r with
  | ClientRole =>
      [protocol.JOB_CREATED P; protocol.WORK_COMPLETE P; protocol.WORK_FAIL P;
       protocol.WORK_EXCEPTION P; protocol.WORK_DATA P; protocol.WORK_WARNING P;
       protocol.WORK_STATUS P; protocol.STATUS_RES P; protocol.ECHO_RES P;
       protocol.ERROR P; protocol.OPTION_RES P]
  | WorkerRole =>
      [protocol.JOB_ASSIGN_UNIQ P; protocol.JOB_ASSIGN P; protocol.NO_JOB P;
       protocol.NOOP P; protocol.ECHO_RES P; protocol.ERROR P]
  end.

(** ** The poll loop *)

(** The packet types that [handlePacket] tests up to the last one of a
    report of a worker. *)
Definition report_types (P : protocol.t) : list Z :=
  [protocol.JOB_CREATED P; protocol.WORK_COMPLETE P; protocol.WORK_FAIL P;
   protocol.WORK_EXCEPTION P; protocol.WORK_DATA P; protocol.WORK_WARNING P].

(** ** [shutdown] *)

(** A connection after [disconnect]: what [_init] sets, the buffer and
    [need_bytes] being left as they were. *)
Definition disconnected (conn : Connection.t) : Connection.t :=
  Connection.mk None false (Connection.input_buffer conn)
    (Connection.need_bytes conn) ∅ [] [] ∅ ∅ "INIT".

(** The connections that [shutdown] disconnects: the active ones, for a
    worker those that [stopWaitingForJobs] has not given up. *)
Definition closed_by_shutdown (w : World) : list nat :=
  match role w with
  | ClientRole => active_connections w
  | WorkerRole =>
      filter (fun c => has_state w "GRAB_WAIT" c = false) (active_connections w)
  end.

(** The instance after [shutdown]. *)
Definition stopped (w : World) : Prop :=
  running w = false /\ active_connections w = [] /\ inactive_connections w = [].

(** ** The functions of a worker *)

(** The packet that announces a function: CAN_DO_TIMEOUT with the name, a
    NUL and the timeout when the record has a timeout that is not empty,
    CAN_DO with the name otherwise. *)
Definition can_do (P : protocol.t) (f : FunctionRecord.t) : Packet.t :=
  if truthy (default [] (FunctionRecord.timeout f))
  then Packet.mk constants.REQ (protocol.CAN_DO_TIMEOUT P)
         (FunctionRecord.name f ++ [NUL] ++ default [] (FunctionRecord.timeout f))
  else Packet.mk constants.REQ (protocol.CAN_DO P) (FunctionRecord.name f).

(** The packet that withdraws it. *)
Definition cant_do (P : protocol.t) (name : bytes) : Packet.t :=
  Packet.mk constants.REQ (protocol.CANT_DO P) name.

(** The fields of the instance that no send and no loss changes. *)
Definition settings (w : World) :=
  (role w, running w, jobs w, tasks w, functions w, waiting_for_jobs w, job_queue w).

(** ** [setFunctions] *)

(** The records that [setFunctions] announces, in the order of the values
    of the dict that it builds: one for each name, at the place of the
    first record of that name, and with the content of the last one. *)
Definition announced (fs : list FunctionRecord.t) : list FunctionRecord.t :=
  (foldl (fun d f => dict_setitem (FunctionRecord.name f) f d) [] fs).*2.

(** The packets of [setFunctions]: RESET_ABILITIES, then the
    announcements. *)
Definition setFunctions_packets (P : protocol.t) (fs : list FunctionRecord.t)
    : list Packet.t :=
  Packet.mk constants.REQ (protocol.RESET_ABILITIES P) [] :: (can_do P <$> announced fs).

(** The connection after the packets [ps] went out on it, one after the
    other. *)
Definition with_all_sent (ps : list Packet.t) (conn : Connection.t) : Connection.t :=
  foldl (fun conn p => with_sent (default [] (Packet.toBinary p)) conn) conn ps.

(** The pool of a client or worker that can lose any of its connections,
    with the connection [c] among those that take a send. *)
Definition reaches (w : World) (c : nat) : Prop :=
  losable w (active_connections w) /\ NoDup (active_connections w) /\
  c ∈ active_connections w /\ can_send w c = true.

(** ** Instances *)

(** The whole table of packet types, with the numbers of the Gearman
    protocol. *)
Definition gearman_protocol : protocol.t :=
  protocol.mk gearman 8 13 14 25 28 29 12 20 15 31 11 10 6 35 36 9 22 1 23 2 3
    17 19 24 27.

(** A connection whose socket refuses every send. *)
Definition demo_broken : Connection.t :=
  Connection.mk (Some (Socket.mk [] [] true)) true [] false ∅ [] [] ∅ ∅ "INIT".

(** A client whose two servers are out of reach. *)
Definition demo_down : World :=
  mkWorld ClientRole (Some (b "demo")) true
    {[ 0%nat := demo_broken; 1%nat := demo_broken ]}
    [0%nat; 1%nat] [] (-1) {[ 0%nat := demo_job ]} ∅ ∅ ∅ None ∅ 0 [].

(** A client with one server. *)
Definition demo_single : World :=
  mkWorld ClientRole (Some (b "demo")) true
    {[ 0%nat := demo_connection "INIT" ]}
    [0%nat] [] (-1) {[ 0%nat := demo_job ]} ∅ ∅ ∅ None ∅ 0 [].

(** The job that a worker got on its connection 0. *)
Definition demo_worker_job : WorkerJob.t :=
  WorkerJob.mk (b "H:1") (b "reverse") (b "hello") None (Some 0%nat).

(** A header that announces a payload of minus twelve bytes. *)
Definition demo_negative_header : bytes :=
  Eval vm_compute in default [] (pack_4sii constants.RES 6 (-12)).

Definition demo_wedged : World :=
  mkWorld WorkerRole (Some (b "demo")) true
    {[ 0%nat := Connection.mk (Some demo_socket) true demo_negative_header false
                  ∅ [] [] ∅ ∅ "SLEEP" ]}
    [0%nat] [] (-1) ∅ ∅ ∅ ∅ (Some (b "demo")) ∅ 1 [].

(** A connection that holds bytes of an administrative response nobody
    asked for. *)
Definition demo_stray : World :=
  mkWorld ClientRole (Some (b "demo")) true
    {[ 0%nat := Connection.mk (Some demo_socket) true (b "OK" ++ [LF]) false
                  ∅ [] [] ∅ ∅ "INIT" ]}
    [0%nat] [] (-1) ∅ ∅ ∅ ∅ None ∅ 0 [].

(** ** Instances of the worker and of the poll loop *)

(** A worker with an idle server and a sleeping one, and no thread in
    [getJob]. *)
Definition demo_pair : World :=
  mkWorld WorkerRole (Some (b "demo")) true
    {[ 0%nat := demo_connection "IDLE"; 1%nat := demo_connection "SLEEP" ]}
    [0%nat; 1%nat] [] (-1) ∅ ∅ ∅ ∅ (Some (b "demo")) ∅ 0 [].

(** A worker whose only server is idle behind a socket that refuses
    every send. *)
Definition demo_cut : World :=
  mkWorld WorkerRole (Some (b "demo")) true
    {[ 0%nat := Connection.mk (Some (Socket.mk [] [] true)) true [] false
                  ∅ [] [] ∅ ∅ "IDLE" ]}
    [0%nat] [] (-1) ∅ ∅ ∅ ∅ (Some (b "demo")) ∅ 0 [].

(** The bytes of GRAB_JOB_UNIQ. *)
Definition demo_grab : bytes :=
  Eval vm_compute in
    default [] (Packet.toBinary (Packet.mk constants.REQ 30 [])).

Definition demo_assign : Packet.t :=
  Packet.mk constants.RES 11 (b "H:1" ++ [NUL] ++ b "reverse" ++ [NUL] ++ b "hello").

(** WORK_COMPLETE for the job of [demo_running], and the client when the
    bytes of that packet have arrived in two segments. *)
Definition demo_complete : Packet.t :=
  Packet.mk constants.RES 13 (b "H:1" ++ [NUL] ++ b "olleh").

Definition demo_complete_bytes : bytes :=
  Eval vm_compute in default [] (Packet.toBinary demo_complete).

Definition demo_receiving_connection : Connection.t :=
  Connection.with_conn
    (fun _ => Some (Socket.mk [] [take 7 demo_complete_bytes;
                                  drop 7 demo_complete_bytes] false))
    demo_accepted_connection.

Definition demo_receiving : World :=
  with_connections (<[0%nat := demo_receiving_connection]>) demo_running.

(** A client whose server has closed the connection. *)
Definition demo_closed_connection : Connection.t :=
  Connection.mk (Some (Socket.mk [] [[]] false)) true [] false ∅ [] [] ∅ ∅ "INIT".

Definition demo_closed : World :=
  mkWorld ClientRole (Some (b "demo")) true
    {[ 0%nat := demo_closed_connection ]}
    [0%nat] [] (-1) {[ 0%nat := demo_job ]} ∅ ∅ ∅ None ∅ 0 [].

(** A client that has asked its server for the status, the answer being
    an empty table. *)
Definition demo_asking_connection : Connection.t :=
  Connection.mk (Some (Socket.mk [] [[DOT; LF]] false)) true [] false
    ∅ [] [0%nat] ∅ ∅ "INIT".

Definition demo_asking : World :=
  mkWorld ClientRole (Some (b "demo")) true
    {[ 0%nat := demo_asking_connection ]}
    [0%nat] [] (-1) ∅ ∅
    {[ 0%nat := AdminRequest.init AdminRequest.StatusAdminRequest [] ]}
    ∅ None ∅ 0 [].

(** Three records, two of them for the same name. *)
Definition demo_functions : list FunctionRecord.t :=
  [FunctionRecord.mk (b "reverse") None;
   FunctionRecord.mk (b "count") (Some (b "30"));
   FunctionRecord.mk (b "reverse") (Some (b "5"))].

(** ** Proof automation *)

Ltac munfold :=
  repeat (progress (unfold mbind, M_bind, bind, mret, M_ret, ret, get, gets,
                      modify, raise, lift, when, blocked, try_except,
                      try_finally, the_connection, the_job, the_task,
                      the_admin, update_connection, update_job, update_task,
                      update_admin; cbn beta iota)).



(** * Facts *)

(** ** Bytes: lengths, slices, find, split *)

Lemma len_nonneg {A} (l : list A) : 0 <= len l.
Proof. unfold len. lia. Qed.

Lemma len_app {A} (l1 l2 : list A) : len (l1 ++ l2) = len l1 + len l2.
Proof. unfold len. rewrite length_app. lia. Qed.

Lemma len_cons {A} (x : A) (l : list A) : len (x :: l) = 1 + len l.
Proof. unfold len. simpl. lia. Qed.

Lemma clamp_index_nonneg (n i : Z) : 0 <= i -> clamp_index n i = Z.min i n.
Proof. intros. unfold clamp_index. destruct (Z.ltb_spec i 0); [lia|done]. Qed.

Lemma slice_between {A} (l : list A) (x y : Z) :
  0 <= x <= y ->
  slice (Some x) (Some y) l = take (Z.to_nat (y - x)) (drop (Z.to_nat x) l).
Proof.
  intros Hx. unfold slice.
  change (default 0 (Some x)) with x. change (default (len l) (Some y)) with y.
  rewrite !clamp_index_nonneg by lia.
  destruct (Z.min_spec x (len l)) as [[? ->]|[? ->]];
  destruct (Z.min_spec y (len l)) as [[? ->]|[? ->]]; unfold len in *; try done.
  - rewrite (take_ge _ (Z.to_nat (Z.of_nat (length l) - x)))
      by (rewrite length_drop; lia).
    rewrite take_ge by (rewrite length_drop; lia). done.
  - lia.
  - rewrite !drop_ge by lia. by rewrite !take_nil.
Qed.

Lemma slice_to {A} (l : list A) (x : Z) :
  0 <= x -> slice None (Some x) l = take (Z.to_nat x) l.
Proof.
  intros Hx. change (slice None (Some x) l) with (slice (Some 0) (Some x) l).
  rewrite slice_between by lia. rewrite Z.sub_0_r. done.
Qed.

Lemma slice_from {A} (l : list A) (x : Z) :
  0 <= x -> slice (Some x) None l = drop (Z.to_nat x) l.
Proof.
  intros Hx. change (slice (Some x) None l) with (slice (Some x) (Some (len l)) l).
  destruct (Z.le_gt_cases x (len l)).
  - rewrite slice_between by lia. rewrite take_ge; [done|].
    rewrite length_drop. unfold len. lia.
  - unfold slice. pose proof (len_nonneg l).
    change (default 0 (Some x)) with x.
    change (default (len l) (Some (len l))) with (len l).
    rewrite !clamp_index_nonneg by lia.
    rewrite Z.min_id, Z.min_r by lia. rewrite Z.sub_diag.
    unfold len in *. rewrite !drop_ge by lia. done.
Qed.

Lemma startswith_spec (data pre : bytes) :
  startswith data pre = true <-> exists post, data = pre ++ post.
Proof.
  revert data. induction pre as [|p pre IH]; intros data.
  - split; [intros _; by exists data|by destruct data].
  - destruct data as [|d data]; simpl.
    + split; [done|]. intros [? ?]. done.
    + case_decide as Hd.
      * subst d. rewrite IH. split; intros [post H]; exists post; simplify_eq; done.
      * split; [done|]. intros [post H]. simplify_eq.
Qed.

Lemma find_unfold (data sub : bytes) :
  find data sub =
  if startswith data sub then 0
  else match data with
       | [] => -1
       | _ :: data' =>
           let r := find data' sub in if r =? -1 then -1 else r + 1
       end.
Proof. by destruct data. Qed.

Lemma find_spec (data sub : bytes) :
  (find data sub = -1 /\ ~ contains sub data) \/
  (exists pre, find data sub = len pre /\ first_occurrence sub data pre).
Proof.
  induction data as [|d data IH]; rewrite find_unfold;
    destruct (startswith _ sub) eqn:Hs.
  - right. exists []. split; [done|]. split.
    + apply startswith_spec in Hs. done.
    + intros. simpl. lia.
  - left. split; [done|]. intros [pre [post H]].
    assert (startswith [] sub = true); [|congruence].
    apply startswith_spec. destruct pre; [|done]. eauto.
  - right. exists []. split; [done|]. split.
    + apply startswith_spec in Hs. done.
    + intros. simpl. lia.
  - assert (Hne : forall post, d :: data <> sub ++ post).
    { intros post H. assert (startswith (d :: data) sub = true); [|congruence].
      apply startswith_spec. eauto. }
    cbv zeta.
    destruct IH as [[-> Hno]|[pre [-> [[post Hocc] Hfirst]]]].
    + left. simpl. split; [done|]. intros [[|x pre] [post H]].
      * by apply (Hne post).
      * apply Hno. exists pre, post. simpl in H. congruence.
    + right. exists (d :: pre).
      destruct (Z.eqb_spec (len pre) (-1)); [pose proof (len_nonneg pre); lia|].
      split; [rewrite len_cons; lia|]. split.
      * exists post. simpl. congruence.
      * intros [|x pre'] [post' H].
        -- by destruct (Hne post').
        -- simpl in *. simplify_eq.
           assert (length pre <= length pre')%nat; [|lia].
           apply Hfirst. by exists post'.
Qed.

Lemma find_none (data sub : bytes) : find data sub = -1 <-> ~ contains sub data.
Proof.
  destruct (find_spec data sub) as [[H Hn]|[pre [H [Ho _]]]].
  - tauto.
  - split.
    + pose proof (len_nonneg pre). lia.
    + intros Hn. destruct Hn. by exists pre.
Qed.

Lemma find_some (data sub : bytes) :
  find data sub <> -1 ->
  exists pre, find data sub = len pre /\ first_occurrence sub data pre.
Proof.
  destruct (find_spec data sub) as [[H Hn]|?]; [done|done].
Qed.

Lemma first_occurrence_split (sub data pre : bytes) :
  first_occurrence sub data pre ->
  take (Z.to_nat (len pre + len sub)) data = pre ++ sub /\
  data = (pre ++ sub) ++ drop (Z.to_nat (len pre + len sub)) data.
Proof.
  intros [[post ->] _].
  assert (Z.to_nat (len pre + len sub) = length (pre ++ sub)) as ->.
  { unfold len. rewrite length_app. lia. }
  rewrite (assoc_L (++)). rewrite take_app_length, drop_app_length. done.
Qed.

Lemma startswith_split (data pre : bytes) :
  startswith data pre = true ->
  take (length pre) data = pre /\ data = pre ++ drop (length pre) data.
Proof.
  intros [post ->]%startswith_spec.
  by rewrite take_app_length, drop_app_length.
Qed.

Lemma split_no_sep (sep : byte) (h : bytes) : sep ∉ h -> split sep h = [h].
Proof.
  induction h as [|c h IH]; intros Hn; [done|].
  apply not_elem_of_cons in Hn as [Hc Hh]. simpl.
  rewrite decide_False by done. by rewrite IH.
Qed.

Lemma split_sep_end (sep : byte) (h : bytes) :
  (sep ∉ h) -> split sep (h ++ [sep]) = [h; []].
Proof.
  induction h as [|c h IH]; intros Hn.
  - simpl. rewrite decide_True by done. done.
  - apply not_elem_of_cons in Hn as [Hc Hh]. simpl.
    rewrite decide_False by done. by rewrite IH.
Qed.

Lemma split_cons_sep (sep : byte) (h rest : bytes) :
  sep ∉ h -> split sep (h ++ sep :: rest) = h :: split sep rest.
Proof.
  induction h as [|x h IH]; intros Hn.
  - simpl. rewrite decide_True by done. done.
  - apply not_elem_of_cons in Hn as [Hc Hh]. simpl.
    rewrite decide_False by done. by rewrite IH.
Qed.

Lemma split_nonempty (sep : byte) (d : bytes) : split sep d <> [].
Proof. destruct d as [|c d]; simpl; [done|]. repeat case_match; done. Qed.

Lemma join_split (sep : byte) (d : bytes) : join [sep] (split sep d) = d.
Proof.
  induction d as [|c d IH]; [done|]. simpl.
  pose proof (split_nonempty sep d) as Hne.
  destruct (decide (c = sep)) as [->|Hc].
  - destruct (split sep d) as [|p ps] eqn:E; [done|].
    change (join [sep] ([] :: p :: ps)) with ([] ++ [sep] ++ join [sep] (p :: ps)).
    rewrite IH. done.
  - destruct (split sep d) as [|p ps] eqn:E; [done|].
    destruct ps as [|p' ps]; simpl in *; by rewrite <- IH.
Qed.

(** ** The framing of administrative responses *)

Lemma isComplete_base_spec (self : AdminRequest.t) (data : bytes) :
  exists (complete : bool) (resp remainder : bytes),
    AdminRequest.isComplete_base self data =
      ((complete, remainder),
       if complete then AdminRequest.set_response resp self else self) /\
    (complete = false -> remainder = data) /\
    dot_framing data complete resp remainder.
Proof.
  unfold AdminRequest.isComplete_base. cbv zeta.
  destruct (find_spec data [LF; DOT; LF]) as [[En Hn]|[pre [En Hf]]].
  - rewrite En. simpl negb. cbv iota.
    destruct (find_spec data [CR; LF; DOT; CR; LF]) as [[Er Hr]|[pre [Er Hf]]].
    + rewrite Er. simpl negb. cbv iota.
      destruct (startswith data [DOT; LF]) eqn:Hs1.
      * change (negb (2 =? -1)) with true. cbv iota.
        rewrite slice_to, slice_from by lia.
        destruct (startswith_split _ _ Hs1) as [Ht Hd].
        exists true, [DOT; LF], (drop 2 data). simpl in Ht.
        change (Z.to_nat 2) with 2%nat. rewrite Ht.
        split; [done|]. split; [done|]. split; [tauto|].
        intros _. split; [done|]. right; right; left. done.
      * destruct (startswith data [DOT; CR; LF]) eqn:Hs2.
        -- change (negb (3 =? -1)) with true. cbv iota.
           rewrite slice_to, slice_from by lia.
           destruct (startswith_split _ _ Hs2) as [Ht Hd].
           exists true, [DOT; CR; LF], (drop 3 data). simpl in Ht.
           change (Z.to_nat 3) with 3%nat. rewrite Ht.
           split; [done|]. split; [done|]. split; [tauto|].
           intros _. split; [done|]. right; right; right. done.
        -- change (negb (-1 =? -1)) with false. cbv iota.
           exists false, [], data. split; [done|]. split; [done|].
           split; [|done]. split; [done|].
           intros [?|[?|[?|?]]]; [done|done|congruence|congruence].
    + rewrite Er.
      pose proof (len_nonneg pre).
      destruct (Z.eqb_spec (len pre) (-1)); [lia|]. simpl negb. cbv iota.
      destruct (Z.eqb_spec (len pre + 5) (-1)); [lia|]. simpl negb. cbv iota.
      rewrite slice_to, slice_from by lia.
      destruct (first_occurrence_split _ _ _ Hf) as [Ht Hd].
      change (len [CR; LF; DOT; CR; LF]) with 5 in *. rewrite Ht.
      exists true, (pre ++ CRDOT), (drop (Z.to_nat (len pre + 5)) data).
      split; [done|]. split; [done|]. split.
      * split; [|done]. intros _. right; left. exists pre. apply Hf.
      * intros _. split; [done|]. right; left. split; [done|]. by exists pre.
  - rewrite En.
    pose proof (len_nonneg pre).
    destruct (Z.eqb_spec (len pre) (-1)); [lia|]. simpl negb. cbv iota.
    destruct (Z.eqb_spec (len pre + 3) (-1)); [lia|]. simpl negb. cbv iota.
    rewrite slice_to, slice_from by lia.
    destruct (first_occurrence_split _ _ _ Hf) as [Ht Hd].
    change (len [LF; DOT; LF]) with 3 in *. rewrite Ht.
    exists true, (pre ++ NLDOT), (drop (Z.to_nat (len pre + 3)) data).
    split; [done|]. split; [done|]. split.
    + split; [|done]. intros _. left. exists pre. apply Hf.
    + intros _. split; [done|]. left. by exists pre.
Qed.

Lemma isComplete_line_spec (self : AdminRequest.t) (data : bytes) :
  exists (complete : bool) (resp remainder : bytes),
    AdminRequest.isComplete_line self data =
      ((complete, remainder),
       if complete then AdminRequest.set_response resp self else self) /\
    (complete = false -> remainder = data) /\
    line_framing data complete resp remainder.
Proof.
  unfold AdminRequest.isComplete_line. cbv zeta.
  destruct (find_spec data [LF]) as [[En Hn]|[pre [En Hf]]].
  - rewrite En. simpl negb. cbv iota.
    exists false, [], data. split; [done|]. split; [done|]. split; [|done].
    split; done.
  - rewrite En. pose proof (len_nonneg pre).
    destruct (Z.eqb_spec (len pre) (-1)); [lia|]. simpl negb. cbv iota.
    rewrite slice_to, slice_from by lia.
    destruct (first_occurrence_split _ _ _ Hf) as [Ht Hd].
    change (len [LF]) with 1 in *. rewrite Ht.
    exists true, (pre ++ [LF]), (drop (Z.to_nat (len pre + 1)) data).
    split; [done|]. split; [done|]. split.
    + split; [|done]. intros _. exists pre. apply Hf.
    + intros _. split; [done|]. by exists pre.
Qed.

(** C8: a response to status, show jobs, show unique jobs or workers is
    complete exactly when the data contains [\n.\n] or [\r\n.\r\n] or starts
    with [.\n] or [.\r\n]; the response then runs through the first [\n.\n]
    (3 bytes past its start), else through the first [\r\n.\r\n] (5 bytes
    past), else it is the leading [.\n] or [.\r\n]. A response to cancel job
    or version is complete exactly when the data contains [\n], and runs
    through the first one. In both cases the response is stored in the
    request and the data after it is returned; incomplete data is returned
    whole and the request is left as it was. *)
Theorem isComplete_framing (self : AdminRequest.t) (data : bytes) :
  exists (complete : bool) (resp remainder : bytes),
    AdminRequest.isComplete self data =
      ((complete, remainder),
       if complete then AdminRequest.set_response resp self else self) /\
    (complete = false -> remainder = data) /\
    match AdminRequest.cls self with
    | AdminRequest.CancelJobAdminRequest
    | AdminRequest.VersionAdminRequest =>
        line_framing data complete resp remainder
    | AdminRequest.StatusAdminRequest
    | AdminRequest.ShowJobsAdminRequest
    | AdminRequest.ShowUniqueJobsAdminRequest
    | AdminRequest.WorkersAdminRequest =>
        dot_framing data complete resp remainder
    end.
Proof.
  unfold AdminRequest.isComplete.
  destruct (AdminRequest.cls self);
    first [apply isComplete_base_spec | apply isComplete_line_spec].
Qed.

(** ** struct and [toBinary] *)

Lemma Z_of_byte_of_Z (z : Z) : Z_of_byte (byte_of_Z z) = z mod 256.
Proof.
  unfold Z_of_byte, byte_of_Z.
  pose proof (Z.mod_pos_bound z 256 ltac:(lia)) as Hb.
  destruct (Byte.of_N (Z.to_N (z mod 256))) as [c|] eqn:E; simpl.
  - apply Byte.to_of_N in E. rewrite E. lia.
  - apply Byte.of_N_None_iff in E. lia.
Qed.

Lemma testbit_mod_256 (z n : Z) :
  0 <= n -> Z.testbit (z mod 256) n = (n <? 8) && Z.testbit z n.
Proof.
  intros Hn. change 256 with (2 ^ 8).
  destruct (Z.ltb_spec n 8).
  - rewrite Z.mod_pow2_bits_low by lia. done.
  - rewrite Z.mod_pow2_bits_high by lia. done.
Qed.

Lemma be32_join (u : Z) :
  0 <= u < 2 ^ 32 ->
  Z.lor (Z.shiftl (Z.shiftr u 24 mod 256) 24)
    (Z.lor (Z.shiftl (Z.shiftr u 16 mod 256) 16)
       (Z.lor (Z.shiftl (Z.shiftr u 8 mod 256) 8) (u mod 256))) = u.
Proof.
  intros Hu. apply Z.bits_inj'. intros n Hn.
  rewrite !Z.lor_spec.
  rewrite (Z.shiftl_spec _ 24), (Z.shiftl_spec _ 16), (Z.shiftl_spec _ 8) by lia.
  rewrite (testbit_mod_256 u n) by lia.
  destruct (Z.ltb_spec n 8).
  { rewrite !(Z.testbit_neg_r _ (n - _)) by lia. simpl. done. }
  destruct (Z.ltb_spec n 16).
  { rewrite !(Z.testbit_neg_r _ (n - 16)), !(Z.testbit_neg_r _ (n - 24)) by lia.
    rewrite (testbit_mod_256 _ (n - 8)), Z.shiftr_spec by lia.
    destruct (Z.ltb_spec (n - 8) 8); [|lia]. simpl.
    replace (n - 8 + 8) with n by lia. by rewrite orb_false_r. }
  destruct (Z.ltb_spec n 24).
  { rewrite !(Z.testbit_neg_r _ (n - 24)) by lia.
    rewrite (testbit_mod_256 _ (n - 8)), (testbit_mod_256 _ (n - 16)) by lia.
    rewrite !Z.shiftr_spec by lia.
    destruct (Z.ltb_spec (n - 16) 8); [|lia].
    destruct (Z.ltb_spec (n - 8) 8); [lia|]. simpl.
    replace (n - 16 + 16) with n by lia. by rewrite orb_false_r. }
  rewrite (testbit_mod_256 _ (n - 8)), (testbit_mod_256 _ (n - 16)),
    (testbit_mod_256 _ (n - 24)) by lia.
  rewrite !Z.shiftr_spec by lia.
  destruct (Z.ltb_spec (n - 16) 8); [lia|].
  destruct (Z.ltb_spec (n - 8) 8); [lia|]. simpl.
  replace (n - 24 + 24) with n by lia. rewrite orb_false_r.
  destruct (Z.ltb_spec (n - 24) 8); [done|]. simpl.
  symmetry. replace u with (u mod 2 ^ 32) by (apply Z.mod_small; lia).
  apply Z.mod_pow2_bits_high. lia.
Qed.

Lemma unpack_pack_i (z : Z) :
  is_int32 z = true ->
  exists bs, pack_i z = Some bs /\ length bs = 4%nat /\ unpack_i bs = Some z.
Proof.
  intros Hz. unfold pack_i. rewrite Hz. cbv zeta.
  eexists. split; [done|]. split; [done|].
  unfold unpack_i. rewrite !Z_of_byte_of_Z.
  unfold is_int32, int32_min, int32_max in Hz.
  apply andb_true_iff in Hz as [H1%Z.leb_le H2%Z.leb_le].
  pose proof (Z.mod_pos_bound z (2 ^ 32) ltac:(lia)) as Hb.
  rewrite be32_join by done. f_equal.
  destruct (Z.ltb_spec (z mod 2 ^ 32) (2 ^ 31)) as [Hlt|Hge].
  - destruct (Z.le_gt_cases 0 z).
    + rewrite Z.mod_small; lia.
    + rewrite <- (Z.mod_add z 1 (2 ^ 32)) in Hlt by lia.
      rewrite Z.mod_small in Hlt; lia.
  - destruct (Z.le_gt_cases 0 z).
    + rewrite Z.mod_small in Hge; lia.
    + rewrite <- (Z.mod_add z 1 (2 ^ 32)) by lia.
      rewrite Z.mod_small; lia.
Qed.

Lemma pack_i_Some (z : Z) (bs : bytes) :
  pack_i z = Some bs -> length bs = 4%nat /\ unpack_i bs = Some z /\ is_int32 z = true.
Proof.
  intros H. destruct (is_int32 z) eqn:Hz.
  - destruct (unpack_pack_i z Hz) as (bs' & H1 & H2 & H3). naive_solver.
  - unfold pack_i in H. by rewrite Hz in H.
Qed.

Lemma wire_packet_magic (p : Packet.t) :
  Packet.code p = constants.REQ \/ Packet.code p = constants.RES -> wire_packet p.
Proof. intros [H|H]; unfold wire_packet; by rewrite H. Qed.

Lemma pack_4s_id (s : bytes) : length s = 4%nat -> pack_4s s = s.
Proof.
  intros H. unfold pack_4s. rewrite take_app_le by lia. by rewrite take_ge by lia.
Qed.

Lemma toBinary_Some (p : Packet.t) (e : bytes) :
  wire_packet p -> Packet.toBinary p = Some e ->
  exists h, e = h ++ Packet.data p /\ length h = 12%nat /\
            head h = Some NUL /\
            unpack_4sii h = Some (Packet.code p, Packet.ptype p, len (Packet.data p)).
Proof.
  intros [Hc Hh] H. unfold Packet.toBinary, pack_4sii in H.
  destruct (pack_i (Packet.ptype p)) as [t|] eqn:Et; [|done].
  destruct (pack_i (len (Packet.data p))) as [l|] eqn:El; [|done].
  simplify_eq. rewrite pack_4s_id by done.
  apply pack_i_Some in Et as (Ht1 & Ht2 & _).
  apply pack_i_Some in El as (Hl1 & Hl2 & _).
  eexists. split; [done|]. split; [rewrite !length_app; lia|]. split.
  { destruct (Packet.code p); [done|]. done. }
  unfold unpack_4sii. unfold len at 1. rewrite !length_app, Hc, Ht1, Hl1. simpl Z.eqb. cbv iota.
  rewrite take_app_length' by done.
  rewrite drop_app_length' by done. rewrite take_app_length' by done.
  replace 8%nat with (length (Packet.code p ++ t)) by (rewrite length_app; lia).
  rewrite (assoc_L (++)), drop_app_length. rewrite take_ge by lia.
  by rewrite Ht2, Hl2.
Qed.

Lemma toBinary_length (p : Packet.t) (e : bytes) :
  wire_packet p -> Packet.toBinary p = Some e -> 12 <= len e.
Proof.
  intros Hw Hb. destruct (toBinary_Some p e Hw Hb) as (h & -> & Hl & _).
  rewrite len_app. pose proof (len_nonneg (Packet.data p)). unfold len in *. lia.
Qed.

Lemma constants_int32_elem (K : constants.t) (z : Z) :
  constants.int32 K = true -> z ∈ constants.all K -> is_int32 z = true.
Proof.
  unfold constants.int32. rewrite forallb_forall. intros H Hz.
  apply H. by apply list_elem_of_In.
Qed.

Lemma toBinary_int32 (code : bytes) (t : Z) (d : bytes) :
  is_int32 t = true -> is_int32 (len d) = true ->
  exists bs, Packet.toBinary (Packet.mk code t d) = Some bs.
Proof.
  intros Ht Hd. unfold Packet.toBinary, pack_4sii. simpl.
  destruct (unpack_pack_i t Ht) as (bt & -> & _).
  destruct (unpack_pack_i (len d) Hd) as (bd & -> & _). eauto.
Qed.

(** ** [readPacket] on a stream of packets *)

Lemma slice_first (raw rest e tail : bytes) :
  raw <> [] -> raw ++ rest = e ++ tail -> head e = Some NUL ->
  slice (Some 0) (Some 1) raw = [NUL].
Proof.
  intros Hr He Hh. rewrite slice_between by lia.
  destruct raw as [|c raw]; [done|]. destruct e as [|c' e]; [done|].
  simpl in *. simplify_eq. done.
Qed.

(** The frame step on a buffer that is a non-empty prefix of the encoding
    of [p] followed by [tail], or goes beyond that encoding. *)
Lemma frame_binary (s : RP.t) (p : Packet.t) (e rest tail : bytes) :
  wire_packet p -> Packet.toBinary p = Some e ->
  RP.raw_bytes s <> [] ->
  RP.raw_bytes s ++ rest = e ++ tail ->
  RP.admin s = None \/ RP.admin s = Some false ->
  header_ok p (RP.header s) ->
  (len (RP.raw_bytes s) < len e /\
   exists h, header_ok p h /\
     RP.frame s = (None, RP.mk (RP.raw_bytes s) (RP.need_bytes s) (Some false)
                           (RP.admin_request s) h (RP.admin_requests s) (RP.admins s)))
  \/
  (len e <= len (RP.raw_bytes s) /\
   exists h,
     RP.frame s = (Some (RP.Returns (Some (inl p))),
                   RP.mk (drop (length e) (RP.raw_bytes s)) (RP.need_bytes s) (Some false)
                     (RP.admin_request s) h (RP.admin_requests s) (RP.admins s))).
Proof.
  intros Hw Hb Hne Hpre Hadm Hhdr.
  destruct (toBinary_Some p e Hw Hb) as (h & -> & Hlh & Hhh & Hun).
  destruct s as [raw need adm areq hdr areqs adms]. simpl in *.
  assert (Hfirst : slice (Some 0) (Some 1) raw = [NUL]).
  { eapply slice_first; [done|done|]. by destruct h. }
  unfold RP.frame. simpl.
  assert (Hr : (match adm with
                | Some _ => Ok (RP.mk raw need adm areq hdr areqs adms)
                | None =>
                    if decide (slice (Some 0) (Some 1) raw = [NUL])
                    then Ok (RP.set_binary (RP.mk raw need adm areq hdr areqs adms))
                    else match areqs with
                         | a :: rest0 => Ok (RP.set_admin a rest0 (RP.mk raw need adm areq hdr areqs adms))
                         | [] => Raise IndexError
                         end
                end) = Ok (RP.mk raw need (Some false) areq hdr areqs adms)).
  { destruct Hadm as [->| ->]; [|done]. by rewrite decide_True by done. }
  rewrite Hr. clear Hr. simpl.
  assert (Hlen : len (h ++ Packet.data p) = 12 + len (Packet.data p)).
  { rewrite len_app. unfold len. lia. }
  pose proof (len_nonneg (Packet.data p)) as Hdl.
  (* the header, once twelve bytes are there *)
  assert (Htake : 12 <= len raw -> slice None (Some 12) raw = h).
  { intros H12. rewrite slice_to by lia. change (Z.to_nat 12) with 12%nat.
    assert (take 12 (raw ++ rest) = take 12 ((h ++ Packet.data p) ++ tail)) as Ht
      by (by rewrite Hpre).
    rewrite take_app_le in Ht by (unfold len in H12; lia).
    rewrite <- (assoc_L (++)), take_app_le in Ht by lia.
    rewrite Ht. by rewrite take_ge by lia. }
  set (hdr' := match hdr with
               | None =>
                   if 12 <=? len raw then
                     match unpack_4sii (slice None (Some 12) raw) with
                     | Some h0 => Ok (RP.set_header (Some h0) (RP.mk raw need (Some false) areq hdr areqs adms))
                     | None => Raise StructError
                     end
                   else Ok (RP.mk raw need (Some false) areq hdr areqs adms)
               | Some _ => Ok (RP.mk raw need (Some false) areq hdr areqs adms)
               end).
  assert (Hh' : exists h', header_ok p h' /\ (12 <= len raw -> h' <> None) /\
            hdr' = Ok (RP.mk raw need (Some false) areq h' areqs adms)).
  { subst hdr'. destruct Hhdr as [->| ->].
    - destruct (Z.leb_spec 12 (len raw)) as [H12|H12].
      + rewrite Htake by done. rewrite Hun.
        exists (Some (Packet.code p, Packet.ptype p, len (Packet.data p))).
        split; [by right|]. split; [discriminate|reflexivity].
      + exists None. split; [by left|]. split; [lia|done].
    - exists (Some (Packet.code p, Packet.ptype p, len (Packet.data p))).
      split; [by right|]. split; [discriminate|reflexivity]. }
  destruct Hh' as (h' & Hok & Hsome & ->). simpl.
  destruct (Z.leb_spec
              (match h' with Some (_, _, d) => d | None => 0 end + 12) (len raw)) as [Hge|Hlt].
  - right.
    assert (H12 : 12 <= len raw).
    { destruct Hok as [->| ->]; lia. }
    destruct Hok as [->| ->]; [by destruct Hsome|].
    split; [lia|]. exists (Some (Packet.code p, Packet.ptype p, len (Packet.data p))).
    assert (Hraw : raw = (h ++ Packet.data p) ++ drop (length (h ++ Packet.data p)) raw).
    { assert (take (length (h ++ Packet.data p)) (raw ++ rest)
              = take (length (h ++ Packet.data p)) ((h ++ Packet.data p) ++ tail)) as Ht
        by (by rewrite Hpre).
      rewrite take_app_le in Ht by (unfold len in *; lia).
      rewrite take_app_length in Ht.
      rewrite <- Ht at 1. by rewrite take_drop. }
    unfold Packet.init.
    destruct Hw as [Hc4 Hc0].
    rewrite decide_True.
    2:{ rewrite slice_between by lia. destruct (Packet.code p) as [|c0 cs]; [done|].
        simpl in *. by simplify_eq. }
    rewrite slice_between by lia. rewrite slice_from by lia.
    replace (Z.to_nat (12 + len (Packet.data p))) with (length (h ++ Packet.data p))
      by (rewrite length_app; unfold len; lia).
    replace (drop (Z.to_nat 12) raw) with (Packet.data p ++ drop (length (h ++ Packet.data p)) raw).
    2:{ rewrite Hraw at 2. rewrite <- (assoc_L (++)).
        change (Z.to_nat 12) with 12%nat. rewrite <- Hlh. by rewrite drop_app_length. }
    replace (Z.to_nat (12 + len (Packet.data p) - 12)) with (length (Packet.data p))
      by (unfold len; lia).
    rewrite take_app_length. simpl. by destruct p.
  - left. split.
    + destruct Hok as [->| ->]; [|lia].
      destruct (Z.le_gt_cases 12 (len raw)) as [H12|H12]; [by destruct Hsome|lia].
    + exists h'. split; [done|]. done.
Qed.

Lemma drop_prefix (raw rest e tail : bytes) :
  raw ++ rest = e ++ tail -> (length e <= length raw)%nat ->
  drop (length e) raw ++ rest = tail.
Proof.
  intros H Hl. rewrite <- drop_app_le by done. rewrite H.
  by rewrite drop_app_length.
Qed.

Lemma loop_binary (stall : exn) (p : Packet.t) (e tail : bytes) (segs : list bytes) :
  wire_packet p -> Packet.toBinary p = Some e -> Forall nonempty segs ->
  forall s,
    RP.raw_bytes s ++ concat segs = e ++ tail ->
    len (RP.raw_bytes s) < len e ->
    RP.admin s = None \/ RP.admin s = Some false ->
    header_ok p (RP.header s) ->
    exists raw' h segs',
      RP.loop stall segs s =
        (RP.Returns (Some (inl p)),
         RP.mk raw' false (Some false) (RP.admin_request s) h
           (RP.admin_requests s) (RP.admins s), segs') /\
      raw' ++ concat segs' = tail /\ Forall nonempty segs'.
Proof.
  intros Hw Hb Hsegs. induction Hsegs as [|seg segs Hseg Hsegs IH];
    intros s Hpre Hlt Hadm Hhdr.
  - simpl in Hpre. rewrite app_nil_r in Hpre. rewrite Hpre, len_app in Hlt.
    pose proof (len_nonneg tail). lia.
  - simpl. destruct seg as [|c seg]; [done|]. simpl truthy. cbv iota.
    set (s1 := RP.set_need false (RP.set_raw (RP.raw_bytes s ++ c :: seg) s)).
    simpl in Hpre.
    destruct (frame_binary s1 p e (concat segs) tail Hw Hb) as
      [[Hlt1 (h & Hh & Hf)]|[Hge1 (h & Hf)]].
    + subst s1. simpl. by destruct (RP.raw_bytes s).
    + subst s1. simpl. by rewrite <- (assoc_L (++)).
    + done.
    + done.
    + rewrite Hf.
      destruct (IH (RP.set_need true
                      (RP.mk (RP.raw_bytes s1) (RP.need_bytes s1) (Some false)
                         (RP.admin_request s1) h (RP.admin_requests s1) (RP.admins s1))))
        as (raw' & h' & segs' & Hl & Ht & Hn).
      * subst s1. simpl. by rewrite <- (assoc_L (++)).
      * done.
      * by right.
      * done.
      * rewrite Hl. by exists raw', h', segs'.
    + rewrite Hf. eexists _, h, segs. split; [done|]. split; [|done].
      subst s1. simpl. apply drop_prefix.
      * by rewrite <- (assoc_L (++)).
      * simpl in Hge1. unfold len in Hge1. lia.
Qed.

Lemma run_binary (stall : exn) (p : Packet.t) (e tail : bytes) (segs : list bytes)
    (s : RP.t) :
  wire_packet p -> Packet.toBinary p = Some e -> Forall nonempty segs ->
  RP.raw_bytes s ++ concat segs = e ++ tail ->
  RP.need_bytes s = false -> RP.admin s = None -> RP.header s = None ->
  exists raw' h segs',
    RP.run stall segs s =
      (RP.Returns (Some (inl p)),
       RP.mk raw' false (Some false) (RP.admin_request s) h
         (RP.admin_requests s) (RP.admins s), segs') /\
    raw' ++ concat segs' = tail /\ Forall nonempty segs'.
Proof.
  intros Hw Hb Hsegs Hpre Hneed Hadm Hhdr. unfold RP.run. rewrite Hneed.
  pose proof (toBinary_length p e Hw Hb) as H12.
  destruct (RP.raw_bytes s) as [|c raw] eqn:Eraw.
  - simpl.
    apply (loop_binary stall p e tail segs Hw Hb Hsegs).
    + by rewrite Eraw.
    + rewrite Eraw. unfold len at 1. simpl. lia.
    + by left.
    + rewrite Hhdr. by left.
  - simpl.
    destruct (frame_binary s p e (concat segs) tail Hw Hb) as
      [[Hlt1 (h & Hh & Hf)]|[Hge1 (h & Hf)]].
    + by rewrite Eraw.
    + by rewrite Eraw.
    + by left.
    + rewrite Hhdr. by left.
    + rewrite Hf.
      destruct (loop_binary stall p e tail segs Hw Hb Hsegs
                  (RP.set_need true
                     (RP.mk (RP.raw_bytes s) (RP.need_bytes s) (Some false)
                        (RP.admin_request s) h (RP.admin_requests s) (RP.admins s))))
        as (raw' & h' & segs' & Hl & Ht & Hn).
      * simpl. by rewrite Eraw.
      * done.
      * by right.
      * done.
      * rewrite Hl. by exists raw', h', segs'.
    + rewrite Hf, Hneed. eexists _, h, segs. split; [done|]. split; [|done].
      apply drop_prefix.
      * by rewrite Eraw.
      * unfold len in Hge1. lia.
Qed.

Lemma readPacket_binary (w : World) (self : nat) (p : Packet.t) (e tail : bytes) :
  wire_packet p -> Packet.toBinary p = Some e ->
  decoding w self (e ++ tail) ->
  exists w',
    Connection_readPacket self w = (Ok (Some (inl p)), w') /\
    decoding w' self tail.
Proof.
  intros Hw Hb (conn & sock & Hc & Hs & Hn & Hpre & Hne).
  unfold Connection_readPacket. rewrite Hc, Hs.
  destruct (run_binary RetryIOError p e tail (Socket.incoming sock)
              (RP.mk (Connection.input_buffer conn) (Connection.need_bytes conn)
                 None None None (Connection.admin_requests conn) (admins w)))
    as (raw' & h & segs' & Hrun & Ht & Hne'); try done.
  rewrite Hrun. eexists. split; [done|].
  eexists _, _. split; [apply lookup_insert_eq|]. simpl.
  rewrite Hs. simpl. done.
Qed.

Lemma decoding_nil (w : World) (self : nat) :
  decoding w self [] ->
  exists conn sock,
    connections w !! self = Some conn /\ Connection.conn conn = Some sock /\
    Connection.input_buffer conn = [] /\ Socket.incoming sock = [].
Proof.
  intros (conn & sock & Hc & Hs & Hn & Hpre & Hne).
  exists conn, sock. apply app_eq_nil in Hpre as [H1 H2].
  repeat split; try done.
  destruct (Socket.incoming sock) as [|seg segs]; [done|].
  simpl in H2. apply app_eq_nil in H2 as [H2 _].
  by apply Forall_cons in Hne as [Hne _].
Qed.

Lemma decoding_pending (w : World) (self : nat) (stream : bytes) :
  decoding w self stream -> stream <> [] ->
  exists conn,
    connections w !! self = Some conn /\
    truthy (Connection.input_buffer conn)
    || match Connection.conn conn with
       | Some sock => truthy (Socket.incoming sock)
       | None => false
       end = true.
Proof.
  intros (conn & sock & Hc & Hs & Hn & Hpre & Hne) Hstream.
  exists conn. split; [done|]. rewrite Hs.
  destruct (Connection.input_buffer conn); [|done].
  destruct (Socket.incoming sock); [|done]. simpl in Hpre. congruence.
Qed.

Lemma readPackets_decodes (ps : list Packet.t) :
  Forall wire_packet ps ->
  forall (stream : bytes) (w : World) (self fuel : nat),
    toBinary_all ps = Some stream ->
    decoding w self stream ->
    (length ps < fuel)%nat ->
    exists w', readPackets fuel self w = (Ok (inl <$> ps), w') /\ decoding w' self [].
Proof.
  induction 1 as [|p ps Hw Hps IH]; intros stream w self fuel Henc Hdec Hfuel.
  - simpl in Henc. simplify_eq. destruct fuel as [|fuel]; [simpl in Hfuel; lia|].
    destruct (decoding_nil _ _ Hdec) as (conn & sock & Hc & Hs & Hb & Hi).
    exists w. split; [|done]. simpl. unfold Connection_hasPendingData. munfold.
    repeat (first [rewrite Hc|rewrite Hs|rewrite Hb|rewrite Hi]; munfold). done.
  - simpl in Henc.
    destruct (Packet.toBinary p) as [e|] eqn:Eb; [|done].
    destruct (toBinary_all ps) as [r|] eqn:Er; [|done]. simplify_eq.
    destruct fuel as [|fuel]; [simpl in Hfuel; lia|].
    destruct (decoding_pending _ _ _ Hdec) as (conn & Hc & Hp).
    { pose proof (toBinary_length p e Hw Eb). destruct e; [|done].
      unfold len in *. simpl in *. lia. }
    destruct (readPacket_binary w self p e r Hw Eb Hdec) as (w1 & Hr & Hdec1).
    destruct (IH r w1 self fuel eq_refl Hdec1) as (w2 & Hrs & Hdec2).
    { simpl in Hfuel. lia. }
    exists w2. split; [|done]. simpl. unfold Connection_hasPendingData. munfold.
    repeat (first [rewrite Hc|rewrite Hp|rewrite Hr|rewrite Hrs]; munfold). done.
Qed.

Example demo_stream_is_encoding : toBinary_all demo_packets = Some demo_stream.
Proof. reflexivity. Qed.

(** C2: the packets of a sequence, each with a magic code of four bytes
    that starts with NUL, encoded by [toBinary] one after the other and
    delivered by the socket in any segments, are read back by [readPacket]
    as the same sequence, payloads included whatever bytes they hold; the
    buffer and the socket are empty afterwards. *)
Theorem readPackets_toBinary_roundtrip (ps : list Packet.t) (stream : bytes)
    (segs : list bytes) (w : World) (self : nat) (conn : Connection.t)
    (sock : Socket.t) (fuel : nat) :
  Forall wire_packet ps ->
  toBinary_all ps = Some stream ->
  concat segs = stream ->
  Forall nonempty segs ->
  connections w !! self = Some conn ->
  Connection.conn conn = Some sock ->
  Connection.input_buffer conn = [] ->
  Connection.need_bytes conn = false ->
  Socket.incoming sock = segs ->
  (length ps < fuel)%nat ->
  exists w',
    readPackets fuel self w = (Ok (inl <$> ps), w') /\
    decoding w' self [].
Proof.
  intros Hps Henc Hcat Hsegs Hc Hs Hb Hn Hi Hfuel.
  apply (readPackets_decodes ps Hps stream); [done| |done].
  exists conn, sock. rewrite Hb, Hi. simpl. by subst.
Qed.

Lemma readPackets_toBinary_roundtrip_witness :
  Forall wire_packet demo_packets /\
  toBinary_all demo_packets = Some demo_stream /\
  concat demo_segments = demo_stream /\
  Forall nonempty demo_segments /\
  exists w',
    readPackets 4 0 demo_reader = (Ok (inl <$> demo_packets), w') /\
    decoding w' 0 [].
Proof.
  assert (H1 : Forall wire_packet demo_packets).
  { repeat constructor. }
  assert (H2 : Forall nonempty demo_segments).
  { repeat constructor; discriminate. }
  split; [exact H1|]. split; [reflexivity|]. split; [reflexivity|].
  split; [exact H2|].
  eapply (readPackets_toBinary_roundtrip demo_packets demo_stream demo_segments
            demo_reader 0); first [exact H1 | exact H2 | reflexivity | simpl; lia].
Defined.

(** ** The round robin of [getConnection] *)

Lemma getConnection_empty (w : World) :
  active_connections w = [] ->
  getConnection w = (Raise NoConnectedServersError, w).
Proof. intros H. unfold getConnection. munfold. by rewrite H. Qed.

Lemma next_index_range (n i : Z) : 0 < n -> -1 <= i -> 0 <= next_index n i < n.
Proof. intros. unfold next_index. destruct (Z.leb_spec n (i + 1)); lia. Qed.

Lemma getConnection_step (w : World) :
  active_connections w <> [] -> -1 <= connection_index w ->
  let j := next_index (len (active_connections w)) (connection_index w) in
  exists conn,
    getConnection w = (Ok conn, set_connection_index j w) /\
    active_connections w !! Z.to_nat j = Some conn.
Proof.
  intros Hne Hi j.
  assert (Hn : 0 < len (active_connections w)).
  { unfold len. destruct (active_connections w); [done|]. simpl. lia. }
  pose proof (next_index_range _ _ Hn Hi) as Hj. fold j in Hj.
  destruct (lookup_lt_is_Some_2 (active_connections w) (Z.to_nat j)) as [conn Hc].
  { unfold len in *. lia. }
  exists conn. split; [|done].
  unfold getConnection. munfold.
  destruct (active_connections w) as [|c0 l] eqn:El; [done|]. simpl truthy. cbn iota.
  destruct w as [ro ci ru cs ac ina idx jo ta ad op wi fu wa jq].
  simpl in *. subst ac. unfold with_connection_index. simpl.
  unfold next_index in j.
  destruct (Z.leb_spec (len (c0 :: l)) (idx + 1)) as [Hle|Hgt]; subst j; munfold;
    unfold with_connection_index; simpl.
  - unfold pyindex. simpl in *. by simplify_eq.
  - unfold pyindex. destruct (Z.ltb_spec (idx + 1) 0); [lia|].
    by rewrite Hc.
Qed.

Lemma mod_small_neg (x n : Z) : - n <= x < 0 -> x mod n = x + n.
Proof.
  intros H. rewrite <- (Z.mod_add x 1 n) by lia. rewrite Z.mul_1_l.
  apply Z.mod_small. lia.
Qed.

Lemma turns_0 (n p q : Z) : 0 < n -> turns n 0 p q = 0.
Proof.
  intros Hn. unfold turns. pose proof (Z.mod_pos_bound (q - p) n Hn).
  apply Z.div_small. lia.
Qed.

Lemma turns_hit (n k q : Z) :
  0 < n -> 0 <= q < n -> 0 <= k ->
  turns n (k + 1) q q = 1 + turns n k (next_index n q) q.
Proof.
  intros Hn Hq Hk. unfold turns, next_index.
  rewrite Z.sub_diag, Z.mod_0_l by lia.
  replace (k + 1 + n - 1 - 0) with (k + 1 * n) by lia.
  rewrite Z.div_add by lia.
  destruct (Z.leb_spec n (q + 1)).
  - assert (q = n - 1) as -> by lia.
    destruct (Z.eq_dec n 1) as [->|].
    + simpl. rewrite Z.mod_1_r. replace (k + 1 - 1 - 0) with k by lia. lia.
    + rewrite Z.sub_0_r, Z.mod_small by lia.
      replace (k + n - 1 - (n - 1)) with k by lia. lia.
  - replace (q - (q + 1)) with (-1) by lia.
    rewrite mod_small_neg by lia.
    replace (k + n - 1 - (-1 + n)) with k by lia. lia.
Qed.

Lemma turns_miss (n k p q : Z) :
  0 < n -> 0 <= p < n -> 0 <= q < n -> p <> q ->
  turns n (k + 1) p q = turns n k (next_index n p) q.
Proof.
  intros Hn Hp Hq Hpq. unfold turns, next_index. f_equal.
  destruct (Z.leb_spec n (p + 1)).
  - assert (p = n - 1) as -> by lia.
    rewrite Z.sub_0_r, (Z.mod_small q) by lia.
    rewrite mod_small_neg by lia. lia.
  - destruct (Z.lt_ge_cases q p).
    + rewrite !mod_small_neg by lia. lia.
    + rewrite !Z.mod_small by lia. lia.
Qed.

Lemma turns_bounds (n k p q : Z) :
  0 < n -> 0 <= k ->
  turns n k p q = k / n \/ turns n k p q = (k + n - 1) / n.
Proof.
  intros Hn Hk. unfold turns.
  pose proof (Z.mod_pos_bound (q - p) n Hn) as Hd.
  assert (k / n <= (k + n - 1 - (q - p) mod n) / n) by (apply Z.div_le_mono; lia).
  assert ((k + n - 1 - (q - p) mod n) / n <= (k + n - 1) / n)
    by (apply Z.div_le_mono; lia).
  assert ((k + n - 1) / n <= k / n + 1).
  { replace (k / n + 1) with ((k + 1 * n) / n) by (rewrite Z.div_add; lia).
    apply Z.div_le_mono; lia. }
  lia.
Qed.

Lemma occurrences_cons (c x : nat) (l : list nat) :
  occurrences c (x :: l) = (if decide (x = c) then 1 else 0) + occurrences c l.
Proof.
  unfold occurrences. rewrite filter_cons. case_decide; [rewrite len_cons|]; lia.
Qed.

Lemma getConnection_times_turns (c : nat) (q : nat) :
  forall (k : nat) (w : World),
    NoDup (active_connections w) ->
    active_connections w !! q = Some c ->
    -1 <= connection_index w ->
    exists conns w',
      getConnection_times k w = (Ok conns, w') /\
      active_connections w' = active_connections w /\
      occurrences c conns =
        turns (len (active_connections w)) (Z.of_nat k)
          (next_index (len (active_connections w)) (connection_index w))
          (Z.of_nat q).
Proof.
  induction k as [|k IH]; intros w Hnd Hq Hi.
  - exists [], w. split; [done|]. split; [done|].
    rewrite turns_0; [done|]. apply lookup_lt_Some in Hq. unfold len. lia.
  - assert (Hne : active_connections w <> []) by (by destruct (active_connections w)).
    assert (Hn : 0 < len (active_connections w)).
    { apply lookup_lt_Some in Hq. unfold len. lia. }
    destruct (getConnection_step w Hne Hi) as (conn & Hg & Hc).
    set (n := len (active_connections w)) in *.
    set (p := next_index n (connection_index w)) in *.
    pose proof (next_index_range n _ Hn Hi) as Hp. fold p in Hp.
    destruct (IH (set_connection_index p w)) as (conns & w' & Ht & Ha & Ho).
    { by destruct w. }
    { by destruct w. }
    { destruct w; simpl. lia. }
    exists (conn :: conns), w'. split.
    { simpl. munfold. rewrite Hg. munfold. rewrite Ht. done. }
    split; [rewrite Ha; by destruct w|].
    rewrite occurrences_cons, Ho.
    replace (active_connections (set_connection_index p w))
      with (active_connections w) by (by destruct w).
    replace (connection_index (set_connection_index p w)) with p by (by destruct w).
    fold n. replace (Z.of_nat (S k)) with (Z.of_nat k + 1) by lia.
    assert (Hqn : 0 <= Z.of_nat q < n).
    { apply lookup_lt_Some in Hq. unfold n, len. lia. }
    case_decide as Hcc.
    + subst conn.
      assert (Z.to_nat p = q) by (by eapply NoDup_lookup).
      assert (p = Z.of_nat q) as -> by lia.
      rewrite turns_hit by lia. done.
    + assert (p <> Z.of_nat q).
      { intros ->. rewrite Nat2Z.id in Hc. congruence. }
      rewrite turns_miss by lia. lia.
Qed.

(** C4: with a cursor that is at least [-1], as it is from the constructor
    on, [getConnection] on a non-empty active list moves the cursor one
    further, or to 0 when that reaches or passes the length of the list,
    and returns the connection at the new cursor; on an empty list it
    raises NoConnectedServersError and changes nothing. Over [k] calls on a
    list of [n] distinct connections each of them is returned [k / n]
    times rounded down or rounded up. *)
Theorem getConnection_round_robin (w : World) :
  -1 <= connection_index w ->
  let n := len (active_connections w) in
  (active_connections w = [] ->
     getConnection w = (Raise NoConnectedServersError, w)) /\
  (active_connections w <> [] ->
     let i := next_index n (connection_index w) in
     0 <= i < n /\
     exists conn,
       getConnection w = (Ok conn, set_connection_index i w) /\
       active_connections w !! Z.to_nat i = Some conn) /\
  (NoDup (active_connections w) ->
   forall (k : nat) (c : nat),
     c ∈ active_connections w ->
     exists conns w',
       getConnection_times k w = (Ok conns, w') /\
       active_connections w' = active_connections w /\
       (occurrences c conns = Z.of_nat k / n \/
        occurrences c conns = (Z.of_nat k + n - 1) / n)).
Proof.
  intros Hi n. split; [apply getConnection_empty|]. split.
  - intros Hne i. split.
    + apply next_index_range; [|done]. subst n.
      destruct (active_connections w); [done|]. rewrite len_cons.
      pose proof (len_nonneg l). lia.
    + by apply getConnection_step.
  - intros Hnd k c Hc. apply list_elem_of_lookup in Hc as [q Hq].
    destruct (getConnection_times_turns c q k w Hnd Hq Hi) as (conns & w' & Ht & Ha & Ho).
    exists conns, w'. split; [done|]. split; [done|]. rewrite Ho.
    apply turns_bounds; [|lia]. apply lookup_lt_Some in Hq. subst n. unfold len. lia.
Qed.

Lemma getConnection_round_robin_witness :
  -1 <= connection_index demo_client /\
  exists conns w',
    getConnection_times 7 demo_client = (Ok conns, w') /\
    active_connections w' = active_connections demo_client /\
    (occurrences 1 conns = 7 / 3 \/ occurrences 1 conns = (7 + 3 - 1) / 3).
Proof.
  assert (H : -1 <= connection_index demo_client) by (simpl; lia).
  split; [exact H|].
  destruct (getConnection_round_robin demo_client H) as (_ & _ & Hfair).
  apply (Hfair ltac:(apply (bool_decide_unpack _); vm_compute; exact I) 7%nat 1%nat).
  apply (bool_decide_unpack _). vm_compute. exact I.
Defined.

(** ** Lost connections and sends *)

Lemma handleDisconnect_client (j : nat) (w : World) :
  role w = ClientRole -> handleDisconnect j w = (Ok tt, w).
Proof. intros Hr. unfold handleDisconnect. munfold. by rewrite Hr. Qed.

Lemma for_each_handleDisconnect (jobs : list nat) (w : World) :
  role w = ClientRole -> for_each jobs handleDisconnect w = (Ok tt, w).
Proof.
  intros Hr. induction jobs as [|j jobs IH]; [done|].
  simpl. munfold. by rewrite handleDisconnect_client.
Qed.

Lemma role_marked_lost (conn : nat) (w : World) :
  role (marked_lost conn w) = role w.
Proof. unfold marked_lost. repeat case_decide; by destruct w. Qed.

Lemma _lostConnection_client (conn : nat) (c : Connection.t) (w : World) :
  role w = ClientRole -> connections w !! conn = Some c ->
  _lostConnection conn w = (Ok tt, marked_lost conn w).
Proof.
  intros Hr Hc. unfold _lostConnection. munfold. rewrite Hc. munfold.
  fold (marked_lost conn w).
  apply for_each_handleDisconnect. by rewrite role_marked_lost.
Qed.

Lemma remove_first_not_elem (x : nat) (l : list nat) :
  NoDup l -> x ∉ remove_first x l.
Proof.
  induction 1 as [|y l Hy Hl IH]; simpl.
  - apply not_elem_of_nil.
  - case_decide as Hxy.
    + by subst y.
    + apply not_elem_of_cons. split; [congruence|done].
Qed.

Lemma marked_lost_pool (conn : nat) (w : World) :
  NoDup (active_connections w) ->
  (conn ∉ active_connections (marked_lost conn w)) /\
  (conn ∈ inactive_connections (marked_lost conn w)).
Proof.
  intros Hnd. unfold marked_lost.
  destruct w as [ro ci ru cs ac ina idx jo ta ad op wi fu wa jq]; simpl in *.
  destruct (decide (conn ∈ ac)); simpl;
    destruct (decide (conn ∈ ina)); simpl; split;
    try done; try (by apply remove_first_not_elem);
    apply elem_of_app; right; apply list_elem_of_singleton; done.
Qed.

Lemma marked_lost_heaps (conn : nat) (w : World) :
  connections (marked_lost conn w) = connections w /\
  jobs (marked_lost conn w) = jobs w /\
  tasks (marked_lost conn w) = tasks w.
Proof. unfold marked_lost. repeat case_decide; by destruct w. Qed.

Lemma sendPacket_writable (w : World) (c : nat) (conn : Connection.t)
    (p : Packet.t) (bs : bytes) :
  writable w c conn -> Packet.toBinary p = Some bs ->
  sendPacket p c w = (Ok tt, sent_on c bs w).
Proof.
  intros (Hc & sock & Hs & Hb) Hp.
  unfold sendPacket, Connection_sendPacket, Connection_sendRaw. rewrite Hp.
  munfold. rewrite Hc. munfold. rewrite Hs, Hb. done.
Qed.

(** ** [submitJob] *)

Lemma submitJob_packet_rows (K : constants.t) (job : Job.t) :
  let pkt := fun cmd => Ok (Packet.mk constants.REQ cmd (submit_payload job)) in
  submitJob_packet K job false PRECEDENCE_NORMAL = pkt (constants.SUBMIT_JOB K) /\
  submitJob_packet K job false PRECEDENCE_LOW = pkt (constants.SUBMIT_JOB_LOW K) /\
  submitJob_packet K job false PRECEDENCE_HIGH = pkt (constants.SUBMIT_JOB_HIGH K) /\
  submitJob_packet K job true PRECEDENCE_NORMAL = pkt (constants.SUBMIT_JOB_BG K) /\
  submitJob_packet K job true PRECEDENCE_LOW = pkt (constants.SUBMIT_JOB_LOW_BG K) /\
  submitJob_packet K job true PRECEDENCE_HIGH = pkt (constants.SUBMIT_JOB_HIGH_BG K).
Proof.
  unfold submitJob_packet, submit_payload. simpl.
  destruct (Job.unique job); simpl; repeat split; done.
Qed.

Lemma submitJob_packet_invalid (K : constants.t) (job : Job.t) (background : bool)
    (precedence : Z) :
  ~ valid_precedence precedence ->
  submitJob_packet K job background precedence = Raise ConfigurationError.
Proof.
  unfold valid_precedence, PRECEDENCE_NORMAL, PRECEDENCE_LOW, PRECEDENCE_HIGH.
  intros Hp. unfold submitJob_packet, PRECEDENCE_NORMAL, PRECEDENCE_LOW, PRECEDENCE_HIGH.
  destruct (Z.eqb_spec precedence 0); [tauto|].
  destruct (Z.eqb_spec precedence 1); [tauto|].
  destruct (Z.eqb_spec precedence 2); [tauto|].
  by destruct background.
Qed.

Lemma submitJob_packet_valid (K : constants.t) (job : Job.t) (background : bool)
    (precedence : Z) :
  valid_precedence precedence ->
  exists cmd,
    submitJob_packet K job background precedence =
      Ok (Packet.mk constants.REQ cmd (submit_payload job)).
Proof.
  pose proof (submitJob_packet_rows K job) as (H1 & H2 & H3 & H4 & H5 & H6).
  intros [->|[->| ->]]; destruct background; eauto.
Qed.


Lemma submitJob_valid (K : constants.t) (fuel j : nat) (job : Job.t)
    (background : bool) (precedence : Z) (durings : list Interleaving) (w : World)
    (packet : Packet.t) :
  jobs w !! j = Some job ->
  submitJob_packet K job background precedence = Ok packet ->
  submitJob K fuel j background precedence durings w =
    submitJob_loop fuel j packet ∅ durings w.
Proof.
  intros Hj Hp. unfold submitJob. munfold. rewrite Hj. munfold. by rewrite Hp.
Qed.

(** Where a turn of the loop of [submitJob] sends: on the connection that
    [getConnection] gives, after the new task joined its pending tasks. *)
Lemma submitJob_send_writable (j : nat) (packet : Packet.t) (bs : bytes)
    (w w1 : World) (conn : nat) (c : Connection.t) :
  getConnection w = (Ok conn, w1) ->
  writable w1 conn c ->
  Packet.toBinary packet = Some bs ->
  let task := fresh (dom (tasks w1)) in
  submitJob_send j packet w =
    (Ok (conn, task, true),
     sent_on conn bs
       (with_connections
          (alter (Connection.with_pending_tasks (fun l => l ++ [task])) conn)
          (with_tasks (insert task (Task.init (Task.SubmitJobTask j))) w1))).
Proof.
  intros Hg (Hc & sock & Hs & Hb) Hp task.
  unfold submitJob_send, new_task. munfold. rewrite Hg. munfold.
  fold task.
  erewrite sendPacket_writable; [done| |done].
  split.
  - simpl. rewrite lookup_alter_eq, Hc. done.
  - exists sock. done.
Qed.



(** ** The handlers of the WORK packets *)

Lemma getArgument_last (p : Packet.t) (i : nat) :
  exists d, Packet.getArgument p i true = Ok d.
Proof. unfold Packet.getArgument. eauto. Qed.

(** The handlers return when the job is registered under the handle that
    it carries. *)
Lemma terminal_handler_returns (t : terminal) (c : nat) (packet : Packet.t)
    (w : World) (conn : Connection.t) (j : nat) (job : Job.t) (h : bytes) :
  Packet.getArgument packet 0 false = Ok h ->
  connections w !! c = Some conn ->
  Connection.related_jobs conn !! h = Some j ->
  jobs w !! j = Some job ->
  Job.handle job = Some h ->
  exists w', terminal_handler t c packet w = (Ok j, w').
Proof.
  intros H0 Hc Hr Hj Hh.
  destruct (getArgument_last packet 1) as [d Hd].
  destruct t; simpl;
    unfold handleWorkComplete, handleWorkFail, handleWorkException,
      Packet_getJob, del_related_jobs; munfold;
    rewrite H0; munfold; rewrite Hc; munfold; rewrite Hr; munfold;
    rewrite ?Hd; munfold.
  - destruct (truthy d); munfold; simpl; rewrite !lookup_alter_eq, Hj; simpl;
      rewrite Hc, Hh; munfold; rewrite decide_True by (by rewrite Hr);
      munfold; eauto.
  - simpl. rewrite !lookup_alter_eq, Hj. simpl.
    rewrite Hc, Hh. munfold. rewrite decide_True by (by rewrite Hr).
    munfold. eauto.
  - simpl. rewrite !lookup_alter_eq, Hj. simpl.
    rewrite Hc, Hh. munfold. rewrite decide_True by (by rewrite Hr).
    munfold. eauto.
Qed.



Lemma empty_after_handle_arguments (packet : Packet.t) (h : bytes) :
  empty_after_handle packet h ->
  Packet.getArgument packet 0 false = Ok h /\
  Packet.getArgument packet 1 true = Ok [].
Proof.
  intros [Hn [Hd|Hd]]; unfold Packet.getArgument; rewrite Hd.
  - by rewrite split_no_sep.
  - by rewrite split_sep_end.
Qed.

(** C10: when the payload of a WORK_DATA, WORK_WARNING or WORK_COMPLETE
    packet is the handle of a job of the connection with nothing after it,
    the handler leaves the data list of the job as it is; WORK_DATA changes
    nothing in the job, WORK_WARNING sets its warning flag, WORK_COMPLETE
    sets complete and clears failure. *)
Theorem empty_payload_not_appended (t : appending) (c : nat) (packet : Packet.t)
    (h : bytes) (w : World) (conn : Connection.t) (j : nat) (job : Job.t) :
  empty_after_handle packet h ->
  connections w !! c = Some conn ->
  Connection.related_jobs conn !! h = Some j ->
  jobs w !! j = Some job ->
  exists job',
    jobs (appending_handler t c packet w).2 !! j = Some job' /\
    Job.data job' = Job.data job /\
    match t with
    | WorkData => job' = job /\ (appending_handler t c packet w).1 = Ok j
    | WorkWarning =>
        Job.warning job' = true /\ (appending_handler t c packet w).1 = Ok j
    | WorkCompleteData =>
        Job.complete job' = true /\ Job.failure job' = false
    end.
Proof.
  intros He Hc Hr Hj.
  destruct (empty_after_handle_arguments _ _ He) as [H0 H1].
  destruct t; simpl;
    unfold handleWorkData, handleWorkWarning, handleWorkComplete,
      Packet_getJob, del_related_jobs; munfold;
    rewrite H0; munfold; rewrite Hc; munfold; rewrite Hr; munfold;
    rewrite H1; munfold; simpl.
  - exists job. by rewrite Hj.
  - eexists. rewrite lookup_alter_eq, Hj. simpl. done.
  - rewrite !lookup_alter_eq, Hj. simpl. rewrite Hc.
    repeat case_match; simplify_eq; simpl; rewrite ?lookup_alter_eq, ?Hj; simpl;
      eexists; (split; [done|]); done.
Qed.

Lemma empty_payload_not_appended_witness :
  empty_after_handle demo_empty_complete (b "H:1") /\
  connections demo_running !! 0%nat = Some demo_accepted_connection /\
  Connection.related_jobs demo_accepted_connection !! b "H:1" = Some 0%nat /\
  jobs demo_running !! 0%nat = Some demo_accepted_job /\
  exists job',
    jobs (handleWorkComplete 0 demo_empty_complete demo_running).2 !! 0%nat = Some job' /\
    Job.data job' = Job.data demo_accepted_job /\
    Job.complete job' = true /\ Job.failure job' = false.
Proof.
  assert (He : empty_after_handle demo_empty_complete (b "H:1")).
  { split; [|right; reflexivity]. apply (bool_decide_unpack _). vm_compute. exact I. }
  split; [exact He|]. split; [reflexivity|]. split; [reflexivity|].
  split; [reflexivity|].
  exact (empty_payload_not_appended WorkCompleteData 0 demo_empty_complete
           (b "H:1") demo_running demo_accepted_connection 0 demo_accepted_job
           He eq_refl eq_refl eq_refl).
Defined.

(** The first scenario of the specification: the server answers the
    submission with JOB_CREATED [H:1] and then WORK_COMPLETE
    [H:1\x00olleh]. *)
Example scenario_work_complete :
  let created := Packet.mk constants.RES 8 (b "H:1") in
  let complete := Packet.mk constants.RES 13 (b "H:1" ++ [NUL] ++ b "olleh") in
  let submitted :=
    submitJob gearman 3 0 false PRECEDENCE_NORMAL
      [fun w => (handleJobCreated 0 created w).2] demo_client in
  let completed := handleWorkComplete 0 complete submitted.2 in
  submitted.1 = Ok tt /\
  completed.1 = Ok 0%nat /\
  (Job.handle <$> jobs completed.2 !! 0%nat) = Some (Some (b "H:1")) /\
  (Job.complete <$> jobs completed.2 !! 0%nat) = Some true /\
  (Job.failure <$> jobs completed.2 !! 0%nat) = Some false /\
  (Job.data <$> jobs completed.2 !! 0%nat) = Some [b "olleh"] /\
  (Job.connection <$> jobs completed.2 !! 0%nat) = Some (Some 0%nat).
Proof. vm_compute. repeat split; reflexivity. Qed.

(** The second scenario: WORK_EXCEPTION [H:1\x00boom], then WORK_FAIL
    [H:1], which finds the job gone. *)
Example scenario_work_exception :
  let fail := Packet.mk constants.RES 14 (b "H:1") in
  let failed := handleWorkException 0 demo_exception demo_running in
  failed.1 = Ok 0%nat /\
  (Job.exception <$> jobs failed.2 !! 0%nat) = Some (Some (b "boom")) /\
  (Job.complete <$> jobs failed.2 !! 0%nat) = Some true /\
  (Job.failure <$> jobs failed.2 !! 0%nat) = Some true /\
  (handleWorkFail 0 fail failed.2).1 = Raise UnknownJobError.
Proof. vm_compute. repeat split; reflexivity. Qed.

(** ** The worker *)

Lemma handleNoJob_GRAB_WAIT (K : constants.t) (w : World) (c : nat)
    (conn : Connection.t) (packet : Packet.t) :
  constants.int32 K = true ->
  writable w c conn -> Connection.state conn = "GRAB_WAIT" ->
  exists bs,
    Packet.toBinary (Packet.mk constants.REQ (constants.PRE_SLEEP K) []) = Some bs /\
    handleNoJob K c packet w = (Ok tt, in_state c "SLEEP" (sent_on c bs w)).
Proof.
  intros K_int32 Hw Hs.
  destruct (toBinary_int32 constants.REQ (constants.PRE_SLEEP K) []) as [bs Hbs].
  { apply (constants_int32_elem K); [done|]. unfold constants.all. set_solver. }
  { done. }
  exists bs. split; [done|].
  unfold handleNoJob, _sendPreSleep, Connection_changeState. munfold.
  destruct Hw as [Hc Hw']. rewrite Hc. munfold. rewrite Hs. simpl.
  rewrite (sendPacket_writable w c conn _ bs); [done| |done]. by split.
Qed.

Lemma handleNoop_SLEEP (K : constants.t) (w : World) (c : nat)
    (conn : Connection.t) (packet : Packet.t) :
  constants.int32 K = true ->
  writable w c conn -> Connection.state conn = "SLEEP" ->
  exists bs,
    Packet.toBinary (Packet.mk constants.REQ (constants.GRAB_JOB_UNIQ K) []) = Some bs /\
    handleNoop K c packet w = (Ok tt, in_state c "GRAB_WAIT" (sent_on c bs w)).
Proof.
  intros K_int32 Hw Hs.
  destruct (toBinary_int32 constants.REQ (constants.GRAB_JOB_UNIQ K) []) as [bs Hbs].
  { apply (constants_int32_elem K); [done|]. unfold constants.all. set_solver. }
  { done. }
  exists bs. split; [done|].
  unfold handleNoop, _sendGrabJobUniq, Connection_changeState. munfold.
  destruct Hw as [Hc Hw']. rewrite Hc. munfold. rewrite Hs. simpl.
  rewrite (sendPacket_writable w c conn _ bs); [done| |done]. by split.
Qed.

Lemma handleNoJob_other (K : constants.t) (w : World) (c : nat)
    (conn : Connection.t) (packet : Packet.t) :
  connections w !! c = Some conn -> Connection.state conn <> "GRAB_WAIT" ->
  handleNoJob K c packet w = (Ok tt, w).
Proof.
  intros Hc Hs. unfold handleNoJob. munfold. rewrite Hc. munfold.
  by rewrite bool_decide_eq_false_2.
Qed.

Lemma handleNoop_other (K : constants.t) (w : World) (c : nat)
    (conn : Connection.t) (packet : Packet.t) :
  connections w !! c = Some conn -> Connection.state conn <> "SLEEP" ->
  handleNoop K c packet w = (Ok tt, w).
Proof.
  intros Hc Hs. unfold handleNoop. munfold. rewrite Hc. munfold.
  by rewrite bool_decide_eq_false_2.
Qed.

Lemma handleJobAssign_spec (K : constants.t) (w : World) (c : nat) (packet : Packet.t)
    (handle name arguments : bytes) :
  NUL ∉ handle -> NUL ∉ name ->
  Packet.data packet = handle ++ NUL :: name ++ NUL :: arguments ->
  handleJobAssign K c packet w =
    _updateStateMachines K
      (assigned c (WorkerJob.mk handle name arguments None (Some c)) w).
Proof.
  intros Hh Hn Hd. unfold handleJobAssign, Packet.getArgument. rewrite Hd.
  rewrite split_cons_sep, split_cons_sep by done. cbn -[join split].
  rewrite drop_0, join_split. munfold. unfold _handleJobAssignment, Connection_changeState.
  munfold. done.
Qed.

Lemma handleJobAssignUnique_spec (K : constants.t) (w : World) (c : nat)
    (packet : Packet.t) (handle name unique arguments : bytes) :
  NUL ∉ handle -> NUL ∉ name -> NUL ∉ unique ->
  Packet.data packet = handle ++ NUL :: name ++ NUL :: unique ++ NUL :: arguments ->
  handleJobAssignUnique K c packet w =
    _updateStateMachines K
      (assigned c
         (WorkerJob.mk handle name arguments
            (if decide (unique = []) then None else Some unique) (Some c)) w).
Proof.
  intros Hh Hn Hu Hd. unfold handleJobAssignUnique, Packet.getArgument. rewrite Hd.
  rewrite !split_cons_sep by done. cbn -[join split].
  rewrite drop_0, join_split. munfold. unfold _handleJobAssignment, Connection_changeState.
  munfold. done.
Qed.

(** C6: on a connection whose socket takes the packet, NO_JOB received in
    the state GRAB_WAIT sends PRE_SLEEP on that connection and moves it to
    SLEEP, and NOOP received in the state SLEEP sends GRAB_JOB_UNIQ on it
    and moves it to GRAB_WAIT, nothing else changing; in any other state
    the two packets change nothing. JOB_ASSIGN and JOB_ASSIGN_UNIQ move the
    connection to IDLE, take one from [waiting_for_jobs], put at the end of
    the job queue the WorkerJob with the handle, name, unique and arguments
    of the payload, bound to the connection, and then run
    [_updateStateMachines]. *)
Theorem worker_state_machine (K : constants.t) (w : World) (c : nat)
    (conn : Connection.t) (packet : Packet.t) :
  constants.int32 K = true ->
  writable w c conn ->
  (Connection.state conn = "GRAB_WAIT" ->
   exists bs,
     Packet.toBinary (Packet.mk constants.REQ (constants.PRE_SLEEP K) []) = Some bs /\
     handleNoJob K c packet w = (Ok tt, in_state c "SLEEP" (sent_on c bs w))) /\
  (Connection.state conn <> "GRAB_WAIT" -> handleNoJob K c packet w = (Ok tt, w)) /\
  (Connection.state conn = "SLEEP" ->
   exists bs,
     Packet.toBinary (Packet.mk constants.REQ (constants.GRAB_JOB_UNIQ K) []) = Some bs /\
     handleNoop K c packet w = (Ok tt, in_state c "GRAB_WAIT" (sent_on c bs w))) /\
  (Connection.state conn <> "SLEEP" -> handleNoop K c packet w = (Ok tt, w)) /\
  (forall handle name arguments : bytes,
     NUL ∉ handle -> NUL ∉ name ->
     Packet.data packet = handle ++ NUL :: name ++ NUL :: arguments ->
     handleJobAssign K c packet w =
       _updateStateMachines K
         (assigned c (WorkerJob.mk handle name arguments None (Some c)) w)) /\
  (forall handle name unique arguments : bytes,
     NUL ∉ handle -> NUL ∉ name -> NUL ∉ unique ->
     Packet.data packet = handle ++ NUL :: name ++ NUL :: unique ++ NUL :: arguments ->
     handleJobAssignUnique K c packet w =
       _updateStateMachines K
         (assigned c
            (WorkerJob.mk handle name arguments
               (if decide (unique = []) then None else Some unique) (Some c)) w)).
Proof.
  intros HK Hw. repeat apply conj.
  - by apply handleNoJob_GRAB_WAIT.
  - destruct Hw as [Hc _]. by apply handleNoJob_other.
  - by apply handleNoop_SLEEP.
  - destruct Hw as [Hc _]. by apply handleNoop_other.
  - intros. by apply handleJobAssign_spec.
  - intros. by apply handleJobAssignUnique_spec.
Qed.

Lemma worker_state_machine_witness :
  constants.int32 gearman = true /\
  writable (demo_worker "GRAB_WAIT") 0 (demo_connection "GRAB_WAIT") /\
  exists bs,
    Packet.toBinary (Packet.mk constants.REQ (constants.PRE_SLEEP gearman) []) = Some bs /\
    handleNoJob gearman 0 (Packet.mk constants.RES 10 []) (demo_worker "GRAB_WAIT") =
      (Ok tt, in_state 0 "SLEEP" (sent_on 0 bs (demo_worker "GRAB_WAIT"))).
Proof.
  assert (Hw : writable (demo_worker "GRAB_WAIT") 0 (demo_connection "GRAB_WAIT")).
  { split; [reflexivity|]. exists demo_socket. split; reflexivity. }
  split; [reflexivity|]. split; [exact Hw|].
  destruct (worker_state_machine gearman (demo_worker "GRAB_WAIT") 0
              (demo_connection "GRAB_WAIT") (Packet.mk constants.RES 10 [])
              eq_refl Hw) as (Hnojob & _).
  apply Hnojob. reflexivity.
Defined.

(** [Worker.__init__] returns an instance exactly when [client_id] is
    given and [worker_id] is not. *)
Lemma Worker_init_guard (client_id worker_id : option bytes) :
  (exists w, Worker_init client_id worker_id = Ok w) <->
  truthy (default [] client_id) = true /\ truthy (default [] worker_id) = false.
Proof.
  unfold Worker_init.
  destruct (truthy (default [] client_id)), (truthy (default [] worker_id));
    simpl; split; try (intros [w H]; done); try (intros [? ?]; done); eauto.
Qed.

Lemma Worker_init_worker_id (worker_id : bytes) :
  worker_id <> [] ->
  Worker_init None (Some worker_id) = Raise (Exception "A client_id must be provided").
Proof. intros H. unfold Worker_init. simpl. done. Qed.

(** C9: [Worker(worker_id=b'w1')] raises the exception of the guard, as
    does every construction with a [worker_id]; only [client_id] alone is
    accepted. *)
Theorem Worker_init_rejects_worker_id :
  Worker_init None (Some (b "w1")) = Raise (Exception "A client_id must be provided") /\
  Worker_init (Some (b "c1")) (Some (b "w1")) =
    Raise (Exception "A client_id must be provided") /\
  Worker_init None None = Raise (Exception "A client_id must be provided") /\
  (exists w, Worker_init (Some (b "c1")) None = Ok w /\ client_id w = Some (b "c1")).
Proof. repeat split; try reflexivity. eexists. split; reflexivity. Qed.

(** ** Waits that end without the response *)

(** A turn of [submitJob] whose wait ended without the response. *)
Lemma submitJob_finish_timeout (job conn task : nat) (w : World)
    (c : Connection.t) (t : Task.t) :
  role w = ClientRole -> connections w !! conn = Some c ->
  tasks w !! task = Some t -> Task._wait_event t = false ->
  submitJob_finish job conn task w = (Ok false, marked_lost conn w).
Proof.
  intros Hr Hc Ht He. unfold submitJob_finish. munfold. rewrite Ht. munfold.
  rewrite He. simpl. by rewrite (_lostConnection_client conn c).
Qed.

(** The turn of [setOption] for a task whose wait ended without the
    response. *)
Lemma setOption_wait_timeout (name : bytes) (task conn : nat)
    (rest : list (nat * nat)) (during : Interleaving)
    (durings : list Interleaving) (success : bool) (w : World)
    (c : Connection.t) (t : Task.t) :
  role (during w) = ClientRole -> connections (during w) !! conn = Some c ->
  tasks (during w) !! task = Some t -> Task._wait_event t = false ->
  setOption_wait name ((task, conn) :: rest) (during :: durings) success w =
    setOption_wait name rest durings success (marked_lost conn (during w)).
Proof.
  intros Hr Hc Ht He. simpl. munfold. rewrite Ht. munfold. rewrite He. simpl.
  by rewrite (_lostConnection_client conn c).
Qed.

(** [sendAdminRequest] when the event of the request is not set after the
    wait. *)
Lemma sendAdminRequest_timeout (self request : nat) (during : Interleaving)
    (w : World) (conn : Connection.t) (req req' : AdminRequest.t) :
  writable w self conn -> admins w !! request = Some req ->
  let w1 := sent_on self (AdminRequest.getCommand req)
              (with_connections
                 (alter (Connection.with_admin_requests (fun l => l ++ [request])) self) w) in
  admins (during w1) !! request = Some req' ->
  AdminRequest.wait_event req' = false ->
  Connection_sendAdminRequest self request during w = (Raise TimeoutError, during w1).
Proof.
  intros (Hc & sock & Hs & Hb) Hr w1 Hr' He.
  unfold Connection_sendAdminRequest, Connection_sendRaw. munfold. simpl.
  rewrite Hr. munfold. simpl. rewrite lookup_alter_eq, Hc. simpl. rewrite Hs, Hb.
  munfold. subst w1. unfold sent_on in *. rewrite Hr'. munfold. by rewrite He.
Qed.

Lemma sendAdminRequest_pool (self request : nat) (during : Interleaving) (w : World) :
  (forall w, pool (during w) = pool w) ->
  pool (Connection_sendAdminRequest self request during w).2 = pool w.
Proof.
  intros Hd. unfold Connection_sendAdminRequest, Connection_sendRaw. munfold.
  repeat (case_match; munfold; simpl); simplify_eq; rewrite ?Hd; done.
Qed.

Lemma echo_pool (K : constants.t) (self : nat) (data : bytes)
    (during : Interleaving) (w : World) :
  (forall w, pool (during w) = pool w) ->
  pool (Connection_echo K self data during w).2 = pool w.
Proof.
  intros Hd. unfold Connection_echo, Connection_sendEchoReq,
    Connection_sendPacket, Connection_sendRaw. munfold.
  repeat (case_match; munfold; simpl); simplify_eq; rewrite ?Hd; done.
Qed.

(** C7 (amended): in [submitJob] and [setOption], a wait that ends with
    the event of the task unset is followed by [_lostConnection] on the
    connection of the task, which leaves the active list and is in the
    inactive list; [submitJob] then goes on with its loop and [setOption]
    with its next task, its result unchanged. [Connection.sendAdminRequest]
    and [Connection.echo] never change the two lists of the pool, and
    [sendAdminRequest] raises TimeoutError when the event of the request is
    unset after the wait. *)
Theorem timeout_marks_lost_in_client (w : World) (conn task : nat)
    (c : Connection.t) (t : Task.t) :
  role w = ClientRole ->
  NoDup (active_connections w) ->
  connections w !! conn = Some c ->
  tasks w !! task = Some t ->
  Task._wait_event t = false ->
  (conn ∉ active_connections (marked_lost conn w)) /\
  (conn ∈ inactive_connections (marked_lost conn w)) /\
  (forall job, submitJob_finish job conn task w = (Ok false, marked_lost conn w)) /\
  (forall name rest during durings success w0,
     during w0 = w ->
     setOption_wait name ((task, conn) :: rest) (during :: durings) success w0 =
       setOption_wait name rest durings success (marked_lost conn w)) /\
  (forall self request during,
     (forall w, pool (during w) = pool w) ->
     pool (Connection_sendAdminRequest self request during w).2 = pool w) /\
  (forall K self data during,
     (forall w, pool (during w) = pool w) ->
     pool (Connection_echo K self data during w).2 = pool w) /\
  (forall self request during sconn req req',
     writable w self sconn ->
     admins w !! request = Some req ->
     let w1 := sent_on self (AdminRequest.getCommand req)
                 (with_connections
                    (alter (Connection.with_admin_requests (fun l => l ++ [request])) self) w) in
     admins (during w1) !! request = Some req' ->
     AdminRequest.wait_event req' = false ->
     Connection_sendAdminRequest self request during w = (Raise TimeoutError, during w1)).
Proof.
  intros Hr Hnd Hc Ht He.
  destruct (marked_lost_pool conn w Hnd) as [H1 H2].
  split; [done|]. split; [done|]. split.
  { intros job. by eapply submitJob_finish_timeout. }
  split.
  { intros name rest during durings success w0 <-.
    by eapply setOption_wait_timeout. }
  split.
  { intros. by apply sendAdminRequest_pool. }
  split.
  { intros. by apply echo_pool. }
  intros. by eapply sendAdminRequest_timeout.
Qed.

Lemma timeout_marks_lost_in_client_witness :
  role demo_waiting = ClientRole /\
  NoDup (active_connections demo_waiting) /\
  (exists c, connections demo_waiting !! 0%nat = Some c) /\
  tasks demo_waiting !! 0%nat = Some (Task.init (Task.SubmitJobTask 0)) /\
  (0%nat ∉ active_connections (marked_lost 0 demo_waiting)) /\
  (0%nat ∈ inactive_connections (marked_lost 0 demo_waiting)) /\
  submitJob_finish 0 0 0 demo_waiting = (Ok false, marked_lost 0 demo_waiting).
Proof.
  assert (Hnd : NoDup (active_connections demo_waiting))
    by (apply (bool_decide_unpack _); vm_compute; exact I).
  destruct (connections demo_waiting !! 0%nat) as [c|] eqn:Hc;
    [|vm_compute in Hc; discriminate].
  destruct (timeout_marks_lost_in_client demo_waiting 0 0 c
              (Task.init (Task.SubmitJobTask 0)) eq_refl Hnd Hc eq_refl eq_refl)
    as (H1 & H2 & H3 & _).
  split; [reflexivity|]. split; [exact Hnd|]. split; [by exists c|].
  split; [reflexivity|]. split; [exact H1|]. split; [exact H2|]. apply H3.
Defined.

(** C7 as stated fails: an administrative request on which no answer comes
    raises TimeoutError, and its connection is still in the active list and
    not in the inactive one. *)
Lemma sendAdminRequest_timeout_keeps_connection :
  (Connection_sendAdminRequest 0 0 id demo_client).1 = Raise TimeoutError /\
  0%nat ∈ active_connections (Connection_sendAdminRequest 0 0 id demo_client).2 /\
  0%nat ∉ inactive_connections (Connection_sendAdminRequest 0 0 id demo_client).2.
Proof.
  split; [reflexivity|].
  split; apply (bool_decide_unpack _); vm_compute; exact I.
Qed.

(** No server answers a submission: every connection is tried and marked
    lost in its turn, and [getConnection] ends the loop. *)
Example scenario_submit_without_answer :
  let submitted := submitJob gearman 4 0 false PRECEDENCE_NORMAL [] demo_client in
  submitted.1 = Raise NoConnectedServersError /\
  active_connections submitted.2 = [] /\
  inactive_connections submitted.2 = [0%nat; 2%nat; 1%nat].
Proof. vm_compute. repeat split; reflexivity. Qed.

(** No server answers an option request: the connections are marked lost
    and [setOption] returns [True]. *)
Example scenario_option_without_answer :
  let set := setOption gearman (b "exceptions") [] demo_client in
  set.1 = Ok true /\
  active_connections set.2 = [] /\
  inactive_connections set.2 = [0%nat; 1%nat; 2%nat].
Proof. vm_compute. repeat split; reflexivity. Qed.

(** ** [echo] *)

Lemma echo_duplicate (K : constants.t) (c : nat) (data : bytes)
    (during : Interleaving) (w : World) (conn : Connection.t) :
  connections w !! c = Some conn ->
  is_Some (Connection.echo_conditions conn !! data) ->
  Connection_echo K c data during w = (Raise InvalidDataError, w).
Proof.
  intros Hc Hd. unfold Connection_echo. munfold. rewrite Hc. munfold.
  rewrite decide_True by done. done.
Qed.

(** [echo] up to its wait. *)
Lemma echo_until_wait (K : constants.t) (c : nat) (data : bytes)
    (during : Interleaving) (w : World) (conn : Connection.t) :
  constants.int32 K = true -> is_int32 (len data) = true ->
  writable w c conn ->
  Connection.echo_conditions conn !! data = None ->
  exists bs,
    Packet.toBinary (Packet.mk constants.REQ (constants.ECHO_REQ K) data) = Some bs /\
    let w' := during (sent_on c bs (waiting_echo c data w)) in
    Connection_echo K c data during w =
      match connections w' !! c with
      | Some conn' =>
          if decide (is_Some (Connection.echo_conditions conn' !! data))
          then (Ok data, w') else (Raise TimeoutError, w')
      | None => (Raise NoSuchObject, w')
      end.
Proof.
  intros HK Hl (Hc & sock & Hs & Hb) Hd.
  destruct (toBinary_int32 constants.REQ (constants.ECHO_REQ K) data) as [bs Hbs].
  { apply (constants_int32_elem K); [done|]. unfold constants.all. set_solver. }
  { done. }
  exists bs. split; [done|]. intros w'.
  unfold Connection_echo, Connection_sendEchoReq, Connection_sendPacket,
    Connection_sendRaw. munfold. rewrite Hc. munfold.
  rewrite decide_False by (rewrite Hd; by intros [? ?]). munfold.
  unfold Packet.init. rewrite decide_True by done. munfold. rewrite Hbs. munfold.
  simpl. rewrite lookup_alter_eq, Hc. simpl. rewrite Hs, Hb. munfold.
  fold (waiting_echo c data w). fold (sent_on c bs (waiting_echo c data w)).
  fold w'. destruct (connections w' !! c); [|done]. by case_decide.
Qed.

(** Nothing happens during the wait: [echo] returns the payload and the
    registry keeps the waiter. *)
Lemma echo_silence (K : constants.t) (c : nat) (data : bytes) (w : World)
    (conn : Connection.t) :
  constants.int32 K = true -> is_int32 (len data) = true ->
  writable w c conn ->
  Connection.echo_conditions conn !! data = None ->
  exists w',
    Connection_echo K c data id w = (Ok data, w') /\
    echo_registry w' c !! data = Some Condition.init.
Proof.
  intros HK Hl Hw Hd.
  destruct (echo_until_wait K c data id w conn HK Hl Hw Hd) as (bs & Hbs & He).
  simpl in He. destruct Hw as (Hc & sock & Hs & Hb).
  rewrite !lookup_alter_eq, Hc in He. simpl in He.
  rewrite lookup_insert_eq in He. rewrite decide_True in He by done.
  eexists. split; [done|]. unfold echo_registry. simpl.
  rewrite !lookup_alter_eq, Hc. simpl. by rewrite lookup_insert_eq.
Qed.

(** The poll thread handles the ECHO_RES during the wait: the entry goes,
    and [echo] raises TimeoutError. *)
Lemma echo_answered (K : constants.t) (c : nat) (data : bytes) (w : World)
    (conn : Connection.t) (res : Packet.t) :
  constants.int32 K = true -> is_int32 (len data) = true ->
  writable w c conn ->
  Connection.echo_conditions conn !! data = None ->
  Packet.getArgument res 0 true = Ok data ->
  exists w',
    Connection_echo K c data (fun w => (handleEchoRes c res w).2) w =
      (Raise TimeoutError, w') /\
    echo_registry w' c !! data = None.
Proof.
  intros HK Hl Hw Hd Hres.
  destruct (echo_until_wait K c data (fun w => (handleEchoRes c res w).2) w conn
              HK Hl Hw Hd) as (bs & Hbs & He).
  destruct Hw as (Hc & sock & Hs & Hb).
  revert He. cbv zeta.
  remember (sent_on c bs (waiting_echo c data w)) as w1 eqn:Ew1.
  assert (H1 : connections w1 !! c
               = Some (Connection.with_conn
                         (fmap (Socket.with_sent (fun l => l ++ [bs])))
                         (Connection.with_echo_conditions (<[data := Condition.init]>) conn))).
  { subst w1. simpl. by rewrite !lookup_alter_eq, Hc. }
  assert (H2 : (handleEchoRes c res w1).2 =
               with_connections
                 (alter (Connection.with_echo_conditions (delete data)) c) w1).
  { unfold handleEchoRes, Connection_handleEchoRes. munfold. rewrite Hres. munfold.
    rewrite H1. munfold. simpl. rewrite lookup_insert_eq. munfold. done. }
  rewrite H2. simpl. rewrite lookup_alter_eq, H1. simpl.
  rewrite lookup_delete_eq. rewrite decide_False by (by intros [? ?]).
  intros He. eexists. split; [done|].
  unfold echo_registry. simpl. rewrite lookup_alter_eq, H1. simpl.
  by rewrite lookup_delete_eq.
Qed.

(** C1: on a client whose server does not answer, [echo(b'ping')] returns
    [b'ping'] instead of raising TimeoutError, and the echo registry still
    holds [b'ping']; when the ECHO_RES with [b'ping'] is handled during the
    wait, the entry is removed and [echo] raises TimeoutError instead of
    returning the payload. A second [echo] for a payload that is still
    registered raises InvalidDataError. *)
Theorem echo_result_is_inverted :
  let silent := Connection_echo gearman 0 (b "ping") id demo_client in
  let answered :=
    Connection_echo gearman 0 (b "ping")
      (fun w => (handleEchoRes 0 (Packet.mk constants.RES 17 (b "ping")) w).2)
      demo_client in
  silent.1 = Ok (b "ping") /\
  echo_registry silent.2 0 !! b "ping" = Some Condition.init /\
  answered.1 = Raise TimeoutError /\
  echo_registry answered.2 0 !! b "ping" = None /\
  (Connection_echo gearman 0 (b "ping") id silent.2).1 = Raise InvalidDataError.
Proof. vm_compute. repeat split; reflexivity. Qed.

(** ** The fields of a payload *)

Lemma join_cons (sep a : bytes) (l : list bytes) :
  l <> [] -> join sep (a :: l) = a ++ sep ++ join sep l.
Proof. by destruct l. Qed.

Lemma split_join_last (args : list bytes) (rest : bytes) :
  fields args ->
  split NUL (join [NUL] (args ++ [rest])) = args ++ split NUL rest.
Proof.
  induction 1 as [|a args Ha _ IH]; simpl app.
  - done.
  - rewrite join_cons by (by destruct args).
    change ([NUL] ++ ?x) with (NUL :: x).
    by rewrite split_cons_sep, IH.
Qed.

Lemma split_fields (rest : bytes) : NUL ∉ rest -> split NUL rest = [rest].
Proof. apply split_no_sep. Qed.

Lemma getArgument_field (p : Packet.t) (args : list bytes) (rest : bytes)
    (i : nat) (a : bytes) :
  fields args ->
  Packet.data p = join [NUL] (args ++ [rest]) ->
  args !! i = Some a ->
  Packet.getArgument p i false = Ok a.
Proof.
  intros Hf Hd Hi. unfold Packet.getArgument, index.
  rewrite Hd, split_join_last by done.
  by rewrite (lookup_app_l_Some _ _ _ _ Hi).
Qed.

Lemma getArgument_rest (p : Packet.t) (args : list bytes) (rest : bytes) :
  fields args ->
  Packet.data p = join [NUL] (args ++ [rest]) ->
  Packet.getArgument p (length args) true = Ok rest.
Proof.
  intros Hf Hd. unfold Packet.getArgument.
  rewrite Hd, split_join_last by done.
  by rewrite drop_app_length, join_split.
Qed.

Lemma getArgument_nth (p : Packet.t) (args : list bytes) (i : nat) (a : bytes) :
  fields args -> args <> [] ->
  Packet.data p = join [NUL] args ->
  args !! i = Some a ->
  Packet.getArgument p i false = Ok a.
Proof.
  intros Hf Hne Hd Hi.
  destruct (exists_last Hne) as (init & last & ->).
  apply Forall_app in Hf as [Hinit Hlast]. rewrite Forall_singleton in Hlast.
  unfold Packet.getArgument, index.
  rewrite Hd, (split_join_last init last Hinit), (split_fields last Hlast).
  by rewrite Hi.
Qed.

(** X1: when the payload is the NUL-join of fields that hold no NUL,
    followed by a last argument, [getArgument(i)] is the [i]-th field and
    [getArgument(n, True)] is the last argument, whatever NUL bytes it
    holds. When the last argument holds no NUL either, an index past it
    makes [getArgument(i)] raise IndexError, while [getArgument(i, True)]
    returns [b'']. *)
Theorem getArgument_join (p : Packet.t) (args : list bytes) (rest : bytes) :
  fields args ->
  Packet.data p = join [NUL] (args ++ [rest]) ->
  (forall i a, args !! i = Some a -> Packet.getArgument p i false = Ok a) /\
  Packet.getArgument p (length args) true = Ok rest /\
  (NUL ∉ rest ->
   Packet.getArgument p (length args) false = Ok rest /\
   forall i, (length args < i)%nat ->
     Packet.getArgument p i false = Raise IndexError /\
     Packet.getArgument p i true = Ok []).
Proof.
  intros Hf Hd. split; [|split].
  - intros i a. by apply (getArgument_field p args rest).
  - by apply getArgument_rest.
  - intros Hr.
    assert (Hs : split NUL (Packet.data p) = args ++ [rest]).
    { by rewrite Hd, split_join_last, split_fields. }
    split.
    + unfold Packet.getArgument, index. rewrite Hs.
      by rewrite lookup_app_r, Nat.sub_diag.
    + intros i Hi. unfold Packet.getArgument, index. rewrite Hs. split.
      * rewrite lookup_ge_None_2; [done|]. rewrite length_app. simpl. lia.
      * rewrite drop_ge; [done|]. rewrite length_app. simpl. lia.
Qed.

Lemma getArgument_join_witness :
  Packet.getArgument (Packet.mk constants.RES 20 (b "H:1" ++ [NUL] ++ b "1" ++ [NUL] ++ [x00; x01])) 2 true
    = Ok [x00; x01].
Proof.
  pose (p := Packet.mk constants.RES 20 (b "H:1" ++ [NUL] ++ b "1" ++ [NUL] ++ [x00; x01])).
  refine (proj1 (proj2 (getArgument_join p [b "H:1"; b "1"] [x00; x01] _ _))).
  - unfold fields. apply (bool_decide_unpack _). vm_compute. exact I.
  - reflexivity.
Defined.

(** X2: the packet that [submitJob] builds for a job whose name and unique
    hold no NUL decodes to the job: argument 0 is the name, argument 1 the
    unique ([b''] when the job has none), and the last argument, from
    index 2, is the arguments blob with its NUL bytes. *)
Theorem submitJob_packet_decodes (K : constants.t) (job : Job.t)
    (background : bool) (precedence : Z) (packet : Packet.t) :
  NUL ∉ Job.name job ->
  NUL ∉ default [] (Job.unique job) ->
  submitJob_packet K job background precedence = Ok packet ->
  Packet.getArgument packet 0 false = Ok (Job.name job) /\
  Packet.getArgument packet 1 false = Ok (default [] (Job.unique job)) /\
  Packet.getArgument packet 2 true = Ok (Job.arguments job).
Proof.
  intros Hn Hu Hp.
  assert (Hd : Packet.data packet =
               join [NUL] ([Job.name job; default [] (Job.unique job)] ++ [Job.arguments job])).
  { destruct (decide (valid_precedence precedence)) as [Hv|Hv].
    - destruct (submitJob_packet_valid K job background precedence Hv) as [cmd Hc].
      rewrite Hc in Hp. injection Hp as <-. simpl. unfold submit_payload.
      reflexivity.
    - by rewrite (submitJob_packet_invalid K job background precedence Hv) in Hp. }
  assert (Hf : fields [Job.name job; default [] (Job.unique job)]).
  { by repeat constructor. }
  split; [|split].
  - by apply (getArgument_field _ _ _ 0 _ Hf Hd).
  - by apply (getArgument_field _ _ _ 1 _ Hf Hd).
  - apply (getArgument_rest _ _ _ Hf Hd).
Qed.

Lemma submitJob_packet_decodes_witness :
  Packet.getArgument (Packet.mk constants.REQ 7 (submit_payload demo_job)) 2 true
    = Ok (b "hello").
Proof.
  refine (proj2 (proj2 (submitJob_packet_decodes gearman demo_job false 0 _ _ _ _))).
  - apply (bool_decide_unpack _). vm_compute. exact I.
  - apply (bool_decide_unpack _). vm_compute. exact I.
  - reflexivity.
Defined.

(** ** Losing a connection *)

Lemma _lostConnection_marks (conn : nat) (c : Connection.t) (w : World) :
  connections w !! conn = Some c -> can_lose w c ->
  _lostConnection conn w = (Ok tt, marked_lost conn w).
Proof.
  intros Hc [Hr|He].
  - by apply (_lostConnection_client conn c).
  - unfold _lostConnection. munfold. rewrite Hc. munfold.
    fold (marked_lost conn w). rewrite He, map_to_list_empty. done.
Qed.

Lemma filter_all {A} (P : A -> Prop) `{!forall x, Decision (P x)} (l : list A) :
  Forall P l -> filter P l = l.
Proof.
  induction 1 as [|x l Hx _ IH]; [done|]. by rewrite filter_cons_True, IH.
Qed.

Lemma remove_first_filter (x : nat) (l : list nat) :
  NoDup l -> remove_first x l = filter (fun y => y <> x) l.
Proof.
  induction 1 as [|y l Hy Hl IH]; simpl; [done|].
  case_decide as Hxy.
  - subst y. rewrite filter_cons_False by (intros H; by apply H).
    symmetry. apply filter_all, Forall_forall. intros z Hz ->. done.
  - by rewrite filter_cons_True, IH.
Qed.

Lemma remove_first_perm (x : nat) (l : list nat) :
  x ∈ l -> l ≡ₚ x :: remove_first x l.
Proof.
  induction l as [|y l IH]; simpl.
  - by intros ?%elem_of_nil.
  - intros Hx. case_decide as Hxy; [by subst|].
    apply elem_of_cons in Hx as [->|Hx]; [done|].
    rewrite (IH Hx) at 1. apply Permutation_swap.
Qed.

Lemma marked_lost_idem (conn : nat) (w : World) :
  NoDup (active_connections w) ->
  marked_lost conn (marked_lost conn w) = marked_lost conn w.
Proof.
  intros Hnd.
  destruct (marked_lost_pool conn w Hnd) as [Ha Hi].
  unfold marked_lost at 1. cbv zeta.
  rewrite (decide_False (P := conn ∈ active_connections (marked_lost conn w))) by done.
  by rewrite decide_True.
Qed.

Lemma marked_lost_known (conn : nat) (w : World) :
  pool_wf w -> conn ∈ known_connections w ->
  pool_wf (marked_lost conn w) /\
  known_connections (marked_lost conn w) ≡ₚ known_connections w.
Proof.
  unfold pool_wf, known_connections, marked_lost.
  destruct w as [ro ci ru cs ac ina idx jo ta ad op wi fu wa jq]; simpl.
  intros Hnd Hk.
  apply NoDup_app in Hnd as (Ha & Hai & Hi).
  destruct (decide (conn ∈ ac)) as [Hin|Hnin]; simpl.
  - rewrite decide_False by (by apply Hai). simpl.
    assert (Hp : remove_first conn ac ++ ina ++ [conn] ≡ₚ ac ++ ina).
    { rewrite (remove_first_perm conn ac Hin) at 2. simpl.
      rewrite app_assoc. by rewrite <- Permutation_cons_append. }
    split; [|done]. rewrite Hp. apply NoDup_app. done.
  - apply elem_of_app in Hk as [?|Hk]; [done|].
    rewrite decide_True by done. simpl. split; [|done].
    apply NoDup_app. done.
Qed.

Lemma sendPacket_cases (w : World) (c : nat) (conn : Connection.t)
    (p : Packet.t) :
  connections w !! c = Some conn -> can_lose w conn ->
  sendPacket p c w =
    match Packet.toBinary p, Connection.conn conn with
    | None, _ => (Raise StructError, marked_lost c w)
    | Some _, None => (Raise AttributeError, marked_lost c w)
    | Some bs, Some sock =>
        if Socket.broken sock then (Raise SocketError, marked_lost c w)
        else (Ok tt, sent_on c bs w)
    end.
Proof.
  intros Hc Hl.
  pose proof (_lostConnection_marks c conn w Hc Hl) as Hlost.
  unfold sendPacket, Connection_sendPacket, Connection_sendRaw.
  destruct (Packet.toBinary p) as [bs|]; munfold.
  - rewrite Hc. munfold. destruct (Connection.conn conn) as [sock|]; munfold.
    + destruct (Socket.broken sock); munfold; [|done]. by rewrite Hlost.
    + by rewrite Hlost.
  - by rewrite Hlost.
Qed.

Lemma can_send_writable (w : World) (c : nat) :
  can_send w c = true <-> exists conn, writable w c conn.
Proof.
  unfold can_send, writable. split.
  - destruct (connections w !! c) as [conn|]; [|done].
    destruct (Connection.conn conn) as [sock|] eqn:Hs; [|done].
    intros Hb. exists conn. split; [done|]. exists sock. split; [done|].
    by destruct (Socket.broken sock).
  - intros (conn & -> & sock & -> & ->). done.
Qed.

(** X3: [BaseClient.sendPacket] succeeds exactly when the packet can be
    packed and the socket takes the send. Any failure, a packet whose type
    or length is no 32-bit integer included, leaves the heap of
    connections as it was, takes the connection out of the active list,
    puts it on the inactive list, and raises the exception of the send
    again. *)
Theorem sendPacket_failure_loses_connection (w : World) (c : nat)
    (conn : Connection.t) (p : Packet.t) :
  connections w !! c = Some conn -> can_lose w conn ->
  NoDup (active_connections w) ->
  ((sendPacket p c w).1 = Ok tt <->
   is_Some (Packet.toBinary p) /\ can_send w c = true) /\
  ((sendPacket p c w).1 <> Ok tt ->
   let w' := (sendPacket p c w).2 in
   connections w' = connections w /\
   (c ∉ active_connections w') /\ (c ∈ inactive_connections w') /\
   (sendPacket p c w).1 =
     Raise (match Packet.toBinary p, Connection.conn conn with
            | None, _ => StructError
            | _, None => AttributeError
            | _, _ => SocketError
            end)).
Proof.
  intros Hc Hl Hnd.
  rewrite (sendPacket_cases w c conn p Hc Hl).
  destruct (marked_lost_pool c w Hnd) as [Ha Hi].
  destruct (marked_lost_heaps c w) as (Hcs & _ & _).
  unfold can_send. rewrite Hc.
  destruct (Packet.toBinary p) as [bs|];
    destruct (Connection.conn conn) as [sock|];
    try destruct (Socket.broken sock); simpl; repeat split;
    try done; try (by intros [[? ?] ?]); try (by intros [? ?]); eauto.
Qed.

(** X5: [_lostConnection] on a connection of a well-formed pool returns,
    keeps the pool well formed and its members the same, leaves the
    connection on the inactive list and off the active one, touches no
    connection object, and is idempotent. *)
Theorem _lostConnection_pool (conn : nat) (c : Connection.t) (w : World) :
  connections w !! conn = Some c -> can_lose w c ->
  pool_wf w -> conn ∈ known_connections w ->
  exists w',
    _lostConnection conn w = (Ok tt, w') /\
    pool_wf w' /\
    known_connections w' ≡ₚ known_connections w /\
    (conn ∉ active_connections w') /\ (conn ∈ inactive_connections w') /\
    connections w' = connections w /\
    _lostConnection conn w' = (Ok tt, w').
Proof.
  intros Hc Hl Hwf Hk. exists (marked_lost conn w).
  assert (Hnd : NoDup (active_connections w)).
  { by apply NoDup_app in Hwf as (? & _ & _). }
  destruct (marked_lost_known conn w Hwf Hk) as [Hwf' Hp].
  destruct (marked_lost_pool conn w Hnd) as [Ha Hi].
  destruct (marked_lost_heaps conn w) as (Hcs & _ & _).
  repeat split; try done.
  - by apply (_lostConnection_marks conn c).
  - rewrite (_lostConnection_marks conn c).
    + by rewrite marked_lost_idem.
    + by rewrite Hcs.
    + destruct Hl as [Hr|He]; [left|by right]. by rewrite role_marked_lost.
Qed.

(** ** [broadcast] *)

Lemma filter_iff_in {A} (P Q : A -> Prop) `{!forall x, Decision (P x)}
    `{!forall x, Decision (Q x)} (l : list A) :
  (forall x, x ∈ l -> P x <-> Q x) -> filter P l = filter Q l.
Proof.
  induction l as [|x l IH]; intros Hall; [done|].
  rewrite !filter_cons.
  assert (Hl : filter P l = filter Q l).
  { apply IH. intros y Hy. apply Hall. by right. }
  destruct (decide (P x)) as [Hp|Hp]; destruct (decide (Q x)) as [Hq|Hq];
    rewrite ?Hl; try done; exfalso.
  - apply Hq, Hall; [by left|done].
  - apply Hp, Hall; [by left|done].
Qed.

Lemma can_send_sent_on (c c' : nat) (bs : bytes) (w : World) :
  can_send (sent_on c bs w) c' = can_send w c'.
Proof.
  unfold can_send, sent_on. simpl.
  destruct (decide (c = c')) as [->|Hne].
  - rewrite lookup_alter_eq. destruct (connections w !! c') as [conn|]; [|done].
    simpl. by destruct (Connection.conn conn).
  - by rewrite lookup_alter_ne.
Qed.

Lemma can_send_marked_lost (c c' : nat) (w : World) :
  can_send (marked_lost c w) c' = can_send w c'.
Proof.
  unfold can_send. by rewrite (proj1 (marked_lost_heaps c w)).
Qed.

Lemma can_send_step (bs : bytes) (w : World) (c c' : nat) :
  can_send (broadcast_step bs w c) c' = can_send w c'.
Proof.
  unfold broadcast_step. destruct (can_send w c).
  - apply can_send_sent_on.
  - apply can_send_marked_lost.
Qed.

Lemma can_lose_sent_on (c : nat) (bs : bytes) (w : World) (l : list nat) :
  losable w l -> losable (sent_on c bs w) l.
Proof.
  intros H c' Hc'. destruct (H c' Hc') as (conn & Hl & Hcl).
  unfold sent_on, can_lose. simpl.
  destruct (decide (c = c')) as [->|Hne].
  - rewrite lookup_alter_eq, Hl. simpl. eexists. split; [done|].
    destruct Hcl as [Hr|He]; [by left|by right].
  - rewrite lookup_alter_ne by done. eauto.
Qed.

Lemma can_lose_marked_lost (c : nat) (w : World) (l : list nat) :
  losable w l -> losable (marked_lost c w) l.
Proof.
  intros H c' Hc'. destruct (H c' Hc') as (conn & Hl & Hcl).
  exists conn. rewrite (proj1 (marked_lost_heaps c w)). split; [done|].
  unfold can_lose. rewrite role_marked_lost. done.
Qed.

Lemma losable_step (bs : bytes) (w : World) (c : nat) (l : list nat) :
  losable w l -> losable (broadcast_step bs w c) l.
Proof.
  unfold broadcast_step. destruct (can_send w c).
  - apply can_lose_sent_on.
  - apply can_lose_marked_lost.
Qed.

Lemma sendPacket_step (p : Packet.t) (bs : bytes) (w : World) (c : nat)
    (conn : Connection.t) :
  Packet.toBinary p = Some bs ->
  connections w !! c = Some conn -> can_lose w conn ->
  try_except (sendPacket p c) (fun _ => mret tt) w = (Ok tt, broadcast_step bs w c).
Proof.
  intros Hp Hc Hl. unfold try_except, broadcast_step, can_send.
  rewrite (sendPacket_cases w c conn p Hc Hl), Hp, Hc.
  destruct (Connection.conn conn) as [sock|]; [|done].
  by destruct (Socket.broken sock).
Qed.

Lemma for_each_cons_ok {A} (body : A -> M World unit) (x : A) (l : list A)
    (w w1 : World) :
  body x w = (Ok tt, w1) -> for_each (x :: l) body w = for_each l body w1.
Proof. intros Hx. cbn [for_each]. munfold. by rewrite Hx. Qed.

Lemma broadcast_loop (p : Packet.t) (bs : bytes) (l : list nat) :
  Packet.toBinary p = Some bs ->
  forall w, losable w l ->
    for_each l (fun c => try_except (sendPacket p c) (fun _ => mret tt)) w =
      (Ok tt, foldl (broadcast_step bs) w l).
Proof.
  intros Hp. induction l as [|c l IH]; intros w Hl; [done|].
  destruct (Hl c) as (conn & Hc & Hcl); [by left|].
  rewrite (for_each_cons_ok _ c l w _ (sendPacket_step p bs w c conn Hp Hc Hcl)).
  cbn [foldl]. apply IH. apply losable_step. intros c' Hc'. apply Hl. by right.
Qed.

Lemma broadcast_fold (p : Packet.t) (bs : bytes) (w : World) :
  Packet.toBinary p = Some bs -> losable w (active_connections w) ->
  broadcast p w = (Ok tt, foldl (broadcast_step bs) w (active_connections w)).
Proof.
  intros Hp Hl. unfold broadcast. munfold. by apply broadcast_loop.
Qed.

Lemma can_send_fold (bs : bytes) (l : list nat) (w : World) (c : nat) :
  can_send (foldl (broadcast_step bs) w l) c = can_send w c.
Proof.
  revert w. induction l as [|x l IH]; intros w; [done|].
  simpl. by rewrite IH, can_send_step.
Qed.

Lemma active_marked_lost (c : nat) (w : World) :
  NoDup (active_connections w) ->
  active_connections (marked_lost c w) = filter (fun x => x <> c) (active_connections w).
Proof.
  intros Hnd. unfold marked_lost.
  destruct w as [ro ci ru cs ac ina idx jo ta ad op wi fu wa jq]; simpl in *.
  assert (Ha : (if decide (c ∈ ac) then remove_first c ac else ac)
               = filter (fun x => x <> c) ac).
  { case_decide as Hin.
    - by apply remove_first_filter.
    - symmetry. apply filter_all, Forall_forall. by intros x Hx ->. }
  destruct (decide (c ∈ ac)); simpl; destruct (decide (c ∈ ina)); simpl; done.
Qed.

Lemma active_fold (bs : bytes) (l : list nat) :
  forall w, NoDup (active_connections w) ->
    active_connections (foldl (broadcast_step bs) w l) =
      filter (fun x => ~ (x ∈ l /\ can_send w x = false)) (active_connections w).
Proof.
  induction l as [|c l IH]; intros w Hnd.
  - simpl. symmetry. apply filter_all, Forall_forall.
    intros x _ [?%elem_of_nil _]. done.
  - cbn [foldl]. unfold broadcast_step at 2.
    destruct (can_send w c) eqn:Hs.
    + rewrite IH by done. simpl. apply list_filter_iff. intros x.
      rewrite can_send_sent_on. split.
      * intros H [[->|Hx]%elem_of_cons Hf]; [congruence|]. by apply H.
      * intros H [Hx Hf]. apply H. split; [by right|done].
    + rewrite IH by (rewrite active_marked_lost by done; by apply NoDup_filter).
      rewrite active_marked_lost by done. rewrite list_filter_filter.
      apply list_filter_iff. intros x. rewrite can_send_marked_lost. split.
      * intros [H Hne] [[->|Hx]%elem_of_cons Hf]; [done|]. by apply H.
      * intros H. split.
        -- intros [Hx Hf]. apply H. split; [by right|done].
        -- intros ->. apply H. split; [by left|done].
Qed.

Lemma inactive_marked_lost (c x : nat) (w : World) :
  x ∈ inactive_connections w -> x ∈ inactive_connections (marked_lost c w).
Proof.
  unfold marked_lost.
  destruct w as [ro ci ru cs ac ina idx jo ta ad op wi fu wa jq]; simpl.
  intros Hx.
  destruct (decide (c ∈ ac)); simpl; destruct (decide (c ∈ ina)); simpl;
    try done; apply elem_of_app; by left.
Qed.

Lemma inactive_fold (bs : bytes) (l : list nat) (x : nat) :
  forall w, x ∈ inactive_connections w ->
    x ∈ inactive_connections (foldl (broadcast_step bs) w l).
Proof.
  induction l as [|c l IH]; intros w Hx; [done|].
  cbn [foldl]. apply IH. unfold broadcast_step.
  destruct (can_send w c); [done|]. by apply inactive_marked_lost.
Qed.

Lemma inactive_fold_lost (bs : bytes) (l : list nat) (x : nat) :
  forall w, NoDup (active_connections w) -> x ∈ l -> can_send w x = false ->
    x ∈ inactive_connections (foldl (broadcast_step bs) w l).
Proof.
  induction l as [|c l IH]; intros w Hnd Hx Hs; [by apply elem_of_nil in Hx|].
  cbn [foldl].
  destruct (decide (x = c)) as [->|Hne].
  - apply inactive_fold. unfold broadcast_step. rewrite Hs.
    by apply marked_lost_pool.
  - apply elem_of_cons in Hx as [?|Hx]; [done|].
    apply IH; [|done|by rewrite can_send_step].
    unfold broadcast_step. destruct (can_send w c); [done|].
    rewrite active_marked_lost by done. by apply NoDup_filter.
Qed.

Lemma connections_fold (bs : bytes) (l : list nat) (x : nat) :
  NoDup l ->
  forall w,
    connections (foldl (broadcast_step bs) w l) !! x =
      if bool_decide (x ∈ l) && can_send w x
      then with_sent bs <$> connections w !! x
      else connections w !! x.
Proof.
  induction 1 as [|c l Hc Hnd IH]; intros w.
  - cbn [foldl]. rewrite bool_decide_eq_false_2; [done|]. apply not_elem_of_nil.
  - cbn [foldl]. rewrite IH, can_send_step.
    destruct (decide (x = c)) as [->|Hne].
    + rewrite (bool_decide_eq_false_2 (c ∈ l)) by done.
      rewrite (bool_decide_eq_true_2 (c ∈ c :: l)) by (by left).
      simpl. unfold broadcast_step. destruct (can_send w c).
      * unfold sent_on. simpl. by rewrite lookup_alter_eq.
      * by rewrite (proj1 (marked_lost_heaps c w)).
    + assert (Hx : connections (broadcast_step bs w c) !! x = connections w !! x).
      { unfold broadcast_step. destruct (can_send w c).
        - unfold sent_on. simpl. by rewrite lookup_alter_ne.
        - by rewrite (proj1 (marked_lost_heaps c w)). }
      rewrite Hx.
      destruct (decide (x ∈ l)) as [Hin|Hnin].
      * rewrite !bool_decide_eq_true_2; [done| by right | done].
      * rewrite !bool_decide_eq_false_2; [done| |done].
        by intros [?|?]%elem_of_cons.
Qed.

(** X4: [broadcast] never raises. With a packet that can be packed, on an
    active list without duplicates, the connections that stay active are
    those whose socket took the send, each of which got the bytes of the
    packet once; each of the others is unchanged and on the inactive
    list. *)
Theorem broadcast_outcome (p : Packet.t) (bs : bytes) (w : World) :
  (broadcast p w).1 = Ok tt /\
  (Packet.toBinary p = Some bs ->
   losable w (active_connections w) ->
   NoDup (active_connections w) ->
   let w' := (broadcast p w).2 in
   active_connections w' = filter (fun c => can_send w c = true) (active_connections w) /\
   forall c, c ∈ active_connections w ->
     if can_send w c
     then connections w' !! c = with_sent bs <$> connections w !! c
     else connections w' !! c = connections w !! c /\
          c ∈ inactive_connections w').
Proof.
  split.
  - unfold broadcast. munfold.
    generalize (active_connections w) at 1. intros l. revert w.
    induction l as [|c l IH]; intros w; [done|].
    cbn [for_each]. munfold.
    destruct (sendPacket p c w) as [[[]|e] w1]; apply IH.
  - intros Hp Hl Hnd. rewrite (broadcast_fold p bs w Hp Hl). simpl. split.
    + rewrite active_fold by done. apply filter_iff_in. intros x Hx. split.
      * intros H. destruct (can_send w x) eqn:Hs; [done|].
        exfalso. apply H. done.
      * intros Hs [_ Hf]. congruence.
    + intros c Hc. destruct (can_send w c) eqn:Hs.
      * rewrite connections_fold by done.
        by rewrite bool_decide_eq_true_2, Hs.
      * split.
        -- rewrite connections_fold by done. by rewrite Hs, andb_false_r.
        -- by apply inactive_fold_lost.
Qed.

(** ** [submitJob] when no server takes the job *)

Lemma getConnection_member (w : World) :
  active_connections w <> [] -> -1 <= connection_index w ->
  exists conn i,
    getConnection w = (Ok conn, set_connection_index i w) /\
    0 <= i /\ conn ∈ active_connections w.
Proof.
  intros Hne Hi.
  destruct (getConnection_step w Hne Hi) as (conn & Hg & Hl).
  exists conn, (next_index (len (active_connections w)) (connection_index w)).
  split; [done|]. split.
  - apply next_index_range; [|done].
    unfold len. destruct (active_connections w); [done|]. simpl. lia.
  - by apply list_elem_of_lookup_2 in Hl.
Qed.

(** X6: after [_lostConnection(conn)], [getConnection] raises
    NoConnectedServersError when [conn] was the only active connection,
    and else returns an active connection other than [conn]: the cursor,
    which the loss leaves where it was, neither selects the lost
    connection nor runs past the end of the list. *)
Theorem getConnection_skips_lost (conn : nat) (c : Connection.t) (w : World) :
  connections w !! conn = Some c -> can_lose w c ->
  NoDup (active_connections w) -> -1 <= connection_index w ->
  exists w1,
    _lostConnection conn w = (Ok tt, w1) /\
    (active_connections w1 = [] ->
     getConnection w1 = (Raise NoConnectedServersError, w1)) /\
    (active_connections w1 <> [] ->
     exists conn' w2,
       getConnection w1 = (Ok conn', w2) /\
       conn' <> conn /\ conn' ∈ active_connections w /\
       active_connections w2 = active_connections w1).
Proof.
  intros Hc Hl Hnd Hi. exists (marked_lost conn w).
  split; [by apply (_lostConnection_marks conn c)|].
  split; [apply getConnection_empty|].
  intros Hne.
  assert (Hi' : -1 <= connection_index (marked_lost conn w)).
  { unfold marked_lost. repeat case_decide; by destruct w. }
  destruct (getConnection_member _ Hne Hi') as (conn' & i & Hg & _ & Hin).
  exists conn', (set_connection_index i (marked_lost conn w)).
  split; [done|].
  rewrite active_marked_lost in Hin by done.
  apply list_elem_of_filter in Hin as [Hne' Hin]. done.
Qed.

Lemma can_send_queued (conn task : nat) (t : Task.t) (w : World) (c : nat) :
  can_send (queued conn task t w) c = can_send w c.
Proof.
  unfold can_send, queued. simpl.
  destruct (decide (conn = c)) as [->|Hne].
  - rewrite lookup_alter_eq. by destruct (connections w !! c).
  - by rewrite lookup_alter_ne.
Qed.

Lemma can_send_set_connection_index (i : Z) (w : World) (c : nat) :
  can_send (set_connection_index i w) c = can_send w c.
Proof. done. Qed.

Lemma submitJob_send_fails (j : nat) (packet : Packet.t) (w w1 : World)
    (conn : nat) :
  getConnection w = (Ok conn, w1) ->
  role w1 = ClientRole ->
  is_Some (connections w1 !! conn) -> can_send w1 conn = false ->
  let task := fresh (dom (tasks w1)) in
  submitJob_send j packet w =
    (Ok (conn, task, false),
     marked_lost conn (queued conn task (Task.init (Task.SubmitJobTask j)) w1)).
Proof.
  intros Hg Hr [c Hc] Hs task.
  unfold submitJob_send, new_task. munfold. rewrite Hg. munfold. fold task.
  fold (queued conn task (Task.init (Task.SubmitJobTask j)) w1).
  set (w2 := queued conn task (Task.init (Task.SubmitJobTask j)) w1).
  assert (Hc2 : connections w2 !! conn
                = Some (Connection.with_pending_tasks (fun l => l ++ [task]) c)).
  { unfold w2, queued. simpl. by rewrite lookup_alter_eq, Hc. }
  assert (Hs2 : can_send w2 conn = false) by (unfold w2; by rewrite can_send_queued).
  rewrite (sendPacket_cases w2 conn _ packet Hc2) by (by left).
  unfold can_send in Hs2. rewrite Hc2 in Hs2.
  destruct (Packet.toBinary packet); [|done].
  destruct (Connection.conn _) as [sock|]; [|done].
  by destruct (Socket.broken sock).
Qed.

Lemma submitJob_loop_all_fail (j : nat) (packet : Packet.t)
    (durings : list Interleaving) (n : nat) :
  forall (fuel : nat) (w : World) (attempted : gset nat),
    length (active_connections w) = n -> (n < fuel)%nat ->
    role w = ClientRole -> NoDup (active_connections w) ->
    -1 <= connection_index w ->
    all_unwritable w (active_connections w) ->
    (forall c, c ∈ active_connections w -> c ∉ attempted) ->
    attempted <> ∅ \/ active_connections w <> [] ->
    exists w',
      submitJob_loop fuel j packet attempted durings w =
        (Raise NoConnectedServersError, w') /\
      active_connections w' = [] /\
      (forall c, c ∈ active_connections w -> c ∈ inactive_connections w') /\
      (forall c, c ∈ inactive_connections w -> c ∈ inactive_connections w') /\
      jobs w' = jobs w.
Proof.
  induction n as [|n IH]; intros fuel w att Hlen Hfuel Hr Hnd Hi Hu Hatt Hne;
    (destruct fuel as [|fuel]; [lia|]); cbn [submitJob_loop]; munfold.
  - apply nil_length_inv in Hlen.
    destruct Hne as [Hne|Hne]; [|done].
    rewrite Hlen. rewrite decide_False; [|rewrite list_to_set_nil; exact Hne].
    unfold submitJob_send. munfold.
    rewrite (getConnection_empty w Hlen).
    exists w. rewrite Hlen. repeat split; try done. by intros c ?%elem_of_nil.
  - assert (Hne' : active_connections w <> []).
    { intros H. by rewrite H in Hlen. }
    rewrite decide_False.
    2:{ intros Heq. destruct (active_connections w) as [|c l] eqn:El; [done|].
        apply (Hatt c); [by left|]. rewrite Heq.
        apply elem_of_list_to_set. by left. }
    destruct (getConnection_member w Hne' Hi) as (conn & i & Hg & Hi0 & Hin).
    destruct (Hu conn Hin) as [Hsome Hs].
    set (w1 := set_connection_index i w) in *.
    rewrite (submitJob_send_fails j packet w w1 conn Hg); try done.
    cbn iota beta. simpl negb. cbn iota.
    set (t := Task.init (Task.SubmitJobTask j)).
    set (task := fresh (dom (tasks w1))).
    set (w2 := queued conn task t w1).
    assert (Ha2 : active_connections w2 = active_connections w) by done.
    assert (Hnd2 : NoDup (active_connections w2)) by (by rewrite Ha2).
    assert (Ha3 : active_connections (marked_lost conn w2)
                  = filter (fun x => x <> conn) (active_connections w)).
    { by rewrite active_marked_lost, Ha2. }
    assert (Hperm : active_connections w ≡ₚ
                    conn :: filter (fun x => x <> conn) (active_connections w)).
    { rewrite <- remove_first_filter by done. by apply remove_first_perm. }
    destruct (IH fuel (marked_lost conn w2) ({[conn]} ∪ att)) as (w' & Hloop & Hact & Hin' & Hina & Hjobs).
    + rewrite Ha3. apply Permutation_length in Hperm. simpl in Hperm. lia.
    + lia.
    + by rewrite role_marked_lost.
    + rewrite Ha3. by apply NoDup_filter.
    + unfold marked_lost. repeat case_decide; simpl; unfold w1; simpl; lia.
    + rewrite Ha3. intros c [Hcne Hc]%list_elem_of_filter.
      destruct (Hu c Hc) as [Hsc Hcs]. split.
      * rewrite (proj1 (marked_lost_heaps conn w2)). unfold w2, queued. simpl.
        destruct (decide (conn = c)) as [->|?]; [done|].
        by rewrite lookup_alter_ne.
      * rewrite can_send_marked_lost. unfold w2. by rewrite can_send_queued.
    + rewrite Ha3. intros c [Hcne Hc]%list_elem_of_filter.
      intros [?%elem_of_singleton|?]%elem_of_union; [done|]. by apply (Hatt c).
    + left. intros Hempty. apply (not_elem_of_empty (C := gset nat) conn).
      rewrite <- Hempty. by apply elem_of_union_l, elem_of_singleton.
    + exists w'. split; [done|]. split; [done|]. split; [|split].
      * intros c Hc. destruct (decide (c = conn)) as [->|Hcne].
        -- apply Hina. by apply marked_lost_pool.
        -- apply Hin'. rewrite Ha3. by apply list_elem_of_filter.
      * intros c Hc. apply Hina. by apply inactive_marked_lost.
      * rewrite Hjobs. by rewrite (proj1 (proj2 (marked_lost_heaps conn w2))).
Qed.

(** X7: [submitJob] with a valid precedence on a client whose connections
    all refuse the send. With no active connection at all it raises
    GearmanError at once and changes nothing. With some it tries each one,
    loses each one, and raises NoConnectedServersError: the active list
    ends empty, every connection that the client knew is on the inactive
    list, and no job has changed. *)
Theorem submitJob_without_server (K : constants.t) (fuel j : nat) (job : Job.t)
    (background : bool) (precedence : Z) (durings : list Interleaving) (w : World) :
  jobs w !! j = Some job -> valid_precedence precedence ->
  role w = ClientRole -> NoDup (active_connections w) ->
  -1 <= connection_index w ->
  all_unwritable w (active_connections w) ->
  (length (active_connections w) < fuel)%nat ->
  (active_connections w = [] ->
   submitJob K fuel j background precedence durings w = (Raise GearmanError, w)) /\
  (active_connections w <> [] ->
   exists w',
     submitJob K fuel j background precedence durings w =
       (Raise NoConnectedServersError, w') /\
     active_connections w' = [] /\
     (forall c, c ∈ known_connections w -> c ∈ inactive_connections w') /\
     jobs w' = jobs w).
Proof.
  intros Hj Hv Hr Hnd Hi Hu Hfuel.
  destruct (submitJob_packet_valid K job background precedence Hv) as [cmd Hp].
  rewrite (submitJob_valid K fuel j job background precedence durings w _ Hj Hp).
  split.
  - intros He. destruct fuel as [|fuel]; [simpl in Hfuel; lia|].
    cbn [submitJob_loop]. munfold. rewrite He.
    by rewrite decide_True by (by rewrite list_to_set_nil).
  - intros Hne.
    destruct (submitJob_loop_all_fail j (Packet.mk constants.REQ cmd (submit_payload job))
                durings _ fuel w ∅ eq_refl Hfuel Hr Hnd Hi Hu)
      as (w' & Hloop & Hact & Hin & Hina & Hjobs).
    + intros c _. apply not_elem_of_empty.
    + by right.
    + exists w'. repeat split; try done.
      intros c [Hc|Hc]%elem_of_app; [by apply Hin|by apply Hina].
Qed.

(** ** [submitJob] when the server accepts the job *)

Lemma getConnection_Ok (w w1 : World) (conn : nat) :
  -1 <= connection_index w ->
  getConnection w = (Ok conn, w1) ->
  active_connections w <> [] /\ conn ∈ active_connections w /\
  exists i, 0 <= i /\ w1 = set_connection_index i w.
Proof.
  intros Hi Hg.
  assert (Hne : active_connections w <> []).
  { intros He. by rewrite (getConnection_empty w He) in Hg. }
  destruct (getConnection_member w Hne Hi) as (conn' & i & Hg' & Hi0 & Hin).
  rewrite Hg in Hg'. injection Hg' as -> ->. eauto.
Qed.

Lemma submitJob_turn (fuel j : nat) (packet : Packet.t) (bs : bytes)
    (during : Interleaving) (durings : list Interleaving) (w w1 : World)
    (conn : nat) (c : Connection.t) :
  -1 <= connection_index w ->
  getConnection w = (Ok conn, w1) ->
  writable w1 conn c ->
  Packet.toBinary packet = Some bs ->
  let task := fresh (dom (tasks w1)) in
  let w2 := sent_on conn bs (queued conn task (Task.init (Task.SubmitJobTask j)) w1) in
  submitJob_loop (S fuel) j packet ∅ (during :: durings) w =
    match submitJob_finish j conn task (during w2) with
    | (Ok true, w') => (Ok tt, w')
    | (Ok false, w') => submitJob_loop fuel j packet ({[conn]} ∪ ∅) durings w'
    | (Raise e, w') => (Raise e, w')
    end.
Proof.
  intros Hi Hg Hw Hp task w2.
  destruct (getConnection_Ok w w1 conn Hi Hg) as (Hne & Hin & _).
  cbn [submitJob_loop]. munfold.
  rewrite decide_False.
  2:{ intros Heq. apply (not_elem_of_empty (C := gset nat) conn).
      rewrite Heq. by apply elem_of_list_to_set. }
  rewrite (submitJob_send_writable j packet bs w w1 conn c Hg Hw Hp).
  change (negb true) with false. cbv beta iota.
  change (hd id (during :: durings)) with during.
  change (tail (during :: durings)) with durings.
  fold task. fold (queued conn task (Task.init (Task.SubmitJobTask j)) w1). fold w2.
  destruct (submitJob_finish j conn task (during w2)) as [[[|]|e] w']; done.
Qed.

Lemma sent_on_lookup (conn : nat) (bs : bytes) (w : World) (c : Connection.t) :
  connections w !! conn = Some c ->
  connections (sent_on conn bs w) !! conn = Some (with_sent bs c).
Proof. intros Hc. unfold sent_on. simpl. by rewrite lookup_alter_eq, Hc. Qed.

Lemma queued_lookup (conn task : nat) (t : Task.t) (w : World) (c : Connection.t) :
  connections w !! conn = Some c ->
  connections (queued conn task t w) !! conn
    = Some (Connection.with_pending_tasks (fun l => l ++ [task]) c).
Proof. intros Hc. unfold queued. simpl. by rewrite lookup_alter_eq, Hc. Qed.

Lemma handleJobCreated_submit (conn : nat) (packet : Packet.t) (w : World)
    (c : Connection.t) (task : nat) (rest : list nat) (t : Task.t) (j : nat) :
  connections w !! conn = Some c ->
  Connection.pending_tasks c = task :: rest ->
  tasks w !! task = Some t -> Task.cls t = Task.SubmitJobTask j ->
  handleJobCreated conn packet w =
    (Ok j, created_on conn task j (Packet.data packet) rest w).
Proof.
  intros Hc Hp Ht Hcls. unfold handleJobCreated. munfold.
  rewrite Hc. munfold. rewrite Hp. munfold. simpl. rewrite Ht. munfold.
  rewrite Hcls. munfold. done.
Qed.

Lemma submitJob_finish_complete (j conn task : nat) (w : World) (t : Task.t)
    (job : Job.t) :
  tasks w !! task = Some t -> Task._wait_event t = true ->
  jobs w !! j = Some job ->
  submitJob_finish j conn task w =
    if truthy (default [] (Job.handle job))
    then (Ok true, with_jobs (alter (Job.with_connection (fun _ => Some conn)) j) w)
    else (Ok false, w).
Proof.
  intros Ht He Hj. unfold submitJob_finish. munfold.
  rewrite Ht. munfold. rewrite He. change (negb true) with false.
  cbv beta iota. rewrite Hj. cbv beta iota. by destruct (truthy _).
Qed.

(** X8: when the poll thread handles JOB_CREATED with a non-empty handle
    during the wait of [submitJob], on the connection that [getConnection]
    chose and that had no pending task, [submitJob] returns: the job has
    that handle and that connection, the connection relates the handle to
    the job, has no pending task left and got the bytes of the packet, and
    the pool is as before. *)
Theorem submitJob_accepted (K : constants.t) (fuel j : nat) (job : Job.t)
    (background : bool) (precedence : Z) (durings : list Interleaving)
    (w w1 : World) (conn : nat) (c : Connection.t) (created : Packet.t) :
  jobs w !! j = Some job -> valid_precedence precedence ->
  -1 <= connection_index w ->
  getConnection w = (Ok conn, w1) ->
  writable w1 conn c -> Connection.pending_tasks c = [] ->
  (forall packet, submitJob_packet K job background precedence = Ok packet ->
     is_Some (Packet.toBinary packet)) ->
  Packet.data created <> [] ->
  exists w' c' packet bs,
    submitJob K (S fuel) j background precedence
      (handles handleJobCreated conn created :: durings) w = (Ok tt, w') /\
    submitJob_packet K job background precedence = Ok packet /\
    Packet.toBinary packet = Some bs /\
    jobs w' !! j = Some (accepted conn (Packet.data created) job) /\
    connections w' !! conn = Some c' /\
    Connection.related_jobs c' !! Packet.data created = Some j /\
    Connection.pending_tasks c' = [] /\
    Connection.conn c' = Socket.with_sent (fun l => l ++ [bs]) <$> Connection.conn c /\
    pool w' = pool w.
Proof.
  intros Hj Hv Hi Hg Hw Hpend Hbin Hh.
  destruct (submitJob_packet_valid K job background precedence Hv) as [cmd Hp].
  destruct (Hbin _ Hp) as [bs Hbs].
  destruct (getConnection_Ok w w1 conn Hi Hg) as (Hne & Hin & i & Hi0 & ->).
  destruct Hw as (Hc & sock & Hs & Hb).
  rewrite (submitJob_valid K (S fuel) j job background precedence _ w _ Hj Hp).
  erewrite (submitJob_turn fuel j _ bs _ durings w _ conn c Hi Hg); [| |done].
  2:{ split; [done|]. eauto. }
  set (w1 := set_connection_index i w) in *.
  set (task := fresh (dom (tasks w1))).
  set (t := Task.init (Task.SubmitJobTask j)).
  set (w2 := sent_on conn bs (queued conn task t w1)).
  assert (Hc2 : connections w2 !! conn
                = Some (with_sent bs (Connection.with_pending_tasks (fun l => l ++ [task]) c))).
  { unfold w2. apply sent_on_lookup. by apply queued_lookup. }
  assert (Ht2 : tasks w2 !! task = Some t).
  { unfold w2, sent_on, queued. simpl. by rewrite lookup_insert_eq. }
  assert (Hj2 : jobs w2 !! j = Some job) by done.
  assert (Hp2 : Connection.pending_tasks
                  (with_sent bs (Connection.with_pending_tasks (fun l => l ++ [task]) c))
                = task :: []).
  { simpl. by rewrite Hpend. }
  unfold handles at 1.
  rewrite (handleJobCreated_submit conn created w2 _ task [] t j Hc2 Hp2 Ht2 eq_refl).
  cbn [snd].
  set (h := Packet.data created) in *.
  set (c2 := with_sent bs (Connection.with_pending_tasks (fun l => l ++ [task]) c)) in *.
  set (w3 := created_on conn task j h [] w2).
  assert (Ht3 : tasks w3 !! task = Some (Task.setComplete t)).
  { change (tasks w3) with (alter Task.setComplete task (tasks w2)).
    by rewrite lookup_alter_eq, Ht2. }
  assert (Hj3 : jobs w3 !! j = Some (Job.with_handle (fun _ => Some h) job)).
  { change (jobs w3) with (alter (Job.with_handle (fun _ => Some h)) j (jobs w2)).
    by rewrite lookup_alter_eq, Hj2. }
  assert (Hc3 : connections w3 !! conn
                = Some (Connection.with_related_jobs (<[h := j]>)
                          (Connection.with_pending_tasks (fun _ => []) c2))).
  { change (connections w3)
      with (alter (Connection.with_related_jobs (<[h := j]>)) conn
              (alter (Connection.with_pending_tasks (fun _ => [])) conn
                 (connections w2))).
    by rewrite !lookup_alter_eq, Hc2. }
  rewrite (submitJob_finish_complete j conn task w3 _ _ Ht3 eq_refl Hj3).
  assert (Htr : truthy (default [] (Job.handle (Job.with_handle (fun _ => Some h) job)))
                = true).
  { simpl. by destruct h. }
  rewrite Htr.
  eexists _, _, _, bs. split; [reflexivity|]. split; [done|]. split; [done|].
  split.
  { change (jobs (with_jobs ?f w3)) with (f (jobs w3)).
    by rewrite lookup_alter_eq, Hj3. }
  split; [exact Hc3|].
  split; [simpl; by rewrite lookup_insert_eq|].
  split; [done|].
  split; [|done]. simpl. by rewrite Hs.
Qed.

(** ** ERROR packets *)

Lemma handleError_pending (conn : nat) (packet : Packet.t) (w : World)
    (c : Connection.t) (task : nat) (rest : list nat) (t : Task.t) (a0 a1 : bytes) :
  Packet.getArgument packet 0 false = Ok a0 ->
  Packet.getArgument packet 1 false = Ok a1 ->
  connections w !! conn = Some c ->
  Connection.pending_tasks c = task :: rest ->
  tasks w !! task = Some t ->
  handleError conn packet w = (Ok tt, completed_on conn task rest w).
Proof.
  intros H0 H1 Hc Hp Ht. unfold handleError. munfold.
  rewrite H0, H1. munfold. rewrite Hc. munfold. rewrite Hp. munfold.
  simpl. rewrite Ht. munfold. done.
Qed.

Lemma handleError_idle (conn : nat) (packet : Packet.t) (w : World)
    (c : Connection.t) (a0 a1 : bytes) :
  Packet.getArgument packet 0 false = Ok a0 ->
  Packet.getArgument packet 1 false = Ok a1 ->
  connections w !! conn = Some c -> can_lose w c ->
  Connection.pending_tasks c = [] ->
  handleError conn packet w = (Ok tt, marked_lost conn w).
Proof.
  intros H0 H1 Hc Hl Hp. unfold handleError. munfold.
  rewrite H0, H1. munfold. rewrite Hc. munfold. rewrite Hp. munfold.
  by apply (_lostConnection_marks conn c).
Qed.

(** X9: [BaseClient.handleError] on a payload with fewer than two fields
    raises IndexError and changes nothing. Else it takes the oldest
    pending task of the connection off the list and completes it; and
    when no task is pending, it marks the connection lost. *)
Theorem handleError_outcome (conn : nat) (packet : Packet.t) (w : World)
    (c : Connection.t) :
  connections w !! conn = Some c -> can_lose w c ->
  (forall task, task ∈ Connection.pending_tasks c -> is_Some (tasks w !! task)) ->
  handleError conn packet w =
    match Packet.getArgument packet 1 false with
    | Raise _ => (Raise IndexError, w)
    | Ok _ =>
        match Connection.pending_tasks c with
        | task :: rest => (Ok tt, completed_on conn task rest w)
        | [] => (Ok tt, marked_lost conn w)
        end
    end.
Proof.
  intros Hc Hl Ht.
  destruct (Packet.getArgument packet 1 false) as [a1|e] eqn:H1.
  - assert (H0 : exists a0, Packet.getArgument packet 0 false = Ok a0).
    { unfold Packet.getArgument, index in *.
      destruct (split NUL (Packet.data packet)) as [|a0 l]; [done|]. eauto. }
    destruct H0 as [a0 H0].
    destruct (Connection.pending_tasks c) as [|task rest] eqn:Hp.
    + by apply (handleError_idle conn packet w c a0 a1).
    + destruct (Ht task) as [t Htask]; [by left|].
      by apply (handleError_pending conn packet w c task rest t a0 a1).
  - unfold handleError. munfold.
    unfold Packet.getArgument, index in *.
    destruct (split NUL (Packet.data packet)) as [|a0 l] eqn:Hs.
    + by destruct (split_nonempty NUL (Packet.data packet)).
    + simpl. munfold. simpl in H1. destruct (l !! 0%nat); [done|].
      by injection H1 as <-.
Qed.

(** X10: when the only server answers a submission with an ERROR packet,
    [submitJob] raises GearmanError: the task was completed without a
    handle, the connection is still in the pool, nothing is pending on it,
    and the job is unchanged. *)
Theorem submitJob_refused (K : constants.t) (fuel j : nat) (job : Job.t)
    (background : bool) (precedence : Z) (durings : list Interleaving)
    (w : World) (conn : nat) (c : Connection.t) (error : Packet.t) (a0 a1 : bytes) :
  jobs w !! j = Some job -> Job.handle job = None ->
  valid_precedence precedence ->
  -1 <= connection_index w ->
  active_connections w = [conn] ->
  writable w conn c -> Connection.pending_tasks c = [] ->
  (forall packet, submitJob_packet K job background precedence = Ok packet ->
     is_Some (Packet.toBinary packet)) ->
  Packet.getArgument error 0 false = Ok a0 ->
  Packet.getArgument error 1 false = Ok a1 ->
  exists w' c',
    submitJob K (S (S fuel)) j background precedence
      (handles handleError conn error :: durings) w = (Raise GearmanError, w') /\
    pool w' = pool w /\
    jobs w' = jobs w /\
    connections w' !! conn = Some c' /\
    Connection.pending_tasks c' = [] /\
    Connection.related_jobs c' = Connection.related_jobs c.
Proof.
  intros Hj Hh Hv Hi Ha Hw Hpend Hbin H0 H1.
  destruct (submitJob_packet_valid K job background precedence Hv) as [cmd Hp].
  destruct (Hbin _ Hp) as [bs Hbs].
  destruct (getConnection_member w) as (conn' & i & Hg & Hi0 & Hin);
    [by rewrite Ha|done|].
  rewrite Ha in Hin. apply list_elem_of_singleton in Hin as ->.
  destruct Hw as (Hc & sock & Hs & Hb).
  rewrite (submitJob_valid K _ j job background precedence _ w _ Hj Hp).
  erewrite (submitJob_turn (S fuel) j _ bs _ durings w _ conn c Hi Hg); [| |done].
  2:{ split; [done|]. eauto. }
  set (w1 := set_connection_index i w) in *.
  set (task := fresh (dom (tasks w1))).
  set (t := Task.init (Task.SubmitJobTask j)).
  set (w2 := sent_on conn bs (queued conn task t w1)).
  set (c2 := with_sent bs (Connection.with_pending_tasks (fun l => l ++ [task]) c)).
  assert (Hc2 : connections w2 !! conn = Some c2).
  { unfold w2. apply sent_on_lookup. by apply queued_lookup. }
  assert (Ht2 : tasks w2 !! task = Some t).
  { unfold w2, sent_on, queued. simpl. by rewrite lookup_insert_eq. }
  assert (Hj2 : jobs w2 !! j = Some job) by done.
  assert (Hp2 : Connection.pending_tasks c2 = task :: []).
  { simpl. by rewrite Hpend. }
  unfold handles at 1.
  rewrite (handleError_pending conn error w2 c2 task [] t a0 a1 H0 H1 Hc2 Hp2 Ht2).
  cbn [snd].
  set (w3 := completed_on conn task [] w2).
  assert (Ht3 : tasks w3 !! task = Some (Task.setComplete t)).
  { change (tasks w3) with (alter Task.setComplete task (tasks w2)).
    by rewrite lookup_alter_eq, Ht2. }
  assert (Hj3 : jobs w3 !! j = Some job) by done.
  rewrite (submitJob_finish_complete j conn task w3 _ _ Ht3 eq_refl Hj3).
  rewrite Hh. simpl truthy. cbv iota.
  cbn [submitJob_loop]. munfold.
  change (active_connections w3) with (active_connections w). rewrite Ha.
  rewrite decide_True.
  2:{ rewrite list_to_set_cons, list_to_set_nil. done. }
  exists w3, (Connection.with_pending_tasks (fun _ => []) c2).
  split; [done|]. split; [done|]. split; [done|]. split; [|done].
  change (connections w3)
    with (alter (Connection.with_pending_tasks (fun _ => [])) conn (connections w2)).
  by rewrite lookup_alter_eq, Hc2.
Qed.

(** ** Bytes that [readPacket] cannot attribute *)

Lemma unpack_pack_4sii (code : bytes) (t n : Z) (h : bytes) :
  length code = 4%nat -> pack_4sii code t n = Some h ->
  length h = 12%nat /\ take 4 h = code /\ unpack_4sii h = Some (code, t, n).
Proof.
  intros Hc H. unfold pack_4sii in H.
  destruct (pack_i t) as [bt|] eqn:Et; [|done].
  destruct (pack_i n) as [bn|] eqn:En; [|done].
  simplify_eq. rewrite pack_4s_id by done.
  apply pack_i_Some in Et as (Ht1 & Ht2 & _).
  apply pack_i_Some in En as (Hl1 & Hl2 & _).
  split; [rewrite !length_app; lia|]. split.
  { by rewrite take_app_length'. }
  unfold unpack_4sii. unfold len at 1. rewrite !length_app, Hc, Ht1, Hl1.
  simpl Z.eqb. cbv iota.
  rewrite take_app_length' by done.
  rewrite drop_app_length' by done. rewrite take_app_length' by done.
  replace 8%nat with (length (code ++ bt)) by (rewrite length_app; lia).
  rewrite (assoc_L (++)), drop_app_length. rewrite take_ge by lia.
  by rewrite Ht2, Hl2.
Qed.

Lemma world_same_connection (w : World) (self : nat) (conn : Connection.t) :
  connections w !! self = Some conn ->
  with_admins (fun _ => admins w) (with_connections (<[self := conn]>) w) = w.
Proof.
  intros Hc. destruct w as [ro ci ru cs ac ina idx jo ta ad op wi fu wa jq].
  simpl in *. unfold with_admins, with_connections. simpl.
  by rewrite insert_id.
Qed.

Lemma reading_same (conn : Connection.t) :
  reading (Connection.input_buffer conn) (Connection.need_bytes conn)
    (match Connection.conn conn with
     | Some sock => Socket.incoming sock
     | None => []
     end) conn = conn.
Proof.
  destruct conn as [[[se inc br]|] cd ib nb rj pt ar ec op st]; done.
Qed.

Lemma slice_first_byte (x : byte) (raw : bytes) :
  slice (Some 0) (Some 1) (x :: raw) = [x].
Proof.
  rewrite slice_between by lia. simpl. by rewrite take_0.
Qed.

Lemma frame_stray (x : byte) (buf : bytes) (need : bool)
    (admins : gmap nat AdminRequest.t) :
  x <> NUL ->
  let s := RP.mk (x :: buf) need None None None [] admins in
  RP.frame s = (Some (RP.Raises IndexError), s).
Proof.
  intros Hx s. unfold RP.frame. simpl RP.admin. cbv iota.
  simpl RP.raw_bytes. rewrite slice_first_byte.
  rewrite decide_False by congruence. done.
Qed.

(** X12: bytes that do not start with NUL while no administrative
    request is outstanding make [readPacket] raise IndexError, and stay in
    the buffer: every later read raises the same, without consuming
    anything. *)
Theorem readPacket_stray_bytes (w : World) (self : nat) (conn : Connection.t)
    (x : byte) (buf : bytes) :
  connections w !! self = Some conn ->
  x <> NUL ->
  Connection.admin_requests conn = [] ->
  (Connection.input_buffer conn = x :: buf -> Connection.need_bytes conn = false ->
   Connection_readPacket self w = (Raise IndexError, w) /\
   forall fuel, readPackets (S fuel) self w = (Raise IndexError, w)) /\
  (forall sock segs,
     Connection.input_buffer conn = [] -> Connection.need_bytes conn = false ->
     Connection.conn conn = Some sock -> Socket.incoming sock = (x :: buf) :: segs ->
     Connection_readPacket self w =
       (Raise IndexError,
        with_connections (<[self := reading (x :: buf) false segs conn]>) w)).
Proof.
  intros Hc Hx Hq. split.
  - intros Hb Hn.
    assert (Hr : Connection_readPacket self w = (Raise IndexError, w)).
    { unfold Connection_readPacket. rewrite Hc, Hb, Hn, Hq.
      assert (Hrun : forall stall segs,
                 RP.run stall segs (RP.mk (x :: buf) false None None None [] (admins w))
                 = (RP.Raises IndexError,
                    RP.mk (x :: buf) false None None None [] (admins w), segs)).
      { intros stall segs. unfold RP.run. simpl negb. simpl orb. cbv iota.
        by rewrite (frame_stray x buf false (admins w) Hx). }
      destruct (Connection.conn conn) as [sock|] eqn:Hs; rewrite Hrun; simpl;
        f_equal; rewrite <- (world_same_connection w self conn Hc) at 2;
        do 2 f_equal;
        rewrite <- (reading_same conn) at 2; rewrite Hb, Hn, Hs;
        unfold reading; f_equal; f_equal;
        destruct conn; simpl in *; by subst. }
    split; [done|]. intros fuel. cbn [readPackets]. munfold.
    rewrite Hc. munfold. unfold Connection_hasPendingData. munfold.
    rewrite Hc. munfold. rewrite Hb.
    change (truthy (x :: buf) || ?y) with true. cbv beta iota.
    by rewrite Hr.
  - intros sock segs Hb Hn Hs Hi.
    unfold Connection_readPacket. rewrite Hc, Hb, Hn, Hq, Hs, Hi.
    unfold RP.run. simpl negb. simpl orb. cbv iota.
    cbn [RP.loop]. simpl truthy. cbv iota.
    change (RP.set_need false (RP.set_raw (RP.raw_bytes _ ++ x :: buf) _))
      with (RP.mk (x :: buf) false None None None [] (admins w)).
    rewrite (frame_stray x buf false (admins w) Hx). simpl.
    f_equal.
    destruct w as [ro ci ru cs ac ina idx jo ta ad op wi fu wa jq].
    unfold with_admins, with_connections. simpl. f_equal. f_equal.
    unfold reading. destruct conn; simpl in *; by subst.
Qed.

(** ** A header with a negative length *)

Lemma frame_negative_length (code : bytes) (ptype k : Z) (h rest : bytes)
    (queue : list nat) (admins : gmap nat AdminRequest.t) :
  length code = 4%nat -> head code = Some NUL ->
  pack_4sii code ptype (- k) = Some h -> 1 <= k <= 12 ->
  let s := RP.mk (h ++ rest) false None None None queue admins in
  RP.frame s =
    (Some (RP.Returns (Some (inl (Packet.mk code ptype [])))),
     RP.mk (drop (Z.to_nat (12 - k)) (h ++ rest)) false (Some false) None
       (Some (code, ptype, - k)) queue admins).
Proof.
  intros Hc Hh Hp Hk s.
  destruct (unpack_pack_4sii code ptype (- k) h Hc Hp) as (Hl & Ht & Hu).
  assert (Hn : 12 <= len (h ++ rest)).
  { rewrite len_app. pose proof (len_nonneg rest). unfold len. lia. }
  assert (Hfirst : slice (Some 0) (Some 1) (h ++ rest) = [NUL]).
  { destruct h as [|x h']; [done|]. simpl app. rewrite slice_first_byte.
    destruct code as [|y code']; [done|]. simpl in Hh. simpl in Ht.
    by simplify_eq. }
  assert (Hcode : slice (Some 0) (Some 1) code = [NUL]).
  { destruct code as [|y code']; [done|]. rewrite slice_first_byte.
    simpl in Hh. by simplify_eq. }
  unfold RP.frame. subst s. simpl RP.admin. cbv iota.
  simpl RP.raw_bytes. rewrite Hfirst. rewrite decide_True by done.
  simpl RP.admin. simpl default. cbv iota.
  simpl RP.header. cbv iota. simpl RP.raw_bytes.
  destruct (Z.leb_spec 12 (len (h ++ rest))) as [_|?]; [|lia].
  rewrite slice_to by lia. rewrite take_app_length' by done. rewrite Hu.
  simpl RP.header. cbv iota.
  destruct (Z.leb_spec (- k + 12) (len (h ++ rest))) as [_|?]; [|lia].
  unfold Packet.init. rewrite Hcode. rewrite decide_True by done.
  assert (Hdata : slice (Some 12) (Some (12 + - k)) (h ++ rest) = []).
  { unfold slice. simpl default.
    rewrite !clamp_index_nonneg by lia.
    replace (Z.to_nat (Z.min (12 + - k) (len (h ++ rest)) - Z.min 12 (len (h ++ rest))))
      with 0%nat by lia.
    apply take_0. }
  simpl RP.raw_bytes. unfold RP.set_raw, RP.set_header, RP.set_binary.
  simpl. rewrite Hdata. rewrite slice_from by lia.
  replace (12 + - k) with (12 - k) by lia. done.
Qed.

(** X11: [readPacket] accepts a header whose length field is [-k], for
    [k] from 1 to 12: it returns a packet with an empty payload and leaves
    the last [k] bytes of the header in the buffer. With [-12] it
    consumes nothing, so reading as long as data is pending, as
    [_pollLoop] does, never comes to an end. *)
Theorem readPacket_negative_length (w : World) (self : nat) (conn : Connection.t)
    (code : bytes) (ptype k : Z) (h rest : bytes) :
  connections w !! self = Some conn ->
  Connection.need_bytes conn = false ->
  Connection.input_buffer conn = h ++ rest ->
  length code = 4%nat -> head code = Some NUL ->
  pack_4sii code ptype (- k) = Some h -> 1 <= k <= 12 ->
  let segs := match Connection.conn conn with
              | Some sock => Socket.incoming sock
              | None => []
              end in
  Connection_readPacket self w =
    (Ok (Some (inl (Packet.mk code ptype []))),
     with_connections
       (<[self := reading (drop (Z.to_nat (12 - k)) (h ++ rest)) false segs conn]>) w) /\
  (k = 12 ->
   Connection_readPacket self w = (Ok (Some (inl (Packet.mk code ptype []))), w) /\
   forall fuel, readPackets fuel self w = (Raise OutOfFuel, w)).
Proof.
  intros Hc Hn Hb Hcode Hhead Hp Hk segs.
  assert (Hr : Connection_readPacket self w =
    (Ok (Some (inl (Packet.mk code ptype []))),
     with_connections
       (<[self := reading (drop (Z.to_nat (12 - k)) (h ++ rest)) false segs conn]>) w)).
  { unfold Connection_readPacket. rewrite Hc, Hb, Hn.
    assert (Hrun : forall stall sg,
               RP.run stall sg
                 (RP.mk (h ++ rest) false None None None
                    (Connection.admin_requests conn) (admins w))
               = (RP.Returns (Some (inl (Packet.mk code ptype []))),
                  RP.mk (drop (Z.to_nat (12 - k)) (h ++ rest)) false (Some false) None
                    (Some (code, ptype, - k)) (Connection.admin_requests conn) (admins w),
                  sg)).
    { intros stall sg. unfold RP.run. simpl RP.need_bytes. simpl RP.raw_bytes.
      assert (Ht : truthy (h ++ rest) = true).
      { destruct (unpack_pack_4sii code ptype (- k) h Hcode Hp) as (Hl & _ & _).
        by destruct h. }
      rewrite Ht. simpl negb. simpl orb. cbv iota.
      by rewrite (frame_negative_length code ptype k h rest _ _ Hcode Hhead Hp Hk). }
    subst segs.
    destruct (Connection.conn conn) as [sock|] eqn:Hs; rewrite Hrun; simpl;
      f_equal;
      destruct w as [ro ci ru cs ac ina idx jo ta ad op wi fu wa jq];
      unfold with_admins, with_connections; simpl; f_equal; f_equal;
      unfold reading; destruct conn; simpl in *; by subst. }
  split; [done|].
  intros ->.
  assert (Hsame : Connection_readPacket self w
                  = (Ok (Some (inl (Packet.mk code ptype []))), w)).
  { rewrite Hr. f_equal.
    rewrite <- (world_same_connection w self conn Hc) at 2.
    destruct w as [ro ci ru cs ac ina idx jo ta ad op wi fu wa jq].
    unfold with_admins, with_connections; simpl. f_equal. f_equal.
    rewrite <- (reading_same conn) at 2. rewrite Hb, Hn. done. }
  split; [done|].
  induction fuel as [|fuel IH]; [done|].
  cbn [readPackets]. munfold.
  rewrite Hc. munfold. unfold Connection_hasPendingData. munfold.
  rewrite Hc. munfold. rewrite Hb.
  assert (Ht : truthy (h ++ rest) = true).
  { destruct (unpack_pack_4sii code ptype (- 12) h Hcode Hp) as (Hl & _ & _).
    by destruct h. }
  rewrite Ht. rewrite orb_true_l. cbv beta iota.
  rewrite Hsame. cbv beta iota. by rewrite IH.
Qed.

(** ** The reports of a worker about a job *)

Lemma Connection_sendPacket_writable (w : World) (c : nat) (conn : Connection.t)
    (p : Packet.t) (bs : bytes) :
  writable w c conn -> Packet.toBinary p = Some bs ->
  Connection_sendPacket c p w = (Ok tt, sent_on c bs w).
Proof.
  intros (Hc & sock & Hs & Hb) Hp.
  unfold Connection_sendPacket, Connection_sendRaw. rewrite Hp.
  munfold. rewrite Hc. munfold. rewrite Hs, Hb. done.
Qed.

Lemma send_report_writable (P : protocol.t) (k : report) (self : WorkerJob.t)
    (data bs : bytes) (w : World) (c : nat) (conn : Connection.t) :
  WorkerJob.connection self = Some c -> writable w c conn ->
  Packet.toBinary
    (Packet.mk constants.REQ (report_type P k)
       (report_payload k (WorkerJob.handle self) data)) = Some bs ->
  send_report P k self data w = (Ok tt, sent_on c bs w).
Proof.
  intros Hc Hw Hp.
  destruct k; simpl in *;
    unfold WorkerJob_sendWorkData, WorkerJob_sendWorkWarning,
      WorkerJob_sendWorkComplete, WorkerJob_sendWorkException,
      WorkerJob_sendWorkFail;
    munfold; simpl; rewrite Hc;
    by apply (Connection_sendPacket_writable w c conn).
Qed.

Lemma report_arguments (k : report) (packet : Packet.t) (handle data : bytes) :
  NUL ∉ handle ->
  Packet.data packet = report_payload k handle data ->
  Packet.getArgument packet 0 false = Ok handle /\
  (k <> ReportFail -> Packet.getArgument packet 1 true = Ok data).
Proof.
  intros Hh Hd. destruct k; simpl in Hd.
  1-4: assert (Hj : Packet.data packet = join [NUL] ([handle] ++ [data])) by done;
       (split; [by apply (getArgument_field packet [handle] data 0 handle);
                  [repeat constructor| |]
               |intros _; apply (getArgument_rest packet [handle] data);
                  [by repeat constructor|done]]).
  split; [|done].
  assert (Hj : Packet.data packet = join [NUL] ([] ++ [handle])) by done.
  unfold Packet.getArgument, index. by rewrite Hd, split_fields.
Qed.

Lemma report_handler_spec (k : report) (c : nat) (packet : Packet.t)
    (handle data : bytes) (w : World) (conn : Connection.t) (j : nat) (job : Job.t) :
  NUL ∉ handle ->
  Packet.data packet = report_payload k handle data ->
  connections w !! c = Some conn ->
  Connection.related_jobs conn !! handle = Some j ->
  jobs w !! j = Some job -> Job.handle job = Some handle ->
  report_handler k c packet w =
    (Ok j,
     (if report_ends k
      then with_connections (alter (Connection.with_related_jobs (delete handle)) c)
      else id)
       (with_jobs (<[j := reported k data job]>) w)).
Proof.
  intros Hh Hd Hc Hr Hj Hjh.
  destruct (report_arguments k packet handle data Hh Hd) as [H0 H1].
  assert (Hins : forall f, alter f j (jobs w) = <[j := f job]> (jobs w)).
  { intros f. apply map_eq. intros i. destruct (decide (i = j)) as [->|Hne].
    - by rewrite lookup_alter_eq, lookup_insert_eq, Hj.
    - by rewrite lookup_alter_ne, lookup_insert_ne. }
  destruct k; cbn [report_handler report_ends reported];
    unfold handleWorkData, handleWorkWarning, handleWorkComplete,
      handleWorkException, handleWorkFail, Packet_getJob, del_related_jobs;
    munfold; rewrite H0; munfold; rewrite Hc; munfold; rewrite Hr;
    munfold; rewrite ?H1 by done; munfold;
    try destruct (truthy data); cbv beta iota; simpl;
    rewrite ?lookup_alter_eq, ?Hj; simpl; rewrite ?Hc; simpl;
    rewrite ?Hjh, ?Hr; rewrite ?decide_True by eauto; simpl;
    destruct w as [ro ci ru cs ac ina idx jo ta ad op wi fu wa jq];
    unfold with_connections, with_jobs; simpl in *;
    rewrite ?Hins, ?alter_insert_eq; try done.
  by rewrite insert_id.
Qed.

(** X13: a report of a worker about its job and the handler of the client
    agree. [sendWorkData], [sendWorkWarning], [sendWorkComplete],
    [sendWorkException] and [sendWorkFail] send one packet of the matching
    type with the payload handle, NUL, data (the handle alone for
    WORK_FAIL); the handler of the client, given that payload, updates the
    job related to the handle: the data, with its NUL bytes, is appended
    (when not empty) or stored as the exception, and the flags and the
    related jobs change as the kind of report says. *)
Theorem report_reaches_client (P : protocol.t) (k : report) (self : WorkerJob.t)
    (data bs : bytes) (worker : World) (wc : nat) (wconn : Connection.t)
    (received : Packet.t) (client : World) (c : nat) (conn : Connection.t)
    (j : nat) (job : Job.t) :
  WorkerJob.connection self = Some wc -> writable worker wc wconn ->
  Packet.toBinary
    (Packet.mk constants.REQ (report_type P k)
       (report_payload k (WorkerJob.handle self) data)) = Some bs ->
  NUL ∉ WorkerJob.handle self ->
  Packet.data received = report_payload k (WorkerJob.handle self) data ->
  connections client !! c = Some conn ->
  Connection.related_jobs conn !! WorkerJob.handle self = Some j ->
  jobs client !! j = Some job -> Job.handle job = Some (WorkerJob.handle self) ->
  send_report P k self data worker = (Ok tt, sent_on wc bs worker) /\
  exists client',
    report_handler k c received client = (Ok j, client') /\
    jobs client' !! j = Some (reported k data job) /\
    (Connection.related_jobs <$> connections client' !! c) =
      Some (if report_ends k
            then delete (WorkerJob.handle self) (Connection.related_jobs conn)
            else Connection.related_jobs conn).
Proof.
  intros Hwc Hw Hbs Hh Hd Hc Hr Hj Hjh. split.
  - by apply (send_report_writable P k self data bs worker wc wconn).
  - rewrite (report_handler_spec k c received _ data client conn j job Hh Hd Hc Hr Hj Hjh).
    eexists. split; [done|].
    destruct k; simpl; rewrite ?lookup_insert_eq, ?lookup_alter_eq, ?Hc; done.
Qed.

(** ** WORK_STATUS *)

Lemma b_String (a : Ascii.ascii) (s : string) :
  b (String a s) = Ascii.byte_of_ascii a :: b s.
Proof. done. Qed.

Lemma str_uint_no_NUL (d : Decimal.uint) : NUL ∉ b (NilEmpty.string_of_uint d).
Proof.
  induction d; cbn [NilEmpty.string_of_uint]; rewrite ?b_String;
    [apply not_elem_of_nil|..];
    (apply not_elem_of_cons; split; [by vm_compute|done]).
Qed.

Lemma str_no_NUL (n : Z) : NUL ∉ str n.
Proof.
  unfold str, NilZero.string_of_int, NilZero.string_of_uint.
  destruct (Z.to_int n) as [d|d].
  - destruct d; try apply str_uint_no_NUL.
    rewrite b_String. apply not_elem_of_cons. split; [by vm_compute|].
    apply not_elem_of_nil.
  - rewrite b_String. apply not_elem_of_cons. split; [by vm_compute|].
    destruct d; try apply str_uint_no_NUL.
    rewrite b_String. apply not_elem_of_cons. split; [by vm_compute|].
    apply not_elem_of_nil.
Qed.

Lemma alter_as_insert (j : nat) (job : Job.t) (f : Job.t -> Job.t)
    (jo : gmap nat Job.t) :
  jo !! j = Some job -> alter f j jo = <[j := f job]> jo.
Proof.
  intros Hj. apply map_eq. intros i. destruct (decide (i = j)) as [->|Hne].
  - by rewrite lookup_alter_eq, lookup_insert_eq, Hj.
  - by rewrite lookup_alter_ne, lookup_insert_ne.
Qed.

Lemma handleWorkStatus_spec (c : nat) (packet : Packet.t)
    (handle numerator denominator : bytes) (w : World) (conn : Connection.t)
    (j : nat) (job : Job.t) :
  Packet.getArgument packet 0 false = Ok handle ->
  Packet.getArgument packet 1 false = Ok numerator ->
  Packet.getArgument packet 2 false = Ok denominator ->
  connections w !! c = Some conn ->
  Connection.related_jobs conn !! handle = Some j ->
  jobs w !! j = Some job ->
  handleWorkStatus c packet w =
    (Ok j, with_jobs (<[j := with_status numerator denominator job]>) w).
Proof.
  intros H0 H1 H2 Hc Hr Hj.
  unfold handleWorkStatus, Packet_getJob.
  munfold; rewrite H0; munfold; rewrite Hc; munfold; rewrite Hr; munfold;
    rewrite H1; munfold; rewrite H2; munfold.
  destruct w as [ro ci ru cs ac ina idx jo ta ad op wi fu wa jq].
  unfold with_jobs; simpl in *.
  by rewrite (alter_as_insert j job _ jo Hj), alter_insert_eq.
Qed.

(** X14: [sendWorkStatus(n, d)] sends the payload handle, NUL, the decimal
    digits of [n], NUL, those of [d], and [handleWorkStatus] on that
    payload stores the two strings of digits as the numerator and the
    denominator of the job. *)
Theorem status_reaches_client (P : protocol.t) (self : WorkerJob.t)
    (numerator denominator : Z) (bs : bytes) (worker : World) (wc : nat)
    (wconn : Connection.t) (received : Packet.t) (client : World) (c : nat)
    (conn : Connection.t) (j : nat) (job : Job.t) :
  let payload := WorkerJob.handle self ++ [NUL] ++ str numerator ++ [NUL]
                 ++ str denominator in
  WorkerJob.connection self = Some wc -> writable worker wc wconn ->
  Packet.toBinary (Packet.mk constants.REQ (protocol.WORK_STATUS P) payload) = Some bs ->
  NUL ∉ WorkerJob.handle self ->
  Packet.data received = payload ->
  connections client !! c = Some conn ->
  Connection.related_jobs conn !! WorkerJob.handle self = Some j ->
  jobs client !! j = Some job ->
  WorkerJob_sendWorkStatus P self numerator denominator worker
    = (Ok tt, sent_on wc bs worker) /\
  handleWorkStatus c received client =
    (Ok j, with_jobs (<[j := with_status (str numerator) (str denominator) job]>) client).
Proof.
  intros payload Hwc Hw Hbs Hh Hd Hc Hr Hj. split.
  - unfold WorkerJob_sendWorkStatus. munfold. simpl. rewrite Hwc.
    by apply (Connection_sendPacket_writable worker wc wconn).
  - assert (Hf : fields [WorkerJob.handle self; str numerator; str denominator]).
    { repeat constructor; [done|apply str_no_NUL..]. }
    assert (Hj' : Packet.data received =
                  join [NUL] [WorkerJob.handle self; str numerator; str denominator]).
    { by rewrite Hd. }
    apply (handleWorkStatus_spec c received (WorkerJob.handle self)
             (str numerator) (str denominator) client conn j job); try done.
    + by apply (getArgument_nth received _ 0 _ Hf).
    + by apply (getArgument_nth received _ 1 _ Hf).
    + by apply (getArgument_nth received _ 2 _ Hf).
Qed.

(** ** [_updateStateMachines] *)

Lemma with_connections_same (w : World) (m : gmap nat Connection.t) :
  m = connections w -> with_connections (fun _ => m) w = w.
Proof. intros ->. by destruct w. Qed.

Lemma updated_idem (bs : bytes) (n : Z) (conn : Connection.t) :
  updated bs n (updated bs n conn) = updated bs n conn.
Proof.
  unfold updated.
  destruct (bool_decide (Connection.state conn = "IDLE")) eqn:Hs;
    destruct (0 <? n) eqn:H0; destruct (n <? 1) eqn:H1;
    simpl; rewrite ?Hs, ?H0, ?H1; try done; lia.
Qed.

Ltac visited_eq w c Hc Hs H0 :=
  unfold visited, updated, sent_on, in_state, with_connections;
  destruct w as [ro ci ru cs ac ina idx jo ta ad op wi fu wa jq]; simpl in *;
  do 2 f_equal; apply map_eq; intros i;
  destruct (decide (i = c)) as [->|Hne];
  rewrite ?lookup_alter_eq, ?lookup_alter_ne, ?Hc by done; simpl;
  rewrite ?Hs, ?H0; done.

Lemma visited_body (K : constants.t) (bs : bytes) (w : World) (c : nat)
    (conn : Connection.t) :
  connections w !! c = Some conn ->
  (0 < waiting_for_jobs w -> Connection.state conn = "IDLE" ->
   Packet.toBinary (Packet.mk constants.REQ (constants.GRAB_JOB_UNIQ K) [])
     = Some bs /\ can_send w c = true) ->
  (c0 ← the_connection c;
   w0 ← get;
   (if bool_decide (Connection.state c0 = "IDLE") && (0 <? waiting_for_jobs w0)
    then _sendGrabJobUniq K (Some c);; Connection_changeState c "GRAB_WAIT"
    else mret tt);;
   c1 ← the_connection c;
   w1 ← get;
   if negb (bool_decide (Connection.state c1 = "IDLE")) && (waiting_for_jobs w1 <? 1)
   then Connection_changeState c "IDLE"
   else mret tt) w = (Ok tt, visited bs w c).
Proof.
  intros Hc Hsend.
  unfold _sendGrabJobUniq, Connection_changeState. munfold.
  rewrite Hc. munfold.
  destruct (bool_decide (Connection.state conn = "IDLE")) eqn:Hs.
  - apply bool_decide_eq_true_1 in Hs as Hs'.
    destruct (0 <? waiting_for_jobs w) eqn:H0.
    + apply Z.ltb_lt in H0 as H0'.
      destruct (Hsend H0' Hs') as [Hbs Hsend'].
      apply can_send_writable in Hsend' as [conn' Hw].
      assert (conn' = conn) as -> by (destruct Hw as [Hw _]; congruence).
      cbn [andb negb]. cbv beta iota. simpl.
      rewrite (sendPacket_writable w c conn _ bs Hw Hbs). munfold.
      simpl. rewrite lookup_alter_eq, lookup_alter_eq, Hc. simpl.
      assert (H1 : (waiting_for_jobs w <? 1) = false) by lia.
      rewrite H1.
      visited_eq w c Hc Hs H0.
    + cbn [andb negb]. cbv beta iota. munfold. rewrite Hc. munfold. rewrite Hs. simpl.
      visited_eq w c Hc Hs H0.
  - cbn [andb negb]. cbv beta iota. munfold. rewrite Hc. munfold. rewrite Hs. simpl.
    destruct (waiting_for_jobs w <? 1) eqn:H1; simpl; visited_eq w c Hc Hs H1.
Qed.

Lemma can_send_visited (bs : bytes) (w : World) (c c' : nat) :
  can_send (visited bs w c) c' = can_send w c'.
Proof.
  unfold can_send, visited. simpl.
  destruct (decide (c = c')) as [->|Hne]; [|by rewrite lookup_alter_ne].
  rewrite lookup_alter_eq. destruct (connections w !! c') as [conn|]; [|done].
  simpl. unfold updated.
  destruct (bool_decide (Connection.state conn = "IDLE"));
    destruct (0 <? waiting_for_jobs w); destruct (waiting_for_jobs w <? 1);
    simpl; try done; by destruct (Connection.conn conn).
Qed.

Lemma askable_visited (K : constants.t) (bs : bytes) (w : World) (c : nat)
    (l : list nat) :
  askable K bs w l -> askable K bs (visited bs w c) l.
Proof.
  intros H c' Hc'. destruct (H c' Hc') as (conn & Hl & Hs).
  rewrite can_send_visited.
  change (waiting_for_jobs (visited bs w c)) with (waiting_for_jobs w).
  unfold visited. simpl.
  destruct (decide (c = c')) as [->|Hne]; [|rewrite lookup_alter_ne by done; eauto].
  rewrite lookup_alter_eq, Hl. simpl. eexists. split; [done|].
  intros H0 Hi. unfold updated in Hi.
  assert (H1 : (0 <? waiting_for_jobs w) = true) by lia.
  assert (H2 : (waiting_for_jobs w <? 1) = false) by lia.
  rewrite H1, H2 in Hi.
  destruct (bool_decide (Connection.state conn = "IDLE")) eqn:Hb; [done|].
  apply bool_decide_eq_false_1 in Hb. done.
Qed.

Lemma _updateStateMachines_loop (K : constants.t) (bs : bytes) (l : list nat) :
  forall w, askable K bs w l ->
    for_each l (fun connection =>
      c ← the_connection connection;
      w ← get;
      (if bool_decide (Connection.state c = "IDLE") && (0 <? waiting_for_jobs w)
       then _sendGrabJobUniq K (Some connection);;
            Connection_changeState connection "GRAB_WAIT"
       else mret tt);;
      c ← the_connection connection;
      w ← get;
      if negb (bool_decide (Connection.state c = "IDLE")) && (waiting_for_jobs w <? 1)
      then Connection_changeState connection "IDLE"
      else mret tt) w = (Ok tt, foldl (visited bs) w l).
Proof.
  induction l as [|c l IH]; intros w Hl; [done|].
  destruct (Hl c) as (conn & Hc & Hs); [by left|].
  rewrite (for_each_cons_ok _ c l w _ (visited_body K bs w c conn Hc Hs)).
  cbn [foldl]. apply IH. apply askable_visited.
  intros c' Hc'. apply Hl. by right.
Qed.

Lemma _updateStateMachines_fold (K : constants.t) (bs : bytes) (w : World) :
  askable K bs w (active_connections w) ->
  _updateStateMachines K w = (Ok tt, foldl (visited bs) w (active_connections w)).
Proof.
  intros Hl. unfold _updateStateMachines. munfold.
  by apply _updateStateMachines_loop.
Qed.

Lemma visited_fold_frame (bs : bytes) (l : list nat) (w : World) :
  foldl (visited bs) w l =
    with_connections (fun _ => connections (foldl (visited bs) w l)) w.
Proof.
  revert w. induction l as [|c l IH]; intros w; simpl.
  - by destruct w.
  - rewrite IH at 1. by destruct w.
Qed.

Lemma visited_fold_lookup (bs : bytes) (l : list nat) (w : World) (c : nat) :
  connections (foldl (visited bs) w l) !! c =
    (if decide (c ∈ l) then updated bs (waiting_for_jobs w) else id)
      <$> connections w !! c.
Proof.
  revert w. induction l as [|x l IH]; intros w; cbn [foldl].
  - rewrite decide_False by apply not_elem_of_nil.
    by destruct (connections w !! c).
  - rewrite IH.
    change (waiting_for_jobs (visited bs w x)) with (waiting_for_jobs w).
    unfold visited at 1. simpl.
    destruct (decide (x = c)) as [->|Hne].
    + rewrite lookup_alter_eq. rewrite (decide_True (P := c ∈ c :: l)) by by left.
      destruct (connections w !! c) as [conn|]; [|by destruct (decide (c ∈ l))].
      simpl. destruct (decide (c ∈ l)); [|done]. by rewrite updated_idem.
    + rewrite lookup_alter_ne by done.
      destruct (decide (c ∈ l)) as [Hin|Hnin].
      * rewrite decide_True by by right. done.
      * rewrite decide_False; [done|].
        intros [?|?]%elem_of_cons; [congruence|done].
Qed.

(** X15: [_updateStateMachines], on active connections of which the
    idle ones take a send while a thread waits for a job, returns and
    changes nothing but connection objects of the active list: with a
    thread waiting, each idle one is sent GRAB_JOB_UNIQ and moves to
    GRAB_WAIT, and the others stay as they are; with none waiting,
    nothing is sent and every one that is not idle becomes IDLE. *)
Theorem _updateStateMachines_outcome (K : constants.t) (w : World) (bs : bytes) :
  Packet.toBinary (Packet.mk constants.REQ (constants.GRAB_JOB_UNIQ K) []) = Some bs ->
  grabbable w (active_connections w) ->
  exists w',
    _updateStateMachines K w = (Ok tt, w') /\
    w' = with_connections (fun _ => connections w') w /\
    forall c,
      connections w' !! c =
        (if decide (c ∈ active_connections w)
         then updated bs (waiting_for_jobs w) else id) <$> connections w !! c.
Proof.
  intros Hbs Hl. exists (foldl (visited bs) w (active_connections w)).
  split.
  { apply _updateStateMachines_fold. intros c Hc.
    destruct (Hl c Hc) as (conn & Hlc & Hs). exists conn. split; [done|].
    intros H0 Hi. split; [done|]. by apply Hs. }
  split; [apply visited_fold_frame|]. intros c. apply visited_fold_lookup.
Qed.

(** ** [getJob] and the assignment of a job *)

Lemma visited_fold_fields (bs : bytes) (l : list nat) (w : World) :
  let w' := foldl (visited bs) w l in
  running w' = running w /\ active_connections w' = active_connections w /\
  inactive_connections w' = inactive_connections w /\
  waiting_for_jobs w' = waiting_for_jobs w /\ job_queue w' = job_queue w.
Proof. intros w'. unfold w'. rewrite visited_fold_frame. done. Qed.

Lemma getJob_enters (P : protocol.t) (durings : list Interleaving) (w : World) :
  running w = true -> job_queue w = [] ->
  getJob P durings w =
    match _updateStateMachines (protocol.K P) (entered w) with
    | (Ok _, w2) =>
        match job_queue_get durings w2 with
        | (Ok (Some job), w3) => (Ok job, w3)
        | (Ok None, w3) => (Raise InterruptedError, w3)
        | (Raise e, w3) => (Raise e, w3)
        end
    | (Raise e, w2) => (Raise e, w2)
    end.
Proof.
  intros Hr Hq. unfold getJob, job_queue_get_nowait. munfold.
  rewrite Hr. cbn [negb]. cbv beta iota.
  change (job_queue (with_waiting_for_jobs (fun n => n + 1) w)) with (job_queue w).
  rewrite Hq. cbv beta iota.
  rewrite !bool_decide_eq_false_2 by (by intros [? ?]).
  cbn [negb]. cbv beta iota. fold (entered w).
  destruct (_updateStateMachines (protocol.K P) (entered w)) as [[[]|e] w2]; [|done].
  destruct (job_queue_get durings w2) as [[[job|]|e] w3]; done.
Qed.

Lemma job_queue_get_blocked (during : Interleaving) (durings : list Interleaving)
    (w : World) :
  job_queue w = [] ->
  job_queue_get (during :: durings) w = job_queue_get durings (during w).
Proof. intros Hq. cbn [job_queue_get]. munfold. by rewrite Hq. Qed.

Lemma job_queue_get_ready (durings : list Interleaving) (w : World)
    (x : option WorkerJob.t) (q : list (option WorkerJob.t)) :
  job_queue w = x :: q ->
  job_queue_get durings w = (Ok x, with_job_queue (fun _ => q) w).
Proof. intros Hq. destruct durings; cbn [job_queue_get]; munfold; by rewrite Hq. Qed.

Lemma served_updated (bs : bytes) (c c' : nat) (conn : Connection.t) :
  updated bs 0
    ((if decide (c' = c) then Connection.with_state (fun _ => "IDLE") else id)
       (updated bs 1 conn)) = served bs conn.
Proof.
  unfold updated, served. simpl.
  destruct (bool_decide (Connection.state conn = "IDLE")) eqn:Hs;
    destruct (decide (c' = c)); simpl; rewrite ?Hs; done.
Qed.

Lemma assigned_frame (c : nat) (job : WorkerJob.t) (w : World)
    (m2 m3 : gmap nat Connection.t) (w2 w3 : World) :
  job_queue w = [] -> waiting_for_jobs w = 0 ->
  w2 = with_connections (fun _ => m2) (entered w) ->
  w3 = with_connections (fun _ => m3) (assigned c job w2) ->
  with_job_queue (fun _ => []) w3 = with_connections (fun _ => m3) w.
Proof.
  intros Hq Hn -> ->.
  destruct w as [ro ci ru cs ac ina idx jo ta ad op wi fu wa jq].
  simpl in *. subst. done.
Qed.

(** X16: [getJob] on a running worker with an empty queue and no other
    thread waiting asks every idle connection for a job and blocks; when
    the poll thread then handles JOB_ASSIGN on an active connection,
    [getJob] returns the WorkerJob of that packet, bound to that
    connection. Afterwards every active connection is IDLE, those that
    were idle have got GRAB_JOB_UNIQ once, and nothing else has changed:
    the counter is back to 0 and the queue is empty. *)
Theorem getJob_receives_assignment (P : protocol.t) (w : World) (bs : bytes)
    (c : nat) (packet : Packet.t) (handle name arguments : bytes)
    (durings : list Interleaving) :
  Packet.toBinary
    (Packet.mk constants.REQ (constants.GRAB_JOB_UNIQ (protocol.K P)) []) = Some bs ->
  running w = true -> job_queue w = [] -> waiting_for_jobs w = 0 ->
  (forall c', c' ∈ active_connections w ->
     exists conn, connections w !! c' = Some conn /\
       (Connection.state conn = "IDLE" -> can_send w c' = true)) ->
  c ∈ active_connections w ->
  NUL ∉ handle -> NUL ∉ name ->
  Packet.data packet = handle ++ NUL :: name ++ NUL :: arguments ->
  exists w',
    getJob P (handles (handleJobAssign (protocol.K P)) c packet :: durings) w =
      (Ok (WorkerJob.mk handle name arguments None (Some c)), w') /\
    w' = with_connections (fun _ => connections w') w /\
    forall c',
      connections w' !! c' =
        (if decide (c' ∈ active_connections w) then served bs else id)
          <$> connections w !! c'.
Proof.
  intros Hbs Hr Hq Hn Hact Hc Hh Hna Hd.
  set (K := protocol.K P) in *.
  set (l := active_connections w).
  set (job := WorkerJob.mk handle name arguments None (Some c)).
  set (w1 := entered w).
  set (w2 := foldl (visited bs) w1 l).
  set (w3 := foldl (visited bs) (assigned c job w2) l).
  assert (Hg1 : askable K bs w1 (active_connections w1)).
  { intros c' Hc'. destruct (Hact c' Hc') as (conn & Hl & Hs).
    exists conn. split; [done|]. intros _ Hi. split; [done|]. by apply Hs. }
  assert (H2 : _updateStateMachines K w1 = (Ok tt, w2)).
  { by apply _updateStateMachines_fold. }
  destruct (visited_fold_fields bs l w1) as (Hr2 & Ha2 & _ & Hn2 & Hq2).
  fold w2 in Hr2, Ha2, Hn2, Hq2.
  assert (Hl2 : forall c', connections w2 !! c' =
            (if decide (c' ∈ l) then updated bs 1 else id) <$> connections w !! c').
  { intros c'. unfold w2. rewrite visited_fold_lookup.
    change (waiting_for_jobs w1) with (waiting_for_jobs w + 1). by rewrite Hn. }
  assert (Hg3 : askable K bs (assigned c job w2)
                  (active_connections (assigned c job w2))).
  { intros c' Hc'. change (active_connections (assigned c job w2))
      with (active_connections w2) in Hc'. rewrite Ha2 in Hc'.
    destruct (Hact c' Hc') as (conn & Hl & _).
    change (connections (assigned c job w2))
      with (alter (Connection.with_state (fun _ => "IDLE")) c (connections w2)).
    change (waiting_for_jobs (assigned c job w2)) with (waiting_for_jobs w2 - 1).
    rewrite Hn2. change (waiting_for_jobs w1) with (waiting_for_jobs w + 1).
    rewrite Hn.
    destruct (decide (c = c')) as [->|Hne].
    - rewrite lookup_alter_eq, Hl2, Hl. simpl. eexists. split; [done|]. lia.
    - rewrite lookup_alter_ne, Hl2, Hl by done. simpl. eexists. split; [done|]. lia. }
  assert (H3 : handleJobAssign K c packet w2 = (Ok tt, w3)).
  { rewrite (handleJobAssign_spec K w2 c packet handle name arguments Hh Hna Hd).
    fold job. rewrite (_updateStateMachines_fold K bs _ Hg3).
    change (active_connections (assigned c job w2)) with (active_connections w2).
    by rewrite Ha2. }
  destruct (visited_fold_fields bs l (assigned c job w2)) as (Hr3 & Ha3 & _ & Hn3 & Hq3).
  fold w3 in Hr3, Ha3, Hn3, Hq3.
  exists (with_job_queue (fun _ => []) w3).
  split; [|split].
  - rewrite (getJob_enters P _ w Hr Hq). fold K w1. rewrite H2.
    rewrite job_queue_get_blocked by (by rewrite Hq2).
    unfold handles. rewrite H3. cbn [snd].
    rewrite (job_queue_get_ready durings w3 (Some job) []); [done|].
    rewrite Hq3. change (job_queue (assigned c job w2)) with (job_queue w2 ++ [Some job]).
    rewrite Hq2. change (job_queue w1) with (job_queue w). by rewrite Hq.
  - apply (assigned_frame c job w (connections w2) (connections w3) w2 w3 Hq Hn).
    + apply visited_fold_frame.
    + apply visited_fold_frame.
  - intros c'. change (connections (with_job_queue (fun _ => []) w3)) with (connections w3).
    unfold w3. rewrite visited_fold_lookup.
    change (waiting_for_jobs (assigned c job w2)) with (waiting_for_jobs w2 - 1).
    rewrite Hn2. change (waiting_for_jobs w1) with (waiting_for_jobs w + 1).
    rewrite Hn. change (0 + 1 - 1) with 0.
    change (connections (assigned c job w2))
      with (alter (Connection.with_state (fun _ => "IDLE")) c (connections w2)).
    fold l.
    destruct (decide (c' ∈ l)) as [Hin|Hnin].
    + destruct (decide (c' = c)) as [->|Hne].
      * rewrite lookup_alter_eq, Hl2. rewrite decide_True by done.
        destruct (connections w !! c) as [conn|]; [|done]. simpl.
        f_equal. rewrite <- (served_updated bs c c conn).
        by rewrite decide_True.
      * rewrite lookup_alter_ne, Hl2 by done. rewrite decide_True by done.
        destruct (connections w !! c') as [conn|]; [|done]. simpl.
        f_equal. rewrite <- (served_updated bs c c' conn).
        by rewrite decide_False.
    + assert (c' <> c) by (intros ->; done).
      rewrite lookup_alter_ne, Hl2 by done. rewrite decide_False by done.
      by destruct (connections w !! c').
Qed.

(** ** [stopWaitingForJobs] *)

Lemma given_up_fields (f : nat -> bool) (l : list nat) (w : World) :
  let w' := foldl (given_up f) w l in
  connections w' = connections w /\ role w' = role w /\
  running w' = running w /\ waiting_for_jobs w' = waiting_for_jobs w /\
  job_queue w' = job_queue w.
Proof.
  revert w. induction l as [|c l IH]; intros w; [done|].
  cbn [foldl]. destruct (IH (given_up f w c)) as (H1 & H2 & H3 & H4 & H5).
  cbv zeta. rewrite H1, H2, H3, H4, H5. unfold given_up.
  destruct (f c); [|done]. unfold marked_lost.
  repeat case_decide; by destruct w.
Qed.

Lemma given_up_active (f : nat -> bool) (l : list nat) :
  forall w, NoDup (active_connections w) ->
    active_connections (foldl (given_up f) w l) =
      filter (fun x => ~ (x ∈ l /\ f x = true)) (active_connections w).
Proof.
  induction l as [|c l IH]; intros w Hnd.
  - simpl. symmetry. apply filter_all, Forall_forall.
    intros x _ [?%elem_of_nil _]. done.
  - cbn [foldl]. unfold given_up at 2.
    destruct (f c) eqn:Hs.
    + rewrite IH by (rewrite active_marked_lost by done; by apply NoDup_filter).
      rewrite active_marked_lost by done. rewrite list_filter_filter.
      apply list_filter_iff. intros x. split.
      * intros [H Hne] [[->|Hx]%elem_of_cons Hf]; [done|]. by apply H.
      * intros H. split.
        -- intros [Hx Hf]. apply H. split; [by right|done].
        -- intros ->. apply H. split; [by left|done].
    + rewrite IH by done. apply list_filter_iff. intros x. split.
      * intros H [[->|Hx]%elem_of_cons Hf]; [congruence|]. by apply H.
      * intros H [Hx Hf]. apply H. split; [by right|done].
Qed.

Lemma inactive_marked_lost_inv (c x : nat) (w : World) :
  x ∈ inactive_connections (marked_lost c w) ->
  x ∈ inactive_connections w \/ x = c.
Proof.
  unfold marked_lost.
  destruct w as [ro ci ru cs ac ina idx jo ta ad op wi fu wa jq]; simpl.
  destruct (decide (c ∈ ac)); simpl; destruct (decide (c ∈ ina)); simpl;
    try (by left); intros [?|?%list_elem_of_singleton]%elem_of_app; eauto.
Qed.

Lemma given_up_inactive (f : nat -> bool) (l : list nat) (x : nat) :
  forall w, NoDup (active_connections w) ->
    x ∈ inactive_connections (foldl (given_up f) w l) <->
    x ∈ inactive_connections w \/ (x ∈ l /\ f x = true).
Proof.
  induction l as [|c l IH]; intros w Hnd.
  - simpl. split; [by left|]. intros [?|[?%elem_of_nil _]]; done.
  - cbn [foldl]. unfold given_up at 2. destruct (f c) eqn:Hs.
    + rewrite IH by (rewrite active_marked_lost by done; by apply NoDup_filter).
      split.
      * intros [[?|Heq]%inactive_marked_lost_inv|[Hx Hf]].
        -- by left.
        -- subst x. right. split; [by left|done].
        -- right. split; [by right|done].
      * intros [Hx|[[->|Hx]%elem_of_cons Hf]].
        -- left. by apply inactive_marked_lost.
        -- left. by apply marked_lost_pool.
        -- by right.
    + rewrite IH by done. split.
      * intros [?|[Hx Hf]]; [by left|]. right. split; [by right|done].
      * intros [?|[[->|Hx]%elem_of_cons Hf]]; [by left|congruence|by right].
Qed.

Lemma given_up_none (f : nat -> bool) (l : list nat) (w : World) :
  (forall c, c ∈ l -> f c = false) -> foldl (given_up f) w l = w.
Proof.
  induction l as [|c l IH]; intros Hf; [done|]. cbn [foldl]. unfold given_up at 2.
  rewrite Hf by (by left). apply IH. intros c' Hc'. apply Hf. by right.
Qed.

Lemma stopWaitingForJobs_scan_fold (stale f : nat -> bool) (l : list nat) :
  forall (ok : bool) (w : World),
    (forall c, c ∈ l -> exists conn, connections w !! c = Some conn /\
       f c = bool_decide (Connection.state conn = "GRAB_WAIT") /\
       (f c = true -> stale c = true /\ can_lose w conn)) ->
    stopWaitingForJobs_scan stale l ok w = (Ok ok, foldl (given_up f) w l).
Proof.
  induction l as [|c l IH]; intros ok w Hl; [done|].
  destruct (Hl c) as (conn & Hc & Hf & Hs); [by left|].
  assert (Hl' : forall c', c' ∈ l ->
            exists conn', connections (given_up f w c) !! c' = Some conn' /\
              f c' = bool_decide (Connection.state conn' = "GRAB_WAIT") /\
              (f c' = true -> stale c' = true /\ can_lose (given_up f w c) conn')).
  { intros c' Hc'. destruct (Hl c') as (conn' & Hc2 & Hf2 & Hs2); [by right|].
    exists conn'. unfold given_up. destruct (f c); [|done].
    rewrite (proj1 (marked_lost_heaps c w)). split; [done|]. split; [done|].
    unfold can_lose. by rewrite role_marked_lost. }
  cbn [stopWaitingForJobs_scan foldl]. munfold. rewrite Hc. munfold.
  rewrite <- Hf. unfold given_up at 2. destruct (f c) eqn:Hfc.
  - destruct (Hs eq_refl) as [-> Hlose].
    rewrite (_lostConnection_marks c conn w Hc Hlose).
    apply IH. intros c' Hc'. specialize (Hl' c' Hc').
    unfold given_up in Hl'. by rewrite Hfc in Hl'.
  - apply IH. intros c' Hc'. specialize (Hl' c' Hc').
    unfold given_up in Hl'. by rewrite Hfc in Hl'.
Qed.

Lemma stopWaitingForJobs_drain_all (k : nat) :
  forall w, waiting_for_jobs w = Z.of_nat k ->
    stopWaitingForJobs_drain k w =
      (Ok tt, with_job_queue (fun q => q ++ replicate k None)
                (with_waiting_for_jobs (fun _ => 0) w)).
Proof.
  induction k as [|k IH]; intros w Hw.
  - simpl. destruct w as [ro ci ru cs ac ina idx jo ta ad op wi fu wa jq].
    simpl in *. subst. unfold with_job_queue, with_waiting_for_jobs. simpl.
    by rewrite app_nil_r.
  - cbn [stopWaitingForJobs_drain]. munfold.
    assert (H0 : (0 <? waiting_for_jobs w) = true) by lia.
    rewrite H0. munfold. rewrite IH.
    + destruct w as [ro ci ru cs ac ina idx jo ta ad op wi fu wa jq].
      unfold with_job_queue, with_waiting_for_jobs. simpl.
      by rewrite <- app_assoc.
    + simpl. lia.
Qed.

Lemma stopWaitingForJobs_fold (P : protocol.t) (fuel : nat)
    (clock : list (nat -> bool)) (durings : list Interleaving) (w : World)
    (bs : bytes) :
  0 <= waiting_for_jobs w ->
  (forall c, c ∈ active_connections w ->
     exists conn, connections w !! c = Some conn /\
       (Connection.state conn = "GRAB_WAIT" ->
        hd (fun _ => false) clock c = true /\ can_lose w conn)) ->
  let w1 := foldl (given_up (has_state w "GRAB_WAIT")) w (active_connections w) in
  active_connections w1 ⊆ active_connections w ->
  stopWaitingForJobs P (S fuel) clock durings w =
    (Ok tt, foldl (visited bs) (interrupted w1) (active_connections w1)).
Proof.
  intros Hn Hact w1 Hsub.
  destruct (given_up_fields (has_state w "GRAB_WAIT") (active_connections w) w)
    as (Hc1 & Hro1 & Hr1 & Hn1 & Hq1). fold w1 in Hc1, Hro1, Hr1, Hn1, Hq1.
  unfold stopWaitingForJobs. cbn [stopWaitingForJobs_wait]. munfold.
  rewrite (stopWaitingForJobs_scan_fold _ (has_state w "GRAB_WAIT")).
  2:{ intros c Hc. destruct (Hact c Hc) as (conn & Hl & Hs).
      exists conn. unfold has_state. rewrite Hl. split; [done|]. split; [done|].
      intros Hb. apply Hs. by apply bool_decide_eq_true_1 in Hb. }
  fold w1. munfold.
  rewrite (stopWaitingForJobs_drain_all _ w1) by lia.
  assert (Hi : with_job_queue
                 (fun q => q ++ replicate (Z.to_nat (waiting_for_jobs w1)) None)
                 (with_waiting_for_jobs (fun _ => 0) w1) = interrupted w1) by done.
  rewrite Hi. apply (_updateStateMachines_fold (protocol.K P) bs (interrupted w1)).
  intros c Hc. change (active_connections (interrupted w1))
    with (active_connections w1) in Hc.
  destruct (Hact c (Hsub c Hc)) as (conn & Hl & _).
  exists conn. change (connections (interrupted w1)) with (connections w1).
  rewrite Hc1. split; [done|]. simpl. lia.
Qed.

Lemma idle_updated (bs : bytes) (conn : Connection.t) :
  updated bs 0 conn = Connection.with_state (fun _ => "IDLE") conn.
Proof.
  unfold updated. simpl.
  destruct (bool_decide (Connection.state conn = "IDLE")) eqn:Hs; [|done].
  apply bool_decide_eq_true_1 in Hs. destruct conn. simpl in *. by subst.
Qed.

(** X18: [stopWaitingForJobs], when every active connection in the state
    GRAB_WAIT has been so for more than five seconds, returns after one
    scan: those connections are marked lost, [waiting_for_jobs] ends at 0
    with one [None] put on the queue for each thread that was waiting,
    and every connection that is still active is set to IDLE. *)
Theorem stopWaitingForJobs_outcome (P : protocol.t) (fuel : nat)
    (clock : list (nat -> bool)) (durings : list Interleaving) (w : World) :
  NoDup (active_connections w) -> 0 <= waiting_for_jobs w ->
  (forall c, c ∈ active_connections w ->
     exists conn, connections w !! c = Some conn /\
       (Connection.state conn = "GRAB_WAIT" ->
        hd (fun _ => false) clock c = true /\ can_lose w conn)) ->
  exists w',
    stopWaitingForJobs P (S fuel) clock durings w = (Ok tt, w') /\
    waiting_for_jobs w' = 0 /\
    job_queue w' =
      job_queue w ++ replicate (Z.to_nat (waiting_for_jobs w)) None /\
    active_connections w' =
      filter (fun c => has_state w "GRAB_WAIT" c = false) (active_connections w) /\
    (forall c, c ∈ inactive_connections w' <->
       c ∈ inactive_connections w \/
       (c ∈ active_connections w /\ has_state w "GRAB_WAIT" c = true)) /\
    forall c,
      connections w' !! c =
        (if decide (c ∈ active_connections w')
         then Connection.with_state (fun _ => "IDLE") else id)
          <$> connections w !! c.
Proof.
  intros Hnd Hn Hact.
  set (f := has_state w "GRAB_WAIT").
  set (w1 := foldl (given_up f) w (active_connections w)).
  destruct (given_up_fields f (active_connections w) w)
    as (Hc1 & Hro1 & Hr1 & Hn1 & Hq1). fold w1 in Hc1, Hro1, Hr1, Hn1, Hq1.
  assert (Ha1 : active_connections w1 =
                filter (fun c => f c = false) (active_connections w)).
  { unfold w1. rewrite given_up_active by done. apply filter_iff_in.
    intros x Hx. split.
    - intros H. destruct (f x) eqn:Hf; [|done]. exfalso. by apply H.
    - intros Hf [_ Ht]. congruence. }
  assert (Hsub : active_connections w1 ⊆ active_connections w).
  { rewrite Ha1. intros x Hx. by apply list_elem_of_filter in Hx as [_ ?]. }
  set (w2 := foldl (visited []) (interrupted w1) (active_connections w1)).
  destruct (visited_fold_fields [] (active_connections w1) (interrupted w1))
    as (Hr2 & Ha2 & Hi2 & Hn2 & Hq2). fold w2 in Hr2, Ha2, Hi2, Hn2, Hq2.
  exists w2. split; [by apply stopWaitingForJobs_fold|].
  split; [by rewrite Hn2|].
  split; [rewrite Hq2; simpl; by rewrite Hq1, Hn1|].
  split; [by rewrite Ha2|].
  split.
  - intros c. rewrite Hi2.
    change (inactive_connections (interrupted w1)) with (inactive_connections w1).
    unfold w1. by rewrite given_up_inactive.
  - intros c. unfold w2. rewrite visited_fold_lookup.
    fold w2. rewrite Ha2.
    change (active_connections (interrupted w1)) with (active_connections w1).
    change (connections (interrupted w1)) with (connections w1). rewrite Hc1.
    change (waiting_for_jobs (interrupted w1)) with 0.
    destruct (decide (c ∈ active_connections w1)); [|done].
    destruct (connections w !! c) as [conn|]; [|done]. simpl.
    by rewrite idle_updated.
Qed.

(** X19: a [getJob] that blocks on a running worker, none of whose active
    connections is idle or in GRAB_WAIT, raises InterruptedError when
    another thread calls [stopWaitingForJobs]: it takes one of the
    [None]s, the other waiting threads find theirs on the queue,
    [waiting_for_jobs] is 0, the pool is unchanged and every active
    connection is IDLE. *)
Theorem getJob_interrupted (P : protocol.t) (fuel : nat)
    (clock : list (nat -> bool)) (durs durings : list Interleaving) (w : World) :
  running w = true -> job_queue w = [] -> 0 <= waiting_for_jobs w ->
  (forall c, c ∈ active_connections w ->
     exists conn, connections w !! c = Some conn /\
       Connection.state conn <> "IDLE" /\ Connection.state conn <> "GRAB_WAIT") ->
  exists w',
    getJob P
      ((fun w => (stopWaitingForJobs P (S fuel) clock durs w).2) :: durings) w =
      (Raise InterruptedError, w') /\
    waiting_for_jobs w' = 0 /\
    job_queue w' = replicate (Z.to_nat (waiting_for_jobs w)) None /\
    pool w' = pool w /\
    forall c,
      connections w' !! c =
        (if decide (c ∈ active_connections w)
         then Connection.with_state (fun _ => "IDLE") else id)
          <$> connections w !! c.
Proof.
  intros Hr Hq Hn Hact.
  set (K := protocol.K P).
  set (l := active_connections w).
  set (w1 := entered w).
  assert (Hg1 : askable K [] w1 (active_connections w1)).
  { intros c Hc. destruct (Hact c Hc) as (conn & Hl & Hi & _).
    exists conn. split; [done|]. intros _ ?. done. }
  assert (Hw2 : foldl (visited []) w1 l = w1).
  { rewrite visited_fold_frame. apply with_connections_same.
    apply map_eq. intros c. rewrite visited_fold_lookup.
    destruct (decide (c ∈ l)) as [Hin|Hnin]; [|by destruct (connections w1 !! c)].
    destruct (Hact c Hin) as (conn & Hl & Hi & _).
    change (connections w1) with (connections w). rewrite Hl. simpl. f_equal.
    unfold updated. rewrite bool_decide_eq_false_2 by done.
    change (waiting_for_jobs w1) with (waiting_for_jobs w + 1).
    assert (H1 : (waiting_for_jobs w + 1 <? 1) = false) by lia. by rewrite H1. }
  assert (Hf : forall c, c ∈ l -> has_state w1 "GRAB_WAIT" c = false).
  { intros c Hc. destruct (Hact c Hc) as (conn & Hl & _ & Hg).
    unfold has_state. change (connections w1) with (connections w).
    rewrite Hl. by apply bool_decide_eq_false_2. }
  assert (Hw3 : foldl (given_up (has_state w1 "GRAB_WAIT")) w1 l = w1).
  { by apply given_up_none. }
  set (w4 := foldl (visited []) (interrupted w1) l).
  assert (H4 : stopWaitingForJobs P (S fuel) clock durs w1 = (Ok tt, w4)).
  { rewrite (stopWaitingForJobs_fold P fuel clock durs w1 []).
    - change (active_connections w1) with l. by rewrite Hw3.
    - simpl. lia.
    - intros c Hc. destruct (Hact c Hc) as (conn & Hl & _ & Hg).
      exists conn. split; [done|]. done.
    - change (active_connections w1) with l. by rewrite Hw3. }
  destruct (visited_fold_fields [] l (interrupted w1))
    as (Hr4 & Ha4 & Hi4 & Hn4 & Hq4). fold w4 in Hr4, Ha4, Hi4, Hn4, Hq4.
  assert (Hq4' : job_queue w4 =
                 None :: replicate (Z.to_nat (waiting_for_jobs w)) None).
  { rewrite Hq4. simpl. rewrite Hq. simpl.
    replace (Z.to_nat (waiting_for_jobs w + 1))
      with (S (Z.to_nat (waiting_for_jobs w))) by lia. done. }
  exists (with_job_queue (fun _ => replicate (Z.to_nat (waiting_for_jobs w)) None) w4).
  split; [|split; [|split; [|split]]].
  - rewrite (getJob_enters P _ w Hr Hq). fold K w1.
    rewrite (_updateStateMachines_fold K [] w1 Hg1).
    change (active_connections w1) with l. rewrite Hw2.
    rewrite job_queue_get_blocked by done.
    cbv beta. rewrite H4. cbn [snd].
    by rewrite (job_queue_get_ready durings w4 None _ Hq4').
  - simpl. by rewrite Hn4.
  - done.
  - unfold pool. simpl. by rewrite Ha4, Hi4.
  - intros c. simpl. unfold w4. rewrite visited_fold_lookup.
    change (active_connections (interrupted w1)) with l.
    change (connections (interrupted w1)) with (connections w).
    change (waiting_for_jobs (interrupted w1)) with 0.
    destruct (decide (c ∈ l)); [|done].
    destruct (connections w !! c) as [conn|]; [|done]. simpl.
    by rewrite idle_updated.
Qed.

(** ** [getJob] when a server is out of reach *)

Lemma for_each_app {A} (body : A -> M World unit) (l1 l2 : list A) (w : World) :
  for_each (l1 ++ l2) body w =
    match for_each l1 body w with
    | (Ok _, w') => for_each l2 body w'
    | (Raise e, w') => (Raise e, w')
    end.
Proof.
  revert w. induction l1 as [|x l1 IH]; intros w; [done|].
  simpl. munfold. destruct (body x w) as [[[]|e] w']; [apply IH|done].
Qed.

Lemma can_send_visited_fold (bs : bytes) (l : list nat) (w : World) (c : nat) :
  can_send (foldl (visited bs) w l) c = can_send w c.
Proof.
  revert w. induction l as [|x l IH]; intros w; [done|].
  cbn [foldl]. by rewrite IH, can_send_visited.
Qed.

Lemma visited_fold_role (bs : bytes) (l : list nat) (w : World) :
  role (foldl (visited bs) w l) = role w.
Proof. by rewrite visited_fold_frame. Qed.

Lemma _updateStateMachines_unfold (K : constants.t) (w : World) :
  _updateStateMachines K w =
    for_each (active_connections w) (fun connection =>
      c ← the_connection connection;
      w ← get;
      (if bool_decide (Connection.state c = "IDLE") && (0 <? waiting_for_jobs w)
       then _sendGrabJobUniq K (Some connection);;
            Connection_changeState connection "GRAB_WAIT"
       else mret tt);;
      c ← the_connection connection;
      w ← get;
      if negb (bool_decide (Connection.state c = "IDLE")) && (waiting_for_jobs w <? 1)
      then Connection_changeState connection "IDLE"
      else mret tt) w.
Proof. done. Qed.

(** X17: when the socket of an idle active connection refuses
    GRAB_JOB_UNIQ, [getJob] does not block: it raises the exception of the
    send. The connection has left the active list for the inactive one,
    the connections after it in the list have not been asked, and
    [waiting_for_jobs] stays incremented. *)
Theorem getJob_send_failure (P : protocol.t) (durings : list Interleaving)
    (w : World) (bs : bytes) (pre rest : list nat) (c : nat) (conn : Connection.t) :
  Packet.toBinary
    (Packet.mk constants.REQ (constants.GRAB_JOB_UNIQ (protocol.K P)) []) = Some bs ->
  running w = true -> job_queue w = [] -> 0 <= waiting_for_jobs w ->
  active_connections w = pre ++ c :: rest -> NoDup (active_connections w) ->
  (forall c', c' ∈ pre ->
     exists conn', connections w !! c' = Some conn' /\
       (Connection.state conn' = "IDLE" -> can_send w c' = true)) ->
  connections w !! c = Some conn -> Connection.state conn = "IDLE" ->
  can_send w c = false -> can_lose w conn ->
  exists w',
    getJob P durings w =
      (Raise (if Connection.conn conn is Some _ then SocketError
              else AttributeError), w') /\
    waiting_for_jobs w' = waiting_for_jobs w + 1 /\
    job_queue w' = [] /\
    active_connections w' = pre ++ rest /\
    c ∈ inactive_connections w' /\
    forall c', c' ∈ c :: rest -> connections w' !! c' = connections w !! c'.
Proof.
  intros Hbs Hr Hq Hn Ha Hnd Hpre Hc Hs Hcs Hlose.
  set (K := protocol.K P) in *.
  set (w1 := entered w).
  set (w2 := foldl (visited bs) w1 pre).
  assert (Hnd' := Hnd). rewrite Ha in Hnd'.
  apply NoDup_app in Hnd' as (Hndp & Hdisj & Hndr).
  assert (Hcp : c ∉ pre).
  { intros Hin. apply (Hdisj c Hin). by left. }
  assert (Hg : askable K bs w1 pre).
  { intros c' Hc'. destruct (Hpre c' Hc') as (conn' & Hl & Hi).
    exists conn'. split; [done|]. intros _ Hidle. split; [done|]. by apply Hi. }
  destruct (visited_fold_fields bs pre w1) as (Hr2 & Ha2 & Hi2 & Hn2 & Hq2).
  fold w2 in Hr2, Ha2, Hi2, Hn2, Hq2.
  assert (Hl2 : forall c', c' ∉ pre -> connections w2 !! c' = connections w !! c').
  { intros c' Hc'. unfold w2. rewrite visited_fold_lookup.
    rewrite decide_False by done. change (connections w1) with (connections w).
    by destruct (connections w !! c'). }
  assert (Hc2 : connections w2 !! c = Some conn) by (by rewrite Hl2).
  assert (Hlose2 : can_lose w2 conn).
  { unfold can_lose, w2. rewrite visited_fold_role. done. }
  assert (Hcs2 : can_send w2 c = false).
  { unfold w2. by rewrite can_send_visited_fold. }
  assert (Hnd2 : NoDup (active_connections w2)).
  { rewrite Ha2. change (active_connections w1) with (active_connections w).
    done. }
  destruct (marked_lost_pool c w2 Hnd2) as [Hout Hin].
  destruct (marked_lost_heaps c w2) as (Hheap & _).
  exists (marked_lost c w2).
  split; [|split; [|split; [|split; [|split]]]].
  - rewrite (getJob_enters P _ w Hr Hq). fold K w1.
    rewrite _updateStateMachines_unfold.
    change (active_connections w1) with (active_connections w). rewrite Ha.
    rewrite for_each_app.
    rewrite (_updateStateMachines_loop K bs pre w1 Hg). fold w2.
    cbn [for_each]. munfold. rewrite Hc2. munfold.
    rewrite bool_decide_eq_true_2 by done.
    assert (H0 : (0 <? waiting_for_jobs w2) = true).
    { rewrite Hn2. simpl. lia. }
    rewrite H0. cbn [andb]. cbv beta iota.
    unfold _sendGrabJobUniq. munfold.
    change (Packet.init constants.REQ (constants.GRAB_JOB_UNIQ K) [])
      with (Ok (Packet.mk constants.REQ (constants.GRAB_JOB_UNIQ K) [])).
    cbv beta iota.
    rewrite (sendPacket_cases w2 c conn _ Hc2 Hlose2), Hbs.
    unfold can_send in Hcs2. rewrite Hc2 in Hcs2.
    destruct (Connection.conn conn) as [sock|]; [|done].
    apply negb_false_iff in Hcs2. by rewrite Hcs2.
  - unfold marked_lost. repeat case_decide; simpl; by rewrite Hn2.
  - unfold marked_lost. repeat case_decide; simpl; by rewrite Hq2.
  - rewrite active_marked_lost by done. rewrite Ha2.
    change (active_connections w1) with (active_connections w). rewrite Ha.
    rewrite filter_app, filter_cons_False by (intros H; by apply H).
    rewrite !filter_all; [done| |].
    + apply Forall_forall. intros x Hx ->.
      by apply NoDup_cons in Hndr as [? _].
    + apply Forall_forall. by intros x Hx ->.
  - done.
  - intros c' Hc'. rewrite Hheap. apply Hl2. intros Hin'.
    by apply (Hdisj c' Hin').
Qed.

(** ** STATUS_RES *)

Lemma split_join_fields (args : list bytes) :
  fields args -> args <> [] -> split NUL (join [NUL] args) = args.
Proof.
  intros Hf Hne.
  destruct (exists_last Hne) as (init & last & ->).
  apply Forall_app in Hf as [Hinit Hlast]. rewrite Forall_singleton in Hlast.
  by rewrite (split_join_last init last Hinit), (split_fields last Hlast).
Qed.

Lemma getArgument_fields (p : Packet.t) (args : list bytes) (i : nat) :
  fields args -> args <> [] ->
  Packet.data p = join [NUL] args ->
  Packet.getArgument p i false =
    match args !! i with
    | Some a => Ok a
    | None => Raise IndexError
    end.
Proof.
  intros Hf Hne Hd. unfold Packet.getArgument, index.
  by rewrite Hd, split_join_fields.
Qed.

(** X23: [handleStatusRes] on a payload of NUL-separated fields, the first
    of which is the handle of a job related to the connection, returns
    the job when at least four fields follow, and raises IndexError
    otherwise; in both cases the attributes whose fields were there have
    been assigned: [known] and [running] are true exactly for the field
    [b'1'], then come the numerator and the denominator. *)
Theorem handleStatusRes_outcome (c : nat) (packet : Packet.t) (handle : bytes)
    (values : list bytes) (w : World) (conn : Connection.t) (j : nat)
    (job : Job.t) :
  fields (handle :: values) ->
  Packet.data packet = join [NUL] (handle :: values) ->
  connections w !! c = Some conn ->
  Connection.related_jobs conn !! handle = Some j ->
  jobs w !! j = Some job ->
  handleStatusRes c packet w =
    (if decide (4 <= length values)%nat then Ok j else Raise IndexError,
     with_jobs (<[j := status_res values job]>) w).
Proof.
  intros Hf Hd Hc Hr Hj.
  assert (Hg : forall i, Packet.getArgument packet i false =
            match (handle :: values) !! i with
            | Some a => Ok a
            | None => Raise IndexError
            end).
  { intros i. by apply getArgument_fields. }
  assert (Hins : forall f, alter f j (jobs w) = <[j := f job]> (jobs w)).
  { intros f. by apply alter_as_insert. }
  unfold handleStatusRes, Packet_getJob. munfold.
  rewrite !Hg. cbn [lookup list_lookup]. munfold. rewrite Hc. munfold.
  rewrite Hr. munfold.
  destruct values as [|known [|running [|numerator [|denominator rest]]]];
    cbn [lookup list_lookup status_res length]; munfold;
    destruct w as [ro ci ru cs ac ina idx jo ta ad op wi fu wa jq];
    unfold with_jobs, with_status_res, with_status; simpl in *;
    rewrite ?Hins, ?alter_insert_eq, ?insert_id by done; done.
Qed.

(** ** The packets that an instance ignores *)

Ltac skip_branch Hn :=
  match goal with
  | |- context [Z.eqb ?a ?b] =>
      destruct (Z.eqb_spec a b) as [He|_];
      [first [done
             |exfalso; apply Hn; rewrite He; clear;
              repeat first [by left | right]]
      |]
  end.

(** X24: [handlePacket] changes nothing and returns when the type of the
    packet is none of those that the class of the instance handles: a
    client ignores JOB_ASSIGN, JOB_ASSIGN_UNIQ, NO_JOB and NOOP, a worker
    ignores JOB_CREATED, the WORK packets, STATUS_RES and OPTION_RES, both
    ignore the requests meant for a server, and an unknown type is
    dropped. *)
Theorem handlePacket_ignores (P : protocol.t) (c : nat) (packet : Packet.t)
    (w : World) :
  Packet.ptype packet ∉ handled_types P (role w) ->
  handlePacket P c packet w = (Ok tt, w).
Proof.
  intros Hn. unfold handlePacket, _defaultPacketHandler. munfold. cbv zeta.
  destruct (role w); cbn [handled_types] in Hn; munfold;
    repeat skip_branch Hn; done.
Qed.

(** ** The poll loop *)

Lemma readPacket_keeps (self : nat) (w w' : World) (conn : Connection.t)
    (r : result (option (Packet.t + nat))) :
  connections w !! self = Some conn ->
  Connection_readPacket self w = (r, w') ->
  role w' = role w /\ jobs w' = jobs w /\ pool w' = pool w /\
  exists conn',
    connections w' !! self = Some conn' /\
    Connection.related_jobs conn' = Connection.related_jobs conn /\
    Connection.pending_tasks conn' = Connection.pending_tasks conn /\
    Connection.state conn' = Connection.state conn.
Proof.
  intros Hc. unfold Connection_readPacket. rewrite Hc.
  destruct (match Connection.conn conn with
            | Some sock => (RetryIOError, Socket.incoming sock)
            | None => (AttributeError, [])
            end) as [stall segs].
  destruct (RP.run stall segs _) as [[e s] segs'].
  intros H.
  assert (Hw : w' = with_admins (fun _ => RP.admins s)
                 (with_connections
                    (<[self := Connection.with_input_buffer (fun _ => RP.raw_bytes s)
                        (Connection.with_need_bytes (fun _ => RP.need_bytes s)
                           (Connection.with_admin_requests
                              (fun _ => RP.admin_requests s)
                              (Connection.with_conn
                                 (fmap (Socket.with_incoming (fun _ => segs')))
                                 conn)))]>) w)).
  { by destruct e; injection H as _ <-. }
  rewrite Hw. repeat split; try done.
  eexists. split; [apply lookup_insert_eq|]. done.
Qed.

Lemma handlePacket_report (P : protocol.t) (k : report) (c : nat)
    (packet : Packet.t) (w : World) :
  role w = ClientRole -> NoDup (report_types P) ->
  Packet.ptype packet = report_type P k ->
  handlePacket P c packet w =
    match report_handler k c packet w with
    | (Ok _, w') => (Ok tt, w')
    | (Raise e, w') => (Raise e, w')
    end.
Proof.
  intros Hr Hnd Ht. unfold handlePacket. munfold. cbv zeta. rewrite Hr, Ht.
  unfold report_types in Hnd.
  repeat (apply NoDup_cons in Hnd as [? Hnd]).
  rewrite ?not_elem_of_cons in *. destruct_and?.
  destruct k; cbn [report_type report_handler];
    repeat match goal with
    | |- context [Z.eqb ?a ?a] => rewrite (Z.eqb_refl a)
    | |- context [Z.eqb ?a ?b] =>
        destruct (Z.eqb_spec a b) as [He|_]; [congruence|]
    end; munfold;
    match goal with
    | |- context [?h c packet w] => destruct (h c packet w) as [[?|?] ?]
    end; done.
Qed.

Lemma decoding_related (w : World) (c : nat) (f : gmap bytes nat -> gmap bytes nat)
    (g : gmap nat Job.t -> gmap nat Job.t) (stream : bytes) :
  decoding w c stream ->
  decoding (with_connections (alter (Connection.with_related_jobs f) c)
              (with_jobs g w)) c stream /\
  decoding (with_jobs g w) c stream.
Proof.
  intros (conn & sock & Hc & Hs & Hn & Hpre & Hne). split.
  - exists (Connection.with_related_jobs f conn), sock. simpl.
    by rewrite lookup_alter_eq, Hc.
  - by exists conn, sock.
Qed.

(** X25: when the bytes of one WORK_DATA, WORK_WARNING, WORK_COMPLETE,
    WORK_EXCEPTION or WORK_FAIL packet about a job of the client are in
    the buffer and the socket of a connection, in any segments, the poll
    loop reads the packet, dispatches it to the handler of its type and
    goes back to polling: the job is updated as the report says, the
    related jobs of the connection as well, the pool is unchanged and
    nothing is left to read. The packet types up to WORK_WARNING are
    taken to be distinct. *)
Theorem _pollLoop_delivers_report (P : protocol.t) (k : report) (fuel c : nat)
    (w : World) (conn : Connection.t) (packet : Packet.t) (e handle data : bytes)
    (j : nat) (job : Job.t) :
  role w = ClientRole -> NoDup (report_types P) ->
  wire_packet packet -> Packet.ptype packet = report_type P k ->
  Packet.data packet = report_payload k handle data -> NUL ∉ handle ->
  Packet.toBinary packet = Some e -> decoding w c e ->
  connections w !! c = Some conn ->
  Connection.related_jobs conn !! handle = Some j ->
  jobs w !! j = Some job -> Job.handle job = Some handle ->
  exists w',
    _pollLoop_input P (S fuel) c w = (Ok false, w') /\
    jobs w' !! j = Some (reported k data job) /\
    (Connection.related_jobs <$> connections w' !! c) =
      Some (if report_ends k then delete handle (Connection.related_jobs conn)
            else Connection.related_jobs conn) /\
    pool w' = pool w /\
    decoding w' c [].
Proof.
  intros Hr Hnd Hw Ht Hd Hh He Hdec Hc Hrel Hj Hjh.
  rewrite <- (app_nil_r e) in Hdec.
  destruct (readPacket_binary w c packet e [] Hw He Hdec) as (w1 & Hread & Hdec1).
  destruct (readPacket_keeps c w w1 conn _ Hc Hread)
    as (Hr1 & Hj1 & Hp1 & conn1 & Hc1 & Hrel1 & _).
  assert (Hh1 : report_handler k c packet w1 =
            (Ok j,
             (if report_ends k
              then with_connections
                     (alter (Connection.with_related_jobs (delete handle)) c)
              else id) (with_jobs (<[j := reported k data job]>) w1))).
  { apply (report_handler_spec k c packet handle data w1 conn1 j job);
      try done; by rewrite ?Hrel1, ?Hj1. }
  set (w2 := (if report_ends k
              then with_connections
                     (alter (Connection.with_related_jobs (delete handle)) c)
              else id) (with_jobs (<[j := reported k data job]>) w1)) in *.
  assert (Hdec2 : decoding w2 c []).
  { destruct (decoding_related w1 c (delete handle)
                (<[j := reported k data job]>) [] Hdec1) as [H1 H2].
    unfold w2. by destruct (report_ends k). }
  destruct (decoding_nil w2 c Hdec2) as (conn2 & sock2 & Hc2 & Hs2 & Hb2 & Hi2).
  exists w2. split; [|split; [|split; [|split]]].
  - cbn [_pollLoop_input]. munfold. rewrite Hread. munfold.
    rewrite (handlePacket_report P k c packet w1) by (by rewrite ?Hr1).
    rewrite Hh1. unfold Connection_hasPendingData. munfold.
    rewrite Hc2. munfold. by rewrite Hb2.
  - unfold w2. destruct (report_ends k); simpl; by rewrite lookup_insert_eq.
  - unfold w2. destruct (report_ends k); simpl;
      rewrite ?lookup_alter_eq, Hc1; simpl; by rewrite Hrel1.
  - rewrite <- Hp1. unfold w2. by destruct (report_ends k).
  - done.
Qed.

(** X26: on an error event, and on input that turns out to be the end of
    the stream, the poll loop marks the connection lost and returns: the
    connection is off the active list and on the inactive one, its object
    keeps its buffer, its related jobs and its socket, and no job has
    changed. *)
Theorem _pollLoop_loses_connection (P : protocol.t) (fuel c : nat) (w : World)
    (conn : Connection.t) :
  connections w !! c = Some conn -> can_lose w conn ->
  NoDup (active_connections w) ->
  (exists w',
     _pollLoop_error c w = (Ok true, w') /\
     (c ∉ active_connections w') /\ (c ∈ inactive_connections w') /\
     jobs w' = jobs w /\ connections w' = connections w) /\
  (forall sock segs,
     Connection.conn conn = Some sock -> Socket.incoming sock = [] :: segs ->
     Connection.input_buffer conn = [] \/ Connection.need_bytes conn = true ->
     exists w',
       _pollLoop_input P (S fuel) c w = (Ok true, w') /\
       (c ∉ active_connections w') /\ (c ∈ inactive_connections w') /\
       jobs w' = jobs w /\
       connections w' =
         <[c := Connection.with_conn
                  (fmap (Socket.with_incoming (fun _ => segs))) conn]>
           (connections w)).
Proof.
  intros Hc Hlose Hnd. split.
  - destruct (marked_lost_pool c w Hnd) as [Hout Hin].
    destruct (marked_lost_heaps c w) as (Hheap & Hjobs & _).
    exists (marked_lost c w). split; [|done].
    unfold _pollLoop_error. munfold.
    by rewrite (_lostConnection_marks c conn w Hc Hlose).
  - intros sock segs Hs Hi Hb.
    set (conn1 := Connection.with_conn
                    (fmap (Socket.with_incoming (fun _ => segs))) conn).
    set (w1 := with_connections (<[c := conn1]>) w).
    assert (Hread : Connection_readPacket c w = (Ok None, w1)).
    { unfold Connection_readPacket. rewrite Hc, Hs, Hi. unfold RP.run.
      assert (Hrun : negb (truthy (Connection.input_buffer conn))
                     || Connection.need_bytes conn = true).
      { destruct Hb as [-> | ->]; [done|]. by rewrite orb_true_r. }
      cbn [RP.raw_bytes RP.need_bytes]. rewrite Hrun.
      cbn [RP.loop truthy]. cbv beta iota. simpl. f_equal. }
    assert (Hc1 : connections w1 !! c = Some conn1).
    { unfold w1. simpl. apply lookup_insert_eq. }
    assert (Hlose1 : can_lose w1 conn1).
    { destruct Hlose as [?|?]; [by left|by right]. }
    destruct (marked_lost_pool c w1 Hnd) as [Hout Hin].
    destruct (marked_lost_heaps c w1) as (Hheap & Hjobs & _).
    exists (marked_lost c w1). split; [|done].
    cbn [_pollLoop_input]. munfold. rewrite Hread. munfold.
    by rewrite (_lostConnection_marks c conn1 w1 Hc1 Hlose1).
Qed.

(** ** [shutdown] *)

Lemma lookup_alter_all {A} (f : A -> A) (l : list nat) (m : gmap nat A) (c : nat) :
  (forall x, f (f x) = f x) ->
  foldl (fun m c => alter f c m) m l !! c =
    (if decide (c ∈ l) then f else id) <$> m !! c.
Proof.
  intros Hf. revert m. induction l as [|x l IH]; intros m; cbn [foldl].
  - rewrite decide_False by apply not_elem_of_nil. by destruct (m !! c).
  - rewrite IH. destruct (decide (x = c)) as [->|Hne].
    + rewrite lookup_alter_eq. rewrite (decide_True (P := c ∈ c :: l)) by by left.
      destruct (m !! c) as [a|]; [|by destruct (decide (c ∈ l))].
      simpl. destruct (decide (c ∈ l)); [|done]. by rewrite Hf.
    + rewrite lookup_alter_ne by done.
      destruct (decide (c ∈ l)) as [Hin|Hnin].
      * rewrite decide_True by by right. done.
      * rewrite decide_False; [done|].
        intros [?|?]%elem_of_cons; [congruence|done].
Qed.

Lemma Connection_disconnect_alter (c : nat) (conn : Connection.t) (w : World) :
  connections w !! c = Some conn ->
  Connection_disconnect c w = (Ok tt, with_connections (alter disconnected c) w).
Proof.
  intros Hc. unfold Connection_disconnect, Connection__init, Connection_changeState.
  munfold. rewrite Hc. munfold.
  destruct w as [ro ci ru cs ac ina idx jo ta ad op wi fu wa jq].
  unfold with_connections. simpl in *. do 2 f_equal.
  apply map_eq. intros i. destruct (decide (i = c)) as [->|Hne].
  - by rewrite !lookup_alter_eq, Hc.
  - by rewrite !lookup_alter_ne.
Qed.

Lemma disconnect_all (l : list nat) :
  forall w, (forall c, c ∈ l -> is_Some (connections w !! c)) ->
    for_each l Connection_disconnect w =
      (Ok tt,
       with_connections (fun m => foldl (fun m c => alter disconnected c m) m l) w).
Proof.
  induction l as [|c l IH]; intros w Hl.
  - simpl. by destruct w.
  - destruct (Hl c) as [conn Hc]; [by left|].
    rewrite (for_each_cons_ok _ c l w _ (Connection_disconnect_alter c conn w Hc)).
    rewrite IH.
    + by destruct w.
    + intros c' Hc'. simpl. destruct (decide (c' = c)) as [->|Hne].
      * by rewrite lookup_alter_eq, Hc.
      * rewrite lookup_alter_ne by done. apply Hl. by right.
Qed.

Lemma _cleanup_outcome (w : World) :
  (forall c, c ∈ active_connections w -> is_Some (connections w !! c)) ->
  exists w',
    _cleanup w = (Ok tt, w') /\
    w' = with_inactive_connections (fun _ => [])
           (with_active_connections (fun _ => [])
              (with_connections (fun _ => connections w') w)) /\
    forall c,
      connections w' !! c =
        (if decide (c ∈ active_connections w) then disconnected else id)
          <$> connections w !! c.
Proof.
  intros Hl. unfold _cleanup. munfold. rewrite (disconnect_all _ w Hl).
  eexists. split; [done|]. split; [by destruct w|].
  intros c. simpl. by apply lookup_alter_all.
Qed.

Lemma given_up_jobs (f : nat -> bool) (l : list nat) (w : World) :
  jobs (foldl (given_up f) w l) = jobs w.
Proof.
  revert w. induction l as [|c l IH]; intros w; [done|].
  cbn [foldl]. rewrite IH. unfold given_up. destruct (f c); [|done].
  by destruct (marked_lost_heaps c w) as (_ & ? & _).
Qed.

Lemma shutdown_again (P : protocol.t) (fuel : nat) (clock : list (nat -> bool))
    (durings : list Interleaving) (w : World) :
  running w = false ->
  shutdown P fuel clock durings w = (Ok tt, w) /\
  getJob P durings w = (Raise InterruptedError, w).
Proof.
  intros Hr. unfold shutdown, getJob. munfold. by rewrite Hr.
Qed.

(** X20: [shutdown] on a running instance (for a worker, with every
    active connection in GRAB_WAIT overdue) returns with [running]
    cleared and both lists of the pool empty. The connections it
    disconnects, which are the active ones that the worker has not given
    up, are reset as by [_init]; every other connection object, the
    inactive ones included, is left as it was, and so is every job. A
    worker has woken its waiting threads. Any later [shutdown] does
    nothing, and any later [getJob] raises InterruptedError. *)
Theorem shutdown_outcome (P : protocol.t) (fuel : nat)
    (clock : list (nat -> bool)) (durings : list Interleaving) (w : World) :
  running w = true ->
  (forall c, c ∈ active_connections w -> is_Some (connections w !! c)) ->
  (role w = WorkerRole ->
   NoDup (active_connections w) /\ 0 <= waiting_for_jobs w /\
   forall c conn, c ∈ active_connections w -> connections w !! c = Some conn ->
     Connection.state conn = "GRAB_WAIT" ->
     hd (fun _ => false) clock c = true /\ Connection.related_jobs conn = ∅) ->
  exists w',
    shutdown P (S fuel) clock durings w = (Ok tt, w') /\
    stopped w' /\
    jobs w' = jobs w /\
    (forall c,
       connections w' !! c =
         (if decide (c ∈ closed_by_shutdown w) then disconnected else id)
           <$> connections w !! c) /\
    (role w = WorkerRole ->
     waiting_for_jobs w' = 0 /\
     job_queue w' =
       job_queue w ++ replicate (Z.to_nat (waiting_for_jobs w)) None) /\
    forall fuel' clock' durings',
      shutdown P fuel' clock' durings' w' = (Ok tt, w') /\
      getJob P durings' w' = (Raise InterruptedError, w').
Proof.
  intros Hr Hex Hworker.
  set (w0 := with_running (fun _ => false) w).
  destruct (role w) eqn:Hrole.
  - destruct (_cleanup_outcome w0 Hex) as (w' & Hcl & Hw' & Hl').
    assert (Hst : stopped w').
    { rewrite Hw'. done. }
    exists w'. split; [|split; [done|split; [|split; [|split]]]].
    + unfold shutdown, BaseClientServer__shutdown. munfold.
      rewrite Hr, Hrole. munfold. fold w0. by rewrite Hcl.
    + by rewrite Hw'.
    + intros c. rewrite Hl'. unfold closed_by_shutdown. by rewrite Hrole.
    + done.
    + intros. apply shutdown_again. by destruct Hst.
  - destruct (Hworker eq_refl) as (Hnd & Hn & Hgw).
    set (f := has_state w0 "GRAB_WAIT").
    set (w1 := foldl (given_up f) w0 (active_connections w0)).
    destruct (given_up_fields f (active_connections w0) w0)
      as (Hc1 & Hro1 & Hr1 & Hn1 & Hq1). fold w1 in Hc1, Hro1, Hr1, Hn1, Hq1.
    assert (Ha1 : active_connections w1 = closed_by_shutdown w).
    { unfold w1. rewrite given_up_active by done.
      unfold closed_by_shutdown. rewrite Hrole. apply filter_iff_in.
      intros x Hx. change (has_state w "GRAB_WAIT" x) with (f x). split.
      - intros H. destruct (f x) eqn:Hf; [|done]. exfalso. by apply H.
      - intros Hf [_ Ht]. congruence. }
    assert (Hsub : active_connections w1 ⊆ active_connections w0).
    { rewrite Ha1. unfold closed_by_shutdown. rewrite Hrole. intros x Hx.
      by apply list_elem_of_filter in Hx as [_ ?]. }
    set (w2 := foldl (visited []) (interrupted w1) (active_connections w1)).
    assert (H2 : stopWaitingForJobs P (S fuel) clock durings w0 = (Ok tt, w2)).
    { apply stopWaitingForJobs_fold; [done| |done].
      intros c Hc. destruct (Hex c Hc) as [conn Hl]. exists conn.
      split; [done|]. intros Hs. destruct (Hgw c conn Hc Hl Hs) as [? ?].
      split; [done|]. by right. }
    destruct (visited_fold_fields [] (active_connections w1) (interrupted w1))
      as (Hr2 & Ha2 & Hi2 & Hn2 & Hq2). fold w2 in Hr2, Ha2, Hi2, Hn2, Hq2.
    assert (Hl2 : forall c, connections w2 !! c =
              (if decide (c ∈ closed_by_shutdown w)
               then Connection.with_state (fun _ => "IDLE") else id)
                <$> connections w !! c).
    { intros c. unfold w2. rewrite visited_fold_lookup.
      change (active_connections (interrupted w1)) with (active_connections w1).
      change (connections (interrupted w1)) with (connections w1).
      rewrite Hc1, Ha1. change (waiting_for_jobs (interrupted w1)) with 0.
      change (connections w0) with (connections w).
      destruct (decide (c ∈ closed_by_shutdown w)); [|done].
      destruct (connections w !! c) as [conn|]; [|done]. simpl.
      by rewrite idle_updated. }
    assert (Hex2 : forall c, c ∈ active_connections w2 ->
              is_Some (connections w2 !! c)).
    { intros c Hc. rewrite Ha2 in Hc.
      change (active_connections (interrupted w1))
        with (active_connections w1) in Hc.
      destruct (Hex c (Hsub c Hc)) as [conn Hl]. rewrite Hl2, Hl.
      by destruct (decide (c ∈ closed_by_shutdown w)). }
    destruct (_cleanup_outcome w2 Hex2) as (w' & Hcl & Hw' & Hl').
    assert (Hst : stopped w').
    { rewrite Hw'. split; [|done]. simpl. rewrite Hr2. simpl. by rewrite Hr1. }
    exists w'. split; [|split; [done|split; [|split; [|split]]]].
    + unfold shutdown, Worker__shutdown, BaseClientServer__shutdown. munfold.
      rewrite Hr, Hrole. munfold. fold w0. rewrite H2. by rewrite Hcl.
    + rewrite Hw'. simpl. unfold w2. rewrite visited_fold_frame. simpl.
      unfold w1. by rewrite given_up_jobs.
    + intros c. rewrite Hl', Hl2, Ha2.
      change (active_connections (interrupted w1)) with (active_connections w1).
      rewrite Ha1. destruct (decide (c ∈ closed_by_shutdown w));
        by destruct (connections w !! c).
    + intros _. rewrite Hw'. simpl. rewrite Hn2, Hq2. simpl.
      by rewrite Hq1, Hn1.
    + intros. apply shutdown_again. by destruct Hst.
Qed.

(** ** The functions of a worker *)

Lemma Packet_init_REQ (ptype : Z) (data : bytes) :
  Packet.init constants.REQ ptype data = Ok (Packet.mk constants.REQ ptype data).
Proof. done. Qed.

Lemma for_each_handleDisconnect_world (l : list nat) (w : World) :
  (for_each l handleDisconnect w).2 = w.
Proof.
  induction l as [|j l IH]; [done|].
  cbn [for_each]. unfold mbind, M_bind, bind.
  assert (Hj : handleDisconnect j w =
               (match role w with ClientRole => Ok tt | _ => Raise AttributeError end, w)).
  { unfold handleDisconnect. munfold. by destruct (role w). }
  rewrite Hj. destruct (role w); [apply IH|done].
Qed.

Lemma sendPacket_settings (p : Packet.t) (c : nat) (w : World) :
  settings (sendPacket p c w).2 = settings w.
Proof.
  assert (Hlost : settings (_lostConnection c w).2 = settings w).
  { unfold _lostConnection. munfold.
    destruct (connections w !! c) as [conn|]; [|done]. munfold.
    match goal with
    | |- context [for_each ?l handleDisconnect ?w'] =>
        pose proof (for_each_handleDisconnect_world l w') as Hw;
        destruct (for_each l handleDisconnect w') as [[[]|?] ?]
    end; simpl in Hw; subst; simpl; repeat case_decide; by destruct w. }
  unfold sendPacket, Connection_sendPacket, Connection_sendRaw. munfold.
  destruct (_lostConnection c w) as [[[]|?] w'] eqn:Hl; simpl in Hlost;
    destruct (Packet.toBinary p); munfold;
    destruct (connections w !! c) as [conn|]; munfold; rewrite ?Hl; try done;
    destruct (Connection.conn conn) as [sock|]; munfold; rewrite ?Hl; try done;
    destruct (Socket.broken sock); munfold; rewrite ?Hl; try done;
    by destruct w.
Qed.

Lemma broadcast_settings (p : Packet.t) (w : World) :
  (broadcast p w).1 = Ok tt /\ settings (broadcast p w).2 = settings w.
Proof.
  unfold broadcast. munfold.
  generalize (active_connections w) at 1 2. intros l. revert w.
  induction l as [|c l IH]; intros w; [done|].
  cbn [for_each]. munfold.
  pose proof (sendPacket_settings p c w) as Hs.
  destruct (sendPacket p c w) as [[[]|e] w1]; simpl in Hs; rewrite <- Hs; apply IH.
Qed.

Lemma registerFunction_broadcast (P : protocol.t) (name : bytes)
    (timeout : option bytes) (w : World) :
  registerFunction P name timeout w =
    broadcast (can_do P (FunctionRecord.mk name timeout))
      (with_functions (<[name := FunctionRecord.mk name timeout]>) w).
Proof.
  unfold registerFunction, can_do, _sendCanDo, _sendCanDoTimeout. munfold.
  simpl. by destruct (truthy (default [] timeout)).
Qed.

Lemma unRegisterFunction_known (P : protocol.t) (name : bytes) (w : World) :
  is_Some (functions w !! name) ->
  unRegisterFunction P name w =
    broadcast (cant_do P name) (with_functions (delete name) w).
Proof.
  intros Hf. unfold unRegisterFunction, _sendCantDo. munfold.
  rewrite decide_True by done. munfold. by rewrite Packet_init_REQ.
Qed.

(** X21: [registerFunction] never raises, whatever happens to the sends,
    and stores the record under the name; [unRegisterFunction] of that
    name then returns and leaves the table without the name.
    [unRegisterFunction] of a name that is not registered raises KeyError
    and changes nothing. Every active connection whose socket takes the
    send has got the announcement: CAN_DO_TIMEOUT with the name, NUL and
    the timeout when the timeout is not empty, CAN_DO with the name
    otherwise. *)
Theorem registerFunction_unRegisterFunction (P : protocol.t) (name : bytes)
    (timeout : option bytes) (w : World) :
  let f := FunctionRecord.mk name timeout in
  let w1 := (registerFunction P name timeout w).2 in
  let w2 := (unRegisterFunction P name w1).2 in
  (registerFunction P name timeout w).1 = Ok tt /\
  functions w1 = <[name := f]> (functions w) /\
  (unRegisterFunction P name w1).1 = Ok tt /\
  functions w2 = delete name (functions w) /\
  (functions w !! name = None ->
   unRegisterFunction P name w = (Raise KeyError, w)) /\
  (forall bs c,
     Packet.toBinary (can_do P f) = Some bs ->
     losable w (active_connections w) -> NoDup (active_connections w) ->
     c ∈ active_connections w -> can_send w c = true ->
     connections w1 !! c = with_sent bs <$> connections w !! c).
Proof.
  intros f w1 w2.
  assert (Hf1 : functions w1 = <[name := f]> (functions w)).
  { unfold w1. rewrite registerFunction_broadcast.
    destruct (broadcast_settings (can_do P f) (with_functions (<[name := f]>) w))
      as [_ Hs]. by injection Hs. }
  assert (Hk : is_Some (functions w1 !! name)).
  { rewrite Hf1, lookup_insert_eq. eauto. }
  split; [|split; [done|split; [|split; [|split]]]].
  - rewrite registerFunction_broadcast. apply broadcast_settings.
  - rewrite (unRegisterFunction_known P name w1 Hk). apply broadcast_settings.
  - unfold w2. rewrite (unRegisterFunction_known P name w1 Hk).
    destruct (broadcast_settings (cant_do P name) (with_functions (delete name) w1))
      as [_ Hs]. injection Hs as _ _ _ _ -> _ _. simpl.
    by rewrite Hf1, delete_insert_eq.
  - intros Hn. unfold unRegisterFunction. munfold.
    rewrite decide_False; [done|]. rewrite Hn. by intros [? ?].
  - intros bs c Hbs Hl Hnd Hc Hs. unfold w1.
    rewrite registerFunction_broadcast.
    rewrite (broadcast_fold _ bs _ Hbs) by done. simpl.
    rewrite connections_fold by done.
    rewrite bool_decide_eq_true_2 by done.
    assert (Hs' : can_send (with_functions (<[name := f]>) w) c = true) by done.
    unfold f in Hs'. by rewrite Hs'.
Qed.

(** ** [setFunctions] *)

Lemma dict_setitem_insert {V} (k : bytes) (v : V) (d : list (bytes * V)) :
  (list_to_map (dict_setitem k v d) : gmap bytes V) = <[k := v]> (list_to_map d).
Proof.
  induction d as [|[k' v'] d IH]; [done|].
  simpl. case_decide as Hk.
  - subst. simpl. by rewrite insert_insert_eq.
  - simpl. rewrite IH. by apply insert_insert_ne.
Qed.

Lemma dict_last_wins (fs : list FunctionRecord.t) (k : bytes) :
  (list_to_map (foldl (fun d f => dict_setitem (FunctionRecord.name f) f d) [] fs)
     : gmap bytes FunctionRecord.t) !! k =
    last (filter (fun f => FunctionRecord.name f = k) fs).
Proof.
  induction fs as [|f fs IH] using rev_ind; [done|].
  rewrite foldl_app. cbn [foldl]. rewrite dict_setitem_insert, filter_app.
  destruct (decide (FunctionRecord.name f = k)) as [<-|Hne].
  - rewrite lookup_insert_eq. rewrite filter_cons_True by done.
    by rewrite filter_nil, last_snoc.
  - rewrite lookup_insert_ne by done. rewrite filter_cons_False by done.
    by rewrite filter_nil, app_nil_r.
Qed.

Lemma losable_fold (bs : bytes) (l l0 : list nat) (w : World) :
  losable w l0 -> losable (foldl (broadcast_step bs) w l) l0.
Proof.
  revert w. induction l as [|c l IH]; intros w Hl; [done|].
  cbn [foldl]. apply IH. by apply losable_step.
Qed.

Lemma broadcast_reaches (p : Packet.t) (bs : bytes) (w : World) (c : nat) :
  Packet.toBinary p = Some bs -> reaches w c ->
  exists w',
    broadcast p w = (Ok tt, w') /\ reaches w' c /\
    connections w' !! c = with_sent bs <$> connections w !! c.
Proof.
  intros Hbs (Hl & Hnd & Hc & Hs).
  exists (foldl (broadcast_step bs) w (active_connections w)).
  split; [by apply broadcast_fold|]. split; [|].
  - assert (Ha := active_fold bs (active_connections w) w Hnd).
    split; [|split; [|split]].
    + intros x Hx. rewrite Ha in Hx.
      apply list_elem_of_filter in Hx as [_ Hx].
      by apply (losable_fold bs _ _ w Hl x).
    + rewrite Ha. by apply NoDup_filter.
    + rewrite Ha. apply list_elem_of_filter. split; [|done].
      intros [_ Hf]. congruence.
    + by rewrite can_send_fold.
  - rewrite connections_fold by done. by rewrite bool_decide_eq_true_2, Hs.
Qed.

Lemma broadcast_each (ps : list Packet.t) (c : nat) :
  Forall (fun p => is_Some (Packet.toBinary p)) ps ->
  forall w, reaches w c ->
    exists w',
      for_each ps broadcast w = (Ok tt, w') /\ reaches w' c /\
      settings w' = settings w /\
      connections w' !! c = with_all_sent ps <$> connections w !! c.
Proof.
  induction 1 as [|p ps [bs Hbs] _ IH]; intros w Hw.
  - exists w. split; [done|]. split; [done|]. split; [done|].
    by destruct (connections w !! c).
  - destruct (broadcast_reaches p bs w c Hbs Hw) as (w1 & Hb & Hw1 & Hc1).
    destruct (IH w1 Hw1) as (w2 & Hf & Hw2 & Hs2 & Hc2).
    exists w2. split; [|split; [done|split]].
    + by rewrite (for_each_cons_ok _ p ps w w1 Hb).
    + rewrite Hs2. destruct (broadcast_settings p w) as [_ Hs].
      by rewrite Hb in Hs.
    + rewrite Hc2, Hc1. destruct (connections w !! c) as [conn|]; [|done].
      simpl. unfold with_all_sent. simpl. by rewrite Hbs.
Qed.

Lemma for_each_fmap {A B} (f : A -> B) (body : B -> M World unit) (l : list A)
    (w : World) :
  for_each (f <$> l) body w = for_each l (fun x => body (f x)) w.
Proof.
  revert w. induction l as [|x l IH]; intros w; [done|].
  simpl. munfold. destruct (body (f x) w) as [[[]|e] w']; [apply IH|done].
Qed.

Lemma for_each_ext {A} (body body' : A -> M World unit) (l : list A) (w : World) :
  (forall x w, body x w = body' x w) ->
  for_each l body w = for_each l body' w.
Proof.
  intros Hb. revert w. induction l as [|x l IH]; intros w; [done|].
  simpl. munfold. rewrite Hb. destruct (body' x w) as [[[]|e] w']; [apply IH|done].
Qed.

Lemma setFunctions_broadcasts (P : protocol.t) (fs : list FunctionRecord.t)
    (w : World) :
  setFunctions P fs w =
    match broadcast (Packet.mk constants.REQ (protocol.RESET_ABILITIES P) []) w with
    | (Ok _, w1) =>
        for_each (can_do P <$> announced fs) broadcast
          (with_functions
             (fun _ => list_to_map
                (foldl (fun d f => dict_setitem (FunctionRecord.name f) f d) [] fs))
             w1)
    | (Raise e, w1) => (Raise e, w1)
    end.
Proof.
  unfold setFunctions, _sendResetAbilities. munfold. rewrite Packet_init_REQ.
  destruct (broadcast _ w) as [[[]|e] w1]; [|done].
  rewrite (for_each_fmap (can_do P)). apply for_each_ext. intros f w'.
  unfold can_do, _sendCanDo, _sendCanDoTimeout. munfold.
  destruct (truthy (default [] (FunctionRecord.timeout f))); by rewrite Packet_init_REQ.
Qed.

Lemma for_each_broadcast_settings (ps : list Packet.t) (w : World) :
  (for_each ps broadcast w).1 = Ok tt /\
  settings (for_each ps broadcast w).2 = settings w.
Proof.
  revert w. induction ps as [|p ps IH]; intros w; [done|].
  cbn [for_each]. munfold. destruct (broadcast_settings p w) as [Hr Hs].
  destruct (broadcast p w) as [[[]|e] w1]; [|done]. simpl in Hs.
  rewrite <- Hs. apply IH.
Qed.

(** X22: [setFunctions] never raises. Afterwards the table maps each name
    to the last record of the list with that name. A connection that
    takes every send has got, in this order, RESET_ABILITIES and one
    announcement for each name of the list, at the place where the name
    first occurs and with the content of the last record of that name;
    it is still active. *)
Theorem setFunctions_outcome (P : protocol.t) (fs : list FunctionRecord.t)
    (w : World) :
  let w' := (setFunctions P fs w).2 in
  (setFunctions P fs w).1 = Ok tt /\
  (forall name,
     functions w' !! name = last (filter (fun f => FunctionRecord.name f = name) fs)) /\
  (forall c,
     Forall (fun p => is_Some (Packet.toBinary p)) (setFunctions_packets P fs) ->
     reaches w c ->
     reaches w' c /\
     connections w' !! c =
       with_all_sent (setFunctions_packets P fs) <$> connections w !! c).
Proof.
  intros w'. unfold w'. rewrite setFunctions_broadcasts.
  set (reset := Packet.mk constants.REQ (protocol.RESET_ABILITIES P) []).
  set (d := foldl (fun d f => dict_setitem (FunctionRecord.name f) f d) [] fs).
  destruct (broadcast_settings reset w) as [Hr0 Hs0].
  destruct (broadcast reset w) as [[[]|e] w1] eqn:Hb; [|done]. simpl in Hs0.
  set (w2 := with_functions (fun _ => list_to_map d) w1).
  destruct (for_each_broadcast_settings (can_do P <$> announced fs) w2) as [Hr Hs].
  split; [done|]. split.
  - intros name. injection Hs as _ _ _ _ -> _ _. simpl. apply dict_last_wins.
  - intros c Hps Hw. apply Forall_cons in Hps as [[bs Hbs] Hps].
    destruct (broadcast_reaches reset bs w c Hbs Hw) as (w1' & Hb' & Hw1 & Hc1).
    rewrite Hb in Hb'. injection Hb' as <-.
    destruct (broadcast_each _ c Hps w2 Hw1) as (w3 & Hf & Hw3 & _ & Hc3).
    rewrite Hf. simpl. split; [done|]. rewrite Hc3.
    change (connections w2) with (connections w1). rewrite Hc1.
    destruct (connections w !! c) as [conn|]; [|done]. simpl.
    unfold with_all_sent, setFunctions_packets. simpl.
    unfold reset in Hbs. by rewrite Hbs.
Qed.

(** ** Administrative responses in the poll loop *)

Lemma readPacket_admin_response (c a : nat) (w : World) (conn : Connection.t)
    (sock : Socket.t) (req req' : AdminRequest.t) (x : byte) (seg remainder : bytes)
    (segs : list bytes) (rest : list nat) :
  connections w !! c = Some conn ->
  Connection.conn conn = Some sock ->
  Socket.incoming sock = (x :: seg) :: segs -> x <> NUL ->
  Connection.input_buffer conn = [] ->
  Connection.admin_requests conn = a :: rest -> admins w !! a = Some req ->
  AdminRequest.isComplete req (x :: seg) = ((true, remainder), req') ->
  Connection_readPacket c w =
    (Ok (Some (inr a)),
     with_admins (<[a := req']>)
       (with_connections
          (<[c := Connection.with_admin_requests (fun _ => rest)
                    (reading remainder false segs conn)]>) w)).
Proof.
  intros Hc Hs Hi Hx Hb Hq Ha Hcomplete.
  unfold Connection_readPacket. rewrite Hc, Hs, Hi, Hb, Hq.
  unfold RP.run. cbn [RP.raw_bytes truthy negb orb]. cbv beta iota.
  cbn [RP.loop truthy]. cbv beta iota.
  change (RP.set_need false (RP.set_raw (RP.raw_bytes _ ++ x :: seg) _))
    with (RP.mk (x :: seg) false None None None (a :: rest) (admins w)).
  unfold RP.frame. cbn [RP.admin RP.raw_bytes RP.admin_requests].
  rewrite slice_first_byte. rewrite decide_False by congruence.
  cbn [RP.set_admin RP.admin RP.admin_request RP.admins RP.raw_bytes default].
  cbv beta iota. rewrite Ha, Hcomplete. simpl.
  done.
Qed.

(** X27: when a connection with an empty buffer receives a segment that
    does not start with NUL, and the oldest outstanding administrative
    request says that the segment is its complete response, the poll loop
    takes the request off the list of the connection, stores the response
    in it and sets it complete, and goes back to polling; the pool, the
    jobs and the tasks are unchanged. *)
Theorem _pollLoop_admin_response (P : protocol.t) (fuel c a : nat) (w : World)
    (conn : Connection.t) (sock : Socket.t) (req req' : AdminRequest.t)
    (x : byte) (seg : bytes) (segs : list bytes) (rest : list nat) :
  connections w !! c = Some conn ->
  Connection.conn conn = Some sock ->
  Socket.incoming sock = (x :: seg) :: segs -> x <> NUL ->
  Connection.input_buffer conn = [] ->
  Connection.admin_requests conn = a :: rest -> admins w !! a = Some req ->
  AdminRequest.isComplete req (x :: seg) = ((true, []), req') ->
  exists w',
    _pollLoop_input P (S fuel) c w = (Ok false, w') /\
    admins w' !! a = Some (AdminRequest.setComplete req') /\
    connections w' !! c =
      Some (Connection.with_admin_requests (fun _ => rest)
              (reading [] false segs conn)) /\
    pool w' = pool w /\ jobs w' = jobs w /\ tasks w' = tasks w.
Proof.
  intros Hc Hs Hi Hx Hb Hq Ha Hcomplete.
  eexists. split.
  - cbn [_pollLoop_input]. munfold.
    rewrite (readPacket_admin_response c a w conn sock req req' x seg [] segs rest)
      by done.
    munfold. unfold handleAdminRequest. munfold. simpl.
    rewrite lookup_insert_eq. munfold.
    unfold Connection_hasPendingData. munfold. simpl.
    rewrite lookup_insert_eq. munfold. simpl. done.
  - simpl. rewrite lookup_alter_eq, !lookup_insert_eq. done.
Qed.

(** ** Instances *)

Lemma sendPacket_failure_loses_connection_witness :
  (sendPacket (Packet.mk constants.REQ 16 (b "ping")) 0 demo_down).1
    = Raise SocketError /\
  0%nat ∈ inactive_connections
            (sendPacket (Packet.mk constants.REQ 16 (b "ping")) 0 demo_down).2.
Proof.
  destruct (sendPacket_failure_loses_connection demo_down 0 demo_broken
              (Packet.mk constants.REQ 16 (b "ping"))) as [_ H].
  - reflexivity.
  - left. reflexivity.
  - apply (bool_decide_unpack _). vm_compute. exact I.
  - destruct H as (_ & _ & Hi & He).
    + vm_compute. discriminate.
    + split; [exact He|exact Hi].
Defined.

Lemma demo_client_losable : losable demo_client (active_connections demo_client).
Proof.
  intros c Hc. apply list_elem_of_In in Hc. simpl in Hc.
  destruct Hc as [<-|[<-|[<-|[]]]]; eexists; (split; [reflexivity|left; reflexivity]).
Defined.

Lemma broadcast_outcome_witness :
  active_connections (broadcast (Packet.mk constants.REQ 16 (b "ping")) demo_client).2
    = [0%nat; 1%nat; 2%nat].
Proof.
  destruct (broadcast_outcome (Packet.mk constants.REQ 16 (b "ping"))
              (default [] (Packet.toBinary (Packet.mk constants.REQ 16 (b "ping"))))
              demo_client) as [_ H].
  destruct H as [Ha _].
  - reflexivity.
  - exact demo_client_losable.
  - apply (bool_decide_unpack _). vm_compute. exact I.
  - exact Ha.
Defined.

Lemma _lostConnection_pool_witness :
  exists w',
    _lostConnection 1 demo_client = (Ok tt, w') /\
    active_connections w' = [0%nat; 2%nat] /\ inactive_connections w' = [1%nat].
Proof.
  destruct (_lostConnection_pool 1 (demo_connection "INIT") demo_client)
    as (w' & Hl & _).
  - reflexivity.
  - left. reflexivity.
  - apply (bool_decide_unpack _). vm_compute. exact I.
  - apply (bool_decide_unpack _). vm_compute. exact I.
  - exists w'. split; [exact Hl|].
    assert (Hw : w' = (_lostConnection 1 demo_client).2) by (by rewrite Hl).
    rewrite Hw. vm_compute. split; reflexivity.
Defined.

Lemma getConnection_skips_lost_witness :
  exists w1,
    _lostConnection 0 demo_client = (Ok tt, w1) /\
    exists conn' w2, getConnection w1 = (Ok conn', w2) /\ conn' <> 0%nat.
Proof.
  destruct (getConnection_skips_lost 0 (demo_connection "INIT") demo_client)
    as (w1 & Hl & _ & Hg).
  - reflexivity.
  - left. reflexivity.
  - apply (bool_decide_unpack _). vm_compute. exact I.
  - vm_compute. discriminate.
  - exists w1. split; [exact Hl|].
    destruct Hg as (conn' & w2 & Hg & Hne & _).
    + assert (Hw : w1 = (_lostConnection 0 demo_client).2) by (by rewrite Hl).
      rewrite Hw. vm_compute. discriminate.
    + eauto.
Defined.

Lemma demo_down_unwritable : all_unwritable demo_down (active_connections demo_down).
Proof.
  intros c Hc. apply list_elem_of_In in Hc. simpl in Hc.
  destruct Hc as [<-|[<-|[]]]; (split; [eexists; reflexivity|reflexivity]).
Defined.

Lemma submitJob_without_server_witness :
  exists w',
    submitJob gearman 3 0 false PRECEDENCE_NORMAL [] demo_down =
      (Raise NoConnectedServersError, w') /\
    active_connections w' = [].
Proof.
  destruct (submitJob_without_server gearman 3 0 demo_job false PRECEDENCE_NORMAL []
              demo_down) as [_ H].
  - reflexivity.
  - left. reflexivity.
  - reflexivity.
  - apply (bool_decide_unpack _). vm_compute. exact I.
  - vm_compute. discriminate.
  - exact demo_down_unwritable.
  - simpl. lia.
  - destruct H as (w' & Hs & Ha & _); [discriminate|]. eauto.
Defined.

Lemma demo_job_packs (packet : Packet.t) :
  submitJob_packet gearman demo_job false PRECEDENCE_NORMAL = Ok packet ->
  is_Some (Packet.toBinary packet).
Proof. intros H. injection H as <-. vm_compute. eauto. Defined.

Lemma submitJob_accepted_witness :
  exists w',
    submitJob gearman 1 0 false PRECEDENCE_NORMAL
      [handles handleJobCreated 0 (Packet.mk constants.RES 8 (b "H:1"))] demo_client
      = (Ok tt, w') /\
    jobs w' !! 0%nat = Some (accepted 0 (b "H:1") demo_job).
Proof.
  destruct (submitJob_accepted gearman 0 0 demo_job false PRECEDENCE_NORMAL []
              demo_client (set_connection_index 0 demo_client) 0
              (demo_connection "INIT") (Packet.mk constants.RES 8 (b "H:1")))
    as (w' & c' & packet & bs & Hs & _ & _ & Hj & _).
  - reflexivity.
  - left. reflexivity.
  - vm_compute. discriminate.
  - reflexivity.
  - split; [reflexivity|]. eexists. split; reflexivity.
  - reflexivity.
  - exact demo_job_packs.
  - discriminate.
  - eauto.
Defined.

Lemma handleError_outcome_witness :
  handleError 0 (Packet.mk constants.RES 19 (b "E" ++ [NUL] ++ b "no")) demo_single
    = (Ok tt, marked_lost 0 demo_single).
Proof.
  refine (handleError_outcome 0 (Packet.mk constants.RES 19 (b "E" ++ [NUL] ++ b "no"))
            demo_single (demo_connection "INIT") _ _ _).
  - reflexivity.
  - left. reflexivity.
  - intros task Ht. simpl in Ht. by apply elem_of_nil in Ht.
Defined.

Lemma submitJob_refused_witness :
  exists w',
    submitJob gearman 2 0 false PRECEDENCE_NORMAL
      [handles handleError 0 (Packet.mk constants.RES 19 (b "E" ++ [NUL] ++ b "no"))]
      demo_single = (Raise GearmanError, w') /\
    pool w' = pool demo_single.
Proof.
  destruct (submitJob_refused gearman 0 0 demo_job false PRECEDENCE_NORMAL []
              demo_single 0 (demo_connection "INIT")
              (Packet.mk constants.RES 19 (b "E" ++ [NUL] ++ b "no")) (b "E") (b "no"))
    as (w' & c' & Hs & Hp & _).
  - reflexivity.
  - reflexivity.
  - left. reflexivity.
  - vm_compute. discriminate.
  - reflexivity.
  - split; [reflexivity|]. eexists. split; reflexivity.
  - reflexivity.
  - exact demo_job_packs.
  - reflexivity.
  - reflexivity.
  - eauto.
Defined.

Lemma readPacket_negative_length_witness :
  Connection_readPacket 0 demo_wedged =
    (Ok (Some (inl (Packet.mk constants.RES 6 []))), demo_wedged) /\
  readPackets 1000 0 demo_wedged = (Raise OutOfFuel, demo_wedged).
Proof.
  destruct (readPacket_negative_length demo_wedged 0
              (Connection.mk (Some demo_socket) true demo_negative_header false
                 ∅ [] [] ∅ ∅ "SLEEP")
              constants.RES 6 12 demo_negative_header []) as [_ H].
  - reflexivity.
  - reflexivity.
  - reflexivity.
  - reflexivity.
  - reflexivity.
  - reflexivity.
  - lia.
  - destruct (H eq_refl) as [Hr Hf]. split; [exact Hr|exact (Hf 1000%nat)].
Defined.

Lemma readPacket_stray_bytes_witness :
  Connection_readPacket 0 demo_stray = (Raise IndexError, demo_stray).
Proof.
  destruct (readPacket_stray_bytes demo_stray 0
              (Connection.mk (Some demo_socket) true (b "OK" ++ [LF]) false
                 ∅ [] [] ∅ ∅ "INIT") "O"%byte (b "K" ++ [LF])) as [H _].
  - reflexivity.
  - discriminate.
  - reflexivity.
  - exact (proj1 (H eq_refl eq_refl)).
Defined.

Lemma report_reaches_client_witness :
  exists client',
    handleWorkData 0
      (Packet.mk constants.RES 28 (b "H:1" ++ [NUL] ++ [x00; xff])) demo_running
      = (Ok 0%nat, client') /\
    jobs client' !! 0%nat = Some (reported ReportData [x00; xff] demo_accepted_job).
Proof.
  destruct (report_reaches_client gearman_protocol ReportData demo_worker_job
              [x00; xff]
              (default [] (Packet.toBinary
                 (Packet.mk constants.REQ 28 (b "H:1" ++ [NUL] ++ [x00; xff]))))
              (demo_worker "IDLE") 0 (demo_connection "IDLE")
              (Packet.mk constants.RES 28 (b "H:1" ++ [NUL] ++ [x00; xff]))
              demo_running 0 demo_accepted_connection 0 demo_accepted_job)
    as [_ (client' & Hh & Hj & _)].
  - reflexivity.
  - split; [reflexivity|]. eexists. split; reflexivity.
  - reflexivity.
  - apply (bool_decide_unpack _). vm_compute. exact I.
  - reflexivity.
  - reflexivity.
  - reflexivity.
  - reflexivity.
  - reflexivity.
  - eauto.
Defined.

Lemma status_reaches_client_witness :
  handleWorkStatus 0
    (Packet.mk constants.RES 12 (b "H:1" ++ [NUL] ++ b "3" ++ [NUL] ++ b "10"))
    demo_running
  = (Ok 0%nat,
     with_jobs (<[0%nat := with_status (b "3") (b "10") demo_accepted_job]>) demo_running).
Proof.
  refine (proj2 (status_reaches_client gearman_protocol demo_worker_job 3 10
            (default [] (Packet.toBinary
               (Packet.mk constants.REQ 12
                  (b "H:1" ++ [NUL] ++ b "3" ++ [NUL] ++ b "10"))))
            (demo_worker "IDLE") 0 (demo_connection "IDLE")
            (Packet.mk constants.RES 12 (b "H:1" ++ [NUL] ++ b "3" ++ [NUL] ++ b "10"))
            demo_running 0 demo_accepted_connection 0 demo_accepted_job
            _ _ _ _ _ _ _ _)).
  - reflexivity.
  - split; [reflexivity|]. eexists. split; reflexivity.
  - reflexivity.
  - apply (bool_decide_unpack _). vm_compute. exact I.
  - reflexivity.
  - reflexivity.
  - reflexivity.
  - reflexivity.
Defined.

(** ** Instances of the worker and of the poll loop *)

Lemma demo_pair_grabbable :
  forall c, c ∈ active_connections demo_pair ->
    exists conn, connections demo_pair !! c = Some conn /\
      (Connection.state conn = "IDLE" -> can_send demo_pair c = true).
Proof.
  intros c Hc. apply list_elem_of_In in Hc. simpl in Hc.
  destruct Hc as [<-|[<-|[]]]; eexists; (split; [reflexivity|reflexivity]).
Defined.

Lemma _updateStateMachines_outcome_witness :
  exists w',
    _updateStateMachines gearman (demo_worker "IDLE") = (Ok tt, w') /\
    connections w' !! 0%nat =
      Some (Connection.with_state (fun _ => "GRAB_WAIT")
              (with_sent demo_grab (demo_connection "IDLE"))).
Proof.
  destruct (_updateStateMachines_outcome gearman (demo_worker "IDLE") demo_grab)
    as (w' & Hu & _ & Hl).
  - reflexivity.
  - intros c Hc. apply list_elem_of_In in Hc. simpl in Hc.
    destruct Hc as [<-|[]]. eexists. split; reflexivity.
  - exists w'. split; [exact Hu|]. rewrite (Hl 0%nat). reflexivity.
Defined.

Lemma getJob_receives_assignment_witness :
  exists w',
    getJob gearman_protocol [handles (handleJobAssign gearman) 0 demo_assign] demo_pair
      = (Ok demo_worker_job, w') /\
    connections w' !! 0%nat = Some (with_sent demo_grab (demo_connection "IDLE")) /\
    connections w' !! 1%nat = Some (demo_connection "IDLE").
Proof.
  destruct (getJob_receives_assignment gearman_protocol demo_pair demo_grab 0
              demo_assign (b "H:1") (b "reverse") (b "hello") [])
    as (w' & Hg & _ & Hl).
  - reflexivity.
  - reflexivity.
  - reflexivity.
  - reflexivity.
  - exact demo_pair_grabbable.
  - apply (bool_decide_unpack _). vm_compute. exact I.
  - apply (bool_decide_unpack _). vm_compute. exact I.
  - apply (bool_decide_unpack _). vm_compute. exact I.
  - reflexivity.
  - exists w'. split; [exact Hg|]. rewrite (Hl 0%nat), (Hl 1%nat).
    split; reflexivity.
Defined.

Lemma stopWaitingForJobs_outcome_witness :
  exists w',
    stopWaitingForJobs gearman_protocol 1 [fun _ => true] []
      (demo_worker "GRAB_WAIT") = (Ok tt, w') /\
    waiting_for_jobs w' = 0 /\ job_queue w' = [None] /\
    active_connections w' = [] /\ 0%nat ∈ inactive_connections w'.
Proof.
  destruct (stopWaitingForJobs_outcome gearman_protocol 0 [fun _ => true] []
              (demo_worker "GRAB_WAIT")) as (w' & Hs & Hn & Hq & Ha & Hi & _).
  - apply (bool_decide_unpack _). vm_compute. exact I.
  - simpl. lia.
  - intros c Hc. apply list_elem_of_In in Hc. simpl in Hc.
    destruct Hc as [<-|[]]. eexists. split; [reflexivity|].
    intros _. split; [reflexivity|right; reflexivity].
  - exists w'. split; [exact Hs|]. split; [exact Hn|]. split; [exact Hq|].
    split; [exact Ha|]. apply Hi. right. split; [|reflexivity].
    apply (bool_decide_unpack _). vm_compute. exact I.
Defined.

Lemma getJob_interrupted_witness :
  exists w',
    getJob gearman_protocol
      [fun w => (stopWaitingForJobs gearman_protocol 1 [] [] w).2]
      (demo_worker "SLEEP") = (Raise InterruptedError, w') /\
    waiting_for_jobs w' = 0 /\ job_queue w' = [None] /\
    connections w' !! 0%nat = Some (demo_connection "IDLE").
Proof.
  destruct (getJob_interrupted gearman_protocol 0 [] [] [] (demo_worker "SLEEP"))
    as (w' & Hg & Hn & Hq & _ & Hl).
  - reflexivity.
  - reflexivity.
  - simpl. lia.
  - intros c Hc. apply list_elem_of_In in Hc. simpl in Hc.
    destruct Hc as [<-|[]]. eexists. split; [reflexivity|].
    split; discriminate.
  - exists w'. split; [exact Hg|]. split; [exact Hn|]. split; [exact Hq|].
    rewrite (Hl 0%nat). reflexivity.
Defined.

Lemma getJob_send_failure_witness :
  exists w',
    getJob gearman_protocol [] demo_cut = (Raise SocketError, w') /\
    waiting_for_jobs w' = 1 /\ active_connections w' = [].
Proof.
  destruct (getJob_send_failure gearman_protocol [] demo_cut demo_grab [] [] 0
              (Connection.mk (Some (Socket.mk [] [] true)) true [] false
                 ∅ [] [] ∅ ∅ "IDLE"))
    as (w' & Hg & Hn & _ & Ha & _).
  - reflexivity.
  - reflexivity.
  - reflexivity.
  - simpl. lia.
  - reflexivity.
  - apply (bool_decide_unpack _). vm_compute. exact I.
  - intros c Hc. simpl in Hc. by apply elem_of_nil in Hc.
  - reflexivity.
  - reflexivity.
  - reflexivity.
  - right. reflexivity.
  - exists w'. split; [exact Hg|]. split; [exact Hn|exact Ha].
Defined.

Lemma handleStatusRes_outcome_witness :
  handleStatusRes 0
    (Packet.mk constants.RES 20 (b "H:1" ++ [NUL] ++ b "1" ++ [NUL] ++ b "0"))
    demo_running
  = (Raise IndexError,
     with_jobs (<[0%nat := status_res [b "1"; b "0"] demo_accepted_job]>) demo_running).
Proof.
  refine (handleStatusRes_outcome 0
            (Packet.mk constants.RES 20 (b "H:1" ++ [NUL] ++ b "1" ++ [NUL] ++ b "0"))
            (b "H:1") [b "1"; b "0"] demo_running demo_accepted_connection 0
            demo_accepted_job _ _ _ _ _).
  - apply (bool_decide_unpack _). vm_compute. exact I.
  - reflexivity.
  - reflexivity.
  - reflexivity.
  - reflexivity.
Defined.

Lemma handlePacket_ignores_witness :
  handlePacket gearman_protocol 0 demo_assign demo_running = (Ok tt, demo_running).
Proof.
  apply (handlePacket_ignores gearman_protocol 0 demo_assign demo_running).
  apply (bool_decide_unpack _). vm_compute. exact I.
Defined.

Lemma _pollLoop_delivers_report_witness :
  exists w',
    _pollLoop_input gearman_protocol 1 0 demo_receiving = (Ok false, w') /\
    jobs w' !! 0%nat = Some (reported ReportComplete (b "olleh") demo_accepted_job).
Proof.
  destruct (_pollLoop_delivers_report gearman_protocol ReportComplete 0 0
              demo_receiving demo_receiving_connection demo_complete
              demo_complete_bytes (b "H:1") (b "olleh") 0 demo_accepted_job)
    as (w' & Hp & Hj & _).
  - reflexivity.
  - apply (bool_decide_unpack _). vm_compute. exact I.
  - split; reflexivity.
  - reflexivity.
  - reflexivity.
  - apply (bool_decide_unpack _). vm_compute. exact I.
  - reflexivity.
  - eexists _, _. split; [reflexivity|]. split; [reflexivity|].
    split; [reflexivity|]. split; [reflexivity|].
    repeat constructor; discriminate.
  - reflexivity.
  - reflexivity.
  - reflexivity.
  - reflexivity.
  - exists w'. split; [exact Hp|exact Hj].
Defined.

Lemma _pollLoop_loses_connection_witness :
  exists w',
    _pollLoop_input gearman_protocol 1 0 demo_closed = (Ok true, w') /\
    0%nat ∈ inactive_connections w' /\ jobs w' = jobs demo_closed.
Proof.
  destruct (_pollLoop_loses_connection gearman_protocol 0 0 demo_closed
              demo_closed_connection) as [_ H].
  - reflexivity.
  - left. reflexivity.
  - apply (bool_decide_unpack _). vm_compute. exact I.
  - destruct (H (Socket.mk [] [[]] false) []) as (w' & Hp & _ & Hi & Hj & _).
    + reflexivity.
    + reflexivity.
    + left. reflexivity.
    + exists w'. split; [exact Hp|]. split; [exact Hi|exact Hj].
Defined.

Lemma shutdown_outcome_witness :
  exists w',
    shutdown gearman_protocol 1 [] [] demo_client = (Ok tt, w') /\
    stopped w' /\
    connections w' !! 1%nat = Some (disconnected (demo_connection "INIT")) /\
    shutdown gearman_protocol 1 [] [] w' = (Ok tt, w').
Proof.
  destruct (shutdown_outcome gearman_protocol 0 [] [] demo_client)
    as (w' & Hs & Hst & _ & Hl & _ & Hagain).
  - reflexivity.
  - intros c Hc. apply list_elem_of_In in Hc. simpl in Hc.
    destruct Hc as [<-|[<-|[<-|[]]]]; eexists; reflexivity.
  - discriminate.
  - exists w'. split; [exact Hs|]. split; [exact Hst|].
    split; [rewrite (Hl 1%nat); reflexivity|].
    exact (proj1 (Hagain 1%nat [] [])).
Defined.

Lemma demo_worker_losable :
  losable (demo_worker "IDLE") (active_connections (demo_worker "IDLE")).
Proof.
  intros c Hc. apply list_elem_of_In in Hc. simpl in Hc.
  destruct Hc as [<-|[]]. eexists. split; [reflexivity|right; reflexivity].
Defined.

Lemma registerFunction_unRegisterFunction_witness :
  unRegisterFunction gearman_protocol (b "reverse") (demo_worker "IDLE")
    = (Raise KeyError, demo_worker "IDLE") /\
  connections (registerFunction gearman_protocol (b "reverse") (Some (b "30"))
                 (demo_worker "IDLE")).2 !! 0%nat =
    Some (with_sent
            (default [] (Packet.toBinary
               (Packet.mk constants.REQ 23 (b "reverse" ++ [NUL] ++ b "30"))))
            (demo_connection "IDLE")).
Proof.
  destruct (registerFunction_unRegisterFunction gearman_protocol (b "reverse")
              (Some (b "30")) (demo_worker "IDLE")) as (_ & _ & _ & _ & Hk & Hc).
  split.
  - apply Hk. reflexivity.
  - rewrite (Hc (default [] (Packet.toBinary
                   (Packet.mk constants.REQ 23 (b "reverse" ++ [NUL] ++ b "30"))))
               0%nat).
    + reflexivity.
    + reflexivity.
    + exact demo_worker_losable.
    + apply (bool_decide_unpack _). vm_compute. exact I.
    + apply (bool_decide_unpack _). vm_compute. exact I.
    + reflexivity.
Defined.

Lemma setFunctions_outcome_witness :
  functions (setFunctions gearman_protocol demo_functions (demo_worker "IDLE")).2
    !! b "reverse" = Some (FunctionRecord.mk (b "reverse") (Some (b "5"))) /\
  connections (setFunctions gearman_protocol demo_functions (demo_worker "IDLE")).2
    !! 0%nat =
    Some (with_all_sent
            [Packet.mk constants.REQ 3 [];
             Packet.mk constants.REQ 23 (b "reverse" ++ [NUL] ++ b "5");
             Packet.mk constants.REQ 23 (b "count" ++ [NUL] ++ b "30")]
            (demo_connection "IDLE")).
Proof.
  destruct (setFunctions_outcome gearman_protocol demo_functions (demo_worker "IDLE"))
    as (_ & Hf & Hc).
  split.
  - rewrite Hf. reflexivity.
  - destruct (Hc 0%nat) as [_ Hl].
    + repeat constructor; vm_compute; eauto.
    + split; [exact demo_worker_losable|]. split; [|split; [|reflexivity]].
      * apply (bool_decide_unpack _). vm_compute. exact I.
      * apply (bool_decide_unpack _). vm_compute. exact I.
    + rewrite Hl. reflexivity.
Defined.

Lemma _pollLoop_admin_response_witness :
  exists w',
    _pollLoop_input gearman_protocol 1 0 demo_asking = (Ok false, w') /\
    admins w' !! 0%nat =
      Some (AdminRequest.mk AdminRequest.StatusAdminRequest [] (Some [DOT; LF]) true).
Proof.
  destruct (_pollLoop_admin_response gearman_protocol 0 0 0 demo_asking
              demo_asking_connection (Socket.mk [] [[DOT; LF]] false)
              (AdminRequest.init AdminRequest.StatusAdminRequest [])
              (AdminRequest.mk AdminRequest.StatusAdminRequest [] (Some [DOT; LF]) false)
              DOT [LF] [] [])
    as (w' & Hp & Ha & _).
  - reflexivity.
  - reflexivity.
  - reflexivity.
  - discriminate.
  - reflexivity.
  - reflexivity.
  - reflexivity.
  - reflexivity.
  - exists w'. split; [exact Hp|exact Ha].
Defined.
